(** * Resilience and admission-control layer of erni-foto-agency

    A shallow embedding of

    - [performance/rate_limiter.py]  (TokenBucket, RateLimiter,
      RateLimiterContext, get_rate_limiter),
    - [session/session_manager.py]   (SessionMetadata, SessionManager),
    - the call breaker described in section 4.1 of the specification
      (its module, [performance/circuit_breaker.py], is imported by the
      sources but is not part of them),

    followed by the properties established about them.

    Conventions of the embedding.

    - Python [float] values (token levels, rates, timestamps, durations)
      are exact rationals [Q]: no rounding, no NaN, no infinities.
      Python [int] values are [Z], and [float(n)] of an [int] is [n].
      Where a statement needs that conversion to be exact, or a duration
      to be one that [float] arithmetic holds, it says so with
      [float_exact] and [float_sized].
    - [time.time()] reads a clock kept in the run-time state.  Between two
      readings the clock may advance by an arbitrary delay; the delays are
      supplied by the [latency] list of the state, one per reading, so a
      statement quantified over all states with non-negative latencies
      covers every non-decreasing clock.
    - Coroutines are run to completion by a sequential interpreter.  What a
      coroutine does to the outside is recorded in a trace of events:
      log records, lock acquisition and release, suspensions (with the
      state of the object that other tasks can see meanwhile) and calls
      on external handles.
    - An exception is a value [Raise e]; mutations made before it was
      raised stay in the state, as in Python. *)

From Stdlib Require Import ZArith QArith Qminmax Lqa Lia List String Ascii Bool Sorted.
From stdpp Require Import gmap strings.
Import ListNotations.

Set Implicit Arguments.
Open Scope Q_scope.

(** ** Run-time: exceptions, events, clock, state-and-exception monad *)

Inductive exn : Type :=
| ZeroDivisionError
| Exception (msg : string).

(** Outcome of running a coroutine: it returned, it raised, or it is
    parked on a future that only another task can complete (the
    sequential interpreter stops there). *)
Inductive result (A : Type) : Type :=
| Ok (a : A)
| Raise (e : exn)
| Pending.
Arguments Ok {A} a.
Arguments Raise {A} e.
Arguments Pending {A}.

Inductive level : Type := DEBUG | INFO | WARNING | ERROR.

Section Runtime.
Context {Obj : Type}.

Inductive event : Type :=
| Logged (lvl : level) (msg : string)
| LockAcquired
| LockReleased
| Suspended (duration : Q) (visible : Obj)
| Called (method target : string).

Record state : Type := mkState {
  clock : Q;
  latency : list Q;
  trace : list event;
  self : Obj
}.

Definition M (A : Type) : Type := state -> result A * state.

Definition ret {A} (a : A) : M A := fun st => (Ok a, st).

Definition bind {A B} (m : M A) (k : A -> M B) : M B :=
  fun st =>
    match m st with
    | (Ok a, st') => k a st'
    | (Raise e, st') => (Raise e, st')
    | (Pending, st') => (Pending, st')
    end.

Definition raise {A} (e : exn) : M A := fun st => (Raise e, st).

(** [try: body except Exception as e: handler e].  Both constructors of
    [exn] are subclasses of Python's [Exception]. *)
Definition try_except {A} (body : M A) (handler : exn -> M A) : M A :=
  fun st =>
    match body st with
    | (Ok a, st') => (Ok a, st')
    | (Raise e, st') => handler e st'
    | (Pending, st') => (Pending, st')
    end.

Definition get : M Obj := fun st => (Ok (self st), st).

Definition modify (f : Obj -> Obj) : M unit :=
  fun st => (Ok tt, mkState (clock st) (latency st) (trace st) (f (self st))).

Definition emit (ev : event) : M unit :=
  fun st => (Ok tt, mkState (clock st) (latency st) (trace st ++ [ev]) (self st)).

(** [time.time()]: the clock first advances by the next pending delay. *)
Definition time_time : M Q :=
  fun st =>
    let now := clock st + hd 0 (latency st) in
    (Ok now, mkState now (tl (latency st)) (trace st) (self st)).

(** [logger.debug/info/warning/error(msg, ...)]. *)
Definition log (lvl : level) (msg : string) : M unit := emit (Logged lvl msg).

(** [await asyncio.sleep(d)]: the task is suspended, other tasks see the
    object as it is now, and the clock has advanced by [d] on resumption. *)
Definition asyncio_sleep (d : Q) : M unit :=
  fun st =>
    (Ok tt,
     mkState (clock st + d) (latency st)
             (trace st ++ [Suspended d (self st)]) (self st)).

(** [async with self._lock: body]: the lock is released when the body
    returns or raises, and an exception of the body propagates. *)
Definition with_lock {A} (body : M A) : M A :=
  fun st =>
    match emit LockAcquired st with
    | (_, st1) =>
      match body st1 with
      | (Pending, st2) => (Pending, st2)
      | (r, st2) => (r, snd (emit LockReleased st2))
      end
    end.

End Runtime.

Arguments event Obj : clear implicits.
Arguments state Obj : clear implicits.
Arguments M Obj A : clear implicits.

Declare Scope monad_scope.
Delimit Scope monad_scope with monad.
Notation "x <- m ;; k" := (bind m (fun x => k))
  (at level 100, m at next level, right associativity) : monad_scope.
Notation "m ;;; k" := (bind m (fun _ => k))
  (at level 100, right associativity) : monad_scope.
Open Scope monad_scope.

(** Boolean comparisons on rationals, as used by [if] in the sources. *)
Definition Qgeb (x y : Q) : bool := Qle_bool y x.
Definition Qgtb (x y : Q) : bool := negb (Qle_bool x y).

(** The integers that [float] holds exactly: up to [2^53] in magnitude
    [float(n)] is [n] itself.  Beyond, [float(n)] rounds, and from
    [2^1024 - 2^970] on it raises [OverflowError]. *)
Definition float_exact (n : Z) : bool := (Z.abs n <=? 2 ^ 53)%Z.

(** A duration that [float] arithmetic neither flushes to zero nor turns
    into an infinity: zero, or between [2^-1000] and [2^1000] seconds. *)
Definition float_sized (d : Q) : bool :=
  Qeq_bool d 0 ||
  (Qle_bool (1 / inject_Z (2 ^ 1000)) d && Qle_bool d (inject_Z (2 ^ 1000))).

(** ** rate_limiter.py *)

Record RateLimitConfig : Type := mkRateLimitConfig {
  requests_per_minute : Z;
  tokens_per_minute : Z;
  max_concurrent_requests : Z;
  refill_rate_rpm : Q;
  refill_rate_tpm : Q
}.

(** The dataclass constructor followed by [__post_init__]. *)
Definition RateLimitConfig_init (rpm tpm mc : Z) : RateLimitConfig :=
  mkRateLimitConfig rpm tpm mc (inject_Z rpm / 60) (inject_Z tpm / 60).

Definition RateLimitConfig_default : RateLimitConfig :=
  RateLimitConfig_init 500 30000 10.

Module TokenBucket.

Record t : Type := mk {
  capacity : Q;
  refill_rate : Q;
  tokens : Q;
  last_refill_time : Q
}.

(** [TokenBucket(capacity, refill_rate)] when [time.time()] returns [now]:
    the bucket starts full. *)
Definition __post_init__ (capacity refill_rate now : Q) : t :=
  mk capacity refill_rate capacity now.

(** [_refill], with [now] the value returned by its call of [time.time()]. *)
Definition _refill (now : Q) (b : t) : t :=
  let elapsed := now - last_refill_time b in
  let tokens_to_add := elapsed * refill_rate b in
  mk (capacity b) (refill_rate b)
     (Qmin (capacity b) (tokens b + tokens_to_add))
     now.

Definition consume (now : Q) (n : Q) (b : t) : bool * t :=
  let b := _refill now b in
  if Qgeb (tokens b) n
  then (true, mk (capacity b) (refill_rate b) (tokens b - n) (last_refill_time b))
  else (false, b).

(** Float division by zero raises [ZeroDivisionError]. *)
Definition get_wait_time (now : Q) (n : Q) (b : t) : result Q * t :=
  let b := _refill now b in
  if Qgeb (tokens b) n
  then (Ok 0, b)
  else
    let tokens_needed := n - tokens b in
    if Qeq_bool (refill_rate b) 0
    then (Raise ZeroDivisionError, b)
    else (Ok (tokens_needed / refill_rate b), b).

Definition get_available_tokens (now : Q) (b : t) : Q * t :=
  let b := _refill now b in
  (tokens b, b).

End TokenBucket.

Module Semaphore.

(** [asyncio.Semaphore]: the counter of free slots. *)
Record t : Type := mk { _value : Z }.

(** [asyncio.Semaphore(value)] raises [ValueError] on a negative value. *)
Definition __init__ (value : Z) : result t :=
  if (value <? 0)%Z
  then Raise (Exception "Semaphore initial value must be >= 0")
  else Ok (mk value).

(** [acquire]: takes a slot when one is free, otherwise the caller is
    parked until another task releases one. *)
Definition acquire (s : t) : result bool * t :=
  if (0 <? _value s)%Z then (Ok true, mk (_value s - 1)) else (Pending, s).

Definition release (s : t) : t := mk (_value s + 1).

End Semaphore.

Module RateLimiter.

Record t : Type := mk {
  name : string;
  config : RateLimitConfig;
  rpm_bucket : TokenBucket.t;
  tpm_bucket : TokenBucket.t;
  semaphore : Semaphore.t;
  total_requests : Z;
  total_tokens_consumed : Z;
  total_wait_time : Q;
  requests_throttled : Z
}.

Definition set_rpm_bucket (b : TokenBucket.t) (r : t) : t :=
  mk (name r) (config r) b (tpm_bucket r) (semaphore r) (total_requests r)
     (total_tokens_consumed r) (total_wait_time r) (requests_throttled r).

Definition set_tpm_bucket (b : TokenBucket.t) (r : t) : t :=
  mk (name r) (config r) (rpm_bucket r) b (semaphore r) (total_requests r)
     (total_tokens_consumed r) (total_wait_time r) (requests_throttled r).

Definition set_semaphore (s : Semaphore.t) (r : t) : t :=
  mk (name r) (config r) (rpm_bucket r) (tpm_bucket r) s (total_requests r)
     (total_tokens_consumed r) (total_wait_time r) (requests_throttled r).

Definition set_total_requests (n : Z) (r : t) : t :=
  mk (name r) (config r) (rpm_bucket r) (tpm_bucket r) (semaphore r) n
     (total_tokens_consumed r) (total_wait_time r) (requests_throttled r).

Definition set_total_tokens_consumed (n : Z) (r : t) : t :=
  mk (name r) (config r) (rpm_bucket r) (tpm_bucket r) (semaphore r)
     (total_requests r) n (total_wait_time r) (requests_throttled r).

Definition set_total_wait_time (w : Q) (r : t) : t :=
  mk (name r) (config r) (rpm_bucket r) (tpm_bucket r) (semaphore r)
     (total_requests r) (total_tokens_consumed r) w (requests_throttled r).

Definition set_requests_throttled (n : Z) (r : t) : t :=
  mk (name r) (config r) (rpm_bucket r) (tpm_bucket r) (semaphore r)
     (total_requests r) (total_tokens_consumed r) (total_wait_time r) n.

(** [RateLimiter(name, config)].  Each bucket reads the clock when it is
    built; the constructor can run inside any object's coroutine. *)
Definition __init__ {Obj} (name : string) (config : option RateLimitConfig)
  : M Obj t :=
  let config := match config with Some c => c | None => RateLimitConfig_default end in
  t_rpm <- time_time ;;
  let rpm := TokenBucket.__post_init__
               (inject_Z (requests_per_minute config)) (refill_rate_rpm config) t_rpm in
  t_tpm <- time_time ;;
  let tpm := TokenBucket.__post_init__
               (inject_Z (tokens_per_minute config)) (refill_rate_tpm config) t_tpm in
  match Semaphore.__init__ (max_concurrent_requests config) with
  | Ok sem =>
      log INFO "Rate limiter initialized" ;;;
      ret (mk name config rpm tpm sem 0%Z 0%Z 0 0%Z)
  | Raise e => raise e
  | Pending => fun st => (Pending, st)
  end.

(** A method call on [self.rpm_bucket] / [self.tpm_bucket]: the method
    reads the clock once and mutates the bucket in place. *)
Definition on_rpm_bucket {A} (method : Q -> TokenBucket.t -> A * TokenBucket.t)
  : M t A :=
  now <- time_time ;;
  r <- get ;;
  let (a, b) := method now (rpm_bucket r) in
  modify (set_rpm_bucket b) ;;;
  ret a.

Definition on_tpm_bucket {A} (method : Q -> TokenBucket.t -> A * TokenBucket.t)
  : M t A :=
  now <- time_time ;;
  r <- get ;;
  let (a, b) := method now (tpm_bucket r) in
  modify (set_tpm_bucket b) ;;;
  ret a.

(** Turns a returned [result] into control flow. *)
Definition lift_result {Obj A} (m : M Obj (result A)) : M Obj A :=
  r <- m ;;
  match r with
  | Ok a => ret a
  | Raise e => raise e
  | Pending => fun st => (Pending, st)
  end.

(** [_wait_for_capacity(estimated_tokens)].  The two [float(estimated_tokens)]
    conversions are [inject_Z]: the weight is taken among the integers that
    [float] converts without raising, and the conversion as exact (see
    [float_exact]). *)
Definition _wait_for_capacity (estimated_tokens : Z) : M t unit :=
  with_lock (
    (* Check RPM limit *)
    rpm_wait <- lift_result (on_rpm_bucket (fun now => TokenBucket.get_wait_time now 1)) ;;
    (* Check TPM limit *)
    tpm_wait <- lift_result (on_tpm_bucket (fun now =>
                  TokenBucket.get_wait_time now (inject_Z estimated_tokens))) ;;
    (* Wait for the longer of the two *)
    let wait_time := Qmax rpm_wait tpm_wait in
    (if Qgtb wait_time 0 then
       modify (fun r => set_requests_throttled (requests_throttled r + 1)%Z r) ;;;
       modify (fun r => set_total_wait_time (total_wait_time r + wait_time) r) ;;;
       rpm_available <- on_rpm_bucket TokenBucket.get_available_tokens ;;
       tpm_available <- on_tpm_bucket TokenBucket.get_available_tokens ;;
       log WARNING "Rate limit reached, waiting" ;;;
       asyncio_sleep wait_time
     else ret tt) ;;;
    (* Consume tokens *)
    _ <- on_rpm_bucket (fun now => TokenBucket.consume now 1) ;;
    _ <- on_tpm_bucket (fun now => TokenBucket.consume now (inject_Z estimated_tokens)) ;;
    modify (fun r => set_total_requests (total_requests r + 1)%Z r) ;;;
    modify (fun r => set_total_tokens_consumed
                       (total_tokens_consumed r + estimated_tokens)%Z r) ;;;
    rpm_remaining <- on_rpm_bucket TokenBucket.get_available_tokens ;;
    tpm_remaining <- on_tpm_bucket TokenBucket.get_available_tokens ;;
    log DEBUG "Rate limit acquired").

End RateLimiter.

Module RateLimiterContext.

(** The context object; its [limiter] is the object the coroutine runs on. *)
Record t : Type := mk { estimated_tokens : Z }.

(** [__aenter__]: wait for rate-limit capacity, then take a concurrency slot. *)
Definition __aenter__ (ctx : t) : M RateLimiter.t t :=
  RateLimiter._wait_for_capacity (estimated_tokens ctx) ;;;
  _ <- RateLimiter.lift_result (fun st =>
         let (r, s) := Semaphore.acquire (RateLimiter.semaphore (self st)) in
         (Ok r, mkState (clock st) (latency st) (trace st)
                        (RateLimiter.set_semaphore s (self st)))) ;;
  ret ctx.

(** [__aexit__(exc_type, exc_val, exc_tb)]: release the slot; the returned
    [False] lets an exception of the body propagate. *)
Definition __aexit__ (ctx : t) (exc : option exn) : M RateLimiter.t bool :=
  modify (fun r => RateLimiter.set_semaphore
                     (Semaphore.release (RateLimiter.semaphore r)) r) ;;;
  ret false.

End RateLimiterContext.

(** [limiter.acquire(estimated_tokens)]. *)
Definition RateLimiter_acquire (estimated_tokens : Z) : RateLimiterContext.t :=
  RateLimiterContext.mk estimated_tokens.

(** [async with ctx: body].  The value is [Some] of the body's value, or
    [None] when [__aexit__] suppressed an exception of the body. *)
Definition async_with {A} (ctx : RateLimiterContext.t) (body : M RateLimiter.t A)
  : M RateLimiter.t (option A) :=
  fun st =>
    match RateLimiterContext.__aenter__ ctx st with
    | (Ok _, st1) =>
        match body st1 with
        | (Ok a, st2) =>
            match RateLimiterContext.__aexit__ ctx None st2 with
            | (Ok _, st3) => (Ok (Some a), st3)
            | (Raise e, st3) => (Raise e, st3)
            | (Pending, st3) => (Pending, st3)
            end
        | (Raise e, st2) =>
            match RateLimiterContext.__aexit__ ctx (Some e) st2 with
            | (Ok suppress, st3) =>
                if suppress then (Ok None, st3) else (Raise e, st3)
            | (Raise e', st3) => (Raise e', st3)
            | (Pending, st3) => (Pending, st3)
            end
        | (Pending, st2) => (Pending, st2)
        end
    | (Raise e, st1) => (Raise e, st1)
    | (Pending, st1) => (Pending, st1)
    end.

(** *** Global rate limiters *)

Definition ascii_lower (c : ascii) : ascii :=
  let n := nat_of_ascii c in
  if ((65 <=? n) && (n <=? 90))%nat then ascii_of_nat (n + 32) else c.

(** [str.lower()] on ASCII text. *)
Fixpoint lower (s : string) : string :=
  match s with
  | EmptyString => EmptyString
  | String c s' => String (ascii_lower c) (lower s')
  end.

(** [needle in hay] for strings. *)
Fixpoint contains (needle hay : string) : bool :=
  String.prefix needle hay ||
  match hay with
  | EmptyString => false
  | String _ hay' => contains needle hay'
  end.

Module Registry.

(** Python objects are referred to by address: [objects] is the store of
    the limiters built so far (an address is an index into it) and
    [_rate_limiters] is the module-level dict from model name to limiter. *)
Record t : Type := mk {
  objects : list RateLimiter.t;
  _rate_limiters : gmap string nat
}.

Definition get_rate_limiter (model : string) : M t nat :=
  reg <- get ;;
  (match _rate_limiters reg !! model with
   | None =>
       (* Configure based on model *)
       let config :=
         if contains "mini" (lower model)
         then RateLimitConfig_init 500 200000 10
         else RateLimitConfig_init 500 30000 10 in
       limiter <- RateLimiter.__init__ ("openai_" ++ model) (Some config) ;;
       modify (fun reg =>
                 mk (objects reg ++ [limiter])
                    (<[model := List.length (objects reg)]> (_rate_limiters reg)))
   | Some _ => ret tt
   end) ;;;
  reg <- get ;;
  match _rate_limiters reg !! model with
  | Some address => ret address
  | None => raise (Exception "KeyError")
  end.

End Registry.

(** ** session_manager.py *)

Module SQLiteSession.

(** The handle class comes from the agents SDK.  A handle is identified by
    its constructor arguments; how its methods behave is a parameter. *)
Record t : Type := mk { session_id : string; db_path : string }.

(** For the constructor and each method, [Some msg] means that the call
    raises an [Exception] with that message; [has_close] is the outcome of
    [hasattr(session, 'close')]. *)
Record behaviour : Type := mkBehaviour {
  init_raises : string -> option string;
  clear_session_raises : t -> option string;
  has_close : t -> bool;
  close_raises : t -> option string
}.

End SQLiteSession.

Module SessionMetadata.

Record t : Type := mk {
  session : SQLiteSession.t;
  created_at : Q;
  last_accessed : Q;
  access_count : Z
}.

(** [update_access], with [now] the value read from [time.time()]. *)
Definition update_access (now : Q) (m : t) : t :=
  mk (session m) (created_at m) now (access_count m + 1)%Z.

End SessionMetadata.

(** [collections.OrderedDict] with string keys: an association list in
    iteration order (oldest first) whose keys are pairwise distinct. *)
Module OrderedDict.
Section OrderedDict.
Context {V : Type}.

Definition t : Type := list (string * V).

Fixpoint getitem (k : string) (d : t) : option V :=
  match d with
  | [] => None
  | (k', v) :: d' => if String.eqb k k' then Some v else getitem k d'
  end.

Definition contains_key (k : string) (d : t) : bool :=
  match getitem k d with Some _ => true | None => false end.

Fixpoint remove (k : string) (d : t) : t :=
  match d with
  | [] => []
  | (k', v) :: d' => if String.eqb k k' then d' else (k', v) :: remove k d'
  end.

(** [d.pop(k)]: [None] stands for [KeyError]. *)
Definition pop (k : string) (d : t) : option (V * t) :=
  match getitem k d with
  | Some v => Some (v, remove k d)
  | None => None
  end.

(** [d[k] = v]: in place for a present key, at the end for a new one. *)
Fixpoint setitem (k : string) (v : V) (d : t) : t :=
  match d with
  | [] => [(k, v)]
  | (k', v') :: d' =>
      if String.eqb k k' then (k, v) :: d' else (k', v') :: setitem k v d'
  end.

(** [d.move_to_end(k)] for a present key. *)
Definition move_to_end (k : string) (d : t) : t :=
  match getitem k d with
  | Some v => remove k d ++ [(k, v)]
  | None => d
  end.

(** [d.popitem(last=False)]: [None] stands for [KeyError] on an empty dict. *)
Definition popitem_first (d : t) : option ((string * V) * t) :=
  match d with
  | [] => None
  | kv :: d' => Some (kv, d')
  end.

Definition keys (d : t) : list string := map fst d.

End OrderedDict.
Arguments t V : clear implicits.
End OrderedDict.

Module Stats.

(** The [stats] dict; its five keys are fixed. *)
Record t : Type := mk {
  sessions_created : Z;
  sessions_evicted : Z;
  sessions_expired : Z;
  cache_hits : Z;
  cache_misses : Z
}.

Definition zero : t := mk 0 0 0 0 0.

Definition incr_sessions_created (s : t) : t :=
  mk (sessions_created s + 1) (sessions_evicted s) (sessions_expired s)
     (cache_hits s) (cache_misses s).
Definition incr_sessions_evicted (s : t) : t :=
  mk (sessions_created s) (sessions_evicted s + 1) (sessions_expired s)
     (cache_hits s) (cache_misses s).
Definition incr_sessions_expired (s : t) : t :=
  mk (sessions_created s) (sessions_evicted s) (sessions_expired s + 1)
     (cache_hits s) (cache_misses s).
Definition incr_cache_hits (s : t) : t :=
  mk (sessions_created s) (sessions_evicted s) (sessions_expired s)
     (cache_hits s + 1) (cache_misses s).
Definition incr_cache_misses (s : t) : t :=
  mk (sessions_created s) (sessions_evicted s) (sessions_expired s)
     (cache_hits s) (cache_misses s + 1).

End Stats.

Module SessionManager.

Inductive Task : Type := CleanupLoop.

Record t : Type := mk {
  db_path : string;
  max_sessions : Z;
  session_ttl : Z;
  cleanup_interval : Z;
  _sessions : OrderedDict.t SessionMetadata.t;
  _cleanup_task : option Task;
  _running : bool;
  stats : Stats.t
}.

Definition set_sessions (d : OrderedDict.t SessionMetadata.t) (m : t) : t :=
  mk (db_path m) (max_sessions m) (session_ttl m) (cleanup_interval m) d
     (_cleanup_task m) (_running m) (stats m).

Definition set_running (b : bool) (m : t) : t :=
  mk (db_path m) (max_sessions m) (session_ttl m) (cleanup_interval m)
     (_sessions m) (_cleanup_task m) b (stats m).

Definition update_stats (f : Stats.t -> Stats.t) (m : t) : t :=
  mk (db_path m) (max_sessions m) (session_ttl m) (cleanup_interval m)
     (_sessions m) (_cleanup_task m) (_running m) (f (stats m)).

(** [SessionManager(db_path, max_sessions, session_ttl, cleanup_interval)]. *)
Definition __init__ (db_path : string) (max_sessions session_ttl cleanup_interval : Z)
  : t :=
  mk db_path max_sessions session_ttl cleanup_interval [] None false Stats.zero.

Section WithHandles.
Variable env : SQLiteSession.behaviour.

(** An awaited call on an external handle. *)
Definition call_handle (method : string) (s : SQLiteSession.t)
  (raises : option string) : M t unit :=
  emit (Called method (SQLiteSession.session_id s)) ;;;
  match raises with
  | Some msg => raise (Exception msg)
  | None => ret tt
  end.

(** [SQLiteSession(session_id=..., db_path=...)]. *)
Definition new_session (session_id : string) : M t SQLiteSession.t :=
  m <- get ;;
  let s := SQLiteSession.mk session_id (db_path m) in
  emit (Called "SQLiteSession" session_id) ;;;
  match SQLiteSession.init_raises env session_id with
  | Some msg => raise (Exception msg)
  | None => ret s
  end.

Definition _close_session (session_id : string) (metadata : SessionMetadata.t)
  : M t unit :=
  let s := SessionMetadata.session metadata in
  try_except
    ((* Clear session data *)
     call_handle "clear_session" s (SQLiteSession.clear_session_raises env s) ;;;
     (* Close database connections (if session has close method) *)
     (if SQLiteSession.has_close env s
      then call_handle "close" s (SQLiteSession.close_raises env s)
      else ret tt) ;;;
     log DEBUG "Session closed")
    (fun e => log ERROR "Failed to close session").

Definition _evict_oldest_session : M t unit :=
  m <- get ;;
  match OrderedDict.popitem_first (_sessions m) with
  | None => ret tt
  | Some ((session_id, metadata), rest) =>
      modify (set_sessions rest) ;;;
      _close_session session_id metadata ;;;
      modify (update_stats Stats.incr_sessions_evicted) ;;;
      now <- time_time ;;
      log DEBUG "Session evicted (LRU)"
  end.

Definition get_session (session_id : string) : M t SQLiteSession.t :=
  with_lock (
    m <- get ;;
    (* Check if session exists in pool *)
    match OrderedDict.getitem session_id (_sessions m) with
    | Some metadata =>
        now <- time_time ;;
        let metadata := SessionMetadata.update_access now metadata in
        modify (fun m => set_sessions
                           (OrderedDict.setitem session_id metadata (_sessions m)) m) ;;;
        (* Move to end (most recently used) *)
        modify (fun m => set_sessions
                           (OrderedDict.move_to_end session_id (_sessions m)) m) ;;;
        modify (update_stats Stats.incr_cache_hits) ;;;
        log DEBUG "Session cache hit" ;;;
        ret (SessionMetadata.session metadata)
    | None =>
        (* Create new session *)
        modify (update_stats Stats.incr_cache_misses) ;;;
        (* Evict oldest session if at capacity *)
        (if (max_sessions m <=? Z.of_nat (List.length (_sessions m)))%Z
         then _evict_oldest_session
         else ret tt) ;;;
        session <- new_session session_id ;;
        created_at <- time_time ;;
        last_accessed <- time_time ;;
        let metadata := SessionMetadata.mk session created_at last_accessed 1 in
        modify (fun m => set_sessions
                           (OrderedDict.setitem session_id metadata (_sessions m)) m) ;;;
        modify (update_stats Stats.incr_sessions_created) ;;;
        log INFO "Session created" ;;;
        ret session
    end).

Definition remove_session (session_id : string) : M t unit :=
  with_lock (
    m <- get ;;
    match OrderedDict.pop session_id (_sessions m) with
    | Some (metadata, rest) =>
        modify (set_sessions rest) ;;;
        _close_session session_id metadata ;;;
        log INFO "Session removed"
    | None => ret tt
    end).

(** [for x in xs: body x]. *)
Fixpoint for_each {X} (xs : list X) (body : X -> M t unit) : M t unit :=
  match xs with
  | [] => ret tt
  | x :: xs' => body x ;;; for_each xs' body
  end.

(** The test [age > self.session_ttl] of [cleanup_expired_sessions]. *)
Definition is_expired (now : Q) (ttl : Z) (metadata : SessionMetadata.t) : bool :=
  let age := now - SessionMetadata.last_accessed metadata in
  Qgtb age (inject_Z ttl).

(** The ids collected by the first loop of [cleanup_expired_sessions]. *)
Definition expired_ids (now : Q) (ttl : Z) (d : OrderedDict.t SessionMetadata.t)
  : list string :=
  map fst (List.filter (fun kv => is_expired now ttl (snd kv)) d).

Definition cleanup_expired_sessions : M t Z :=
  with_lock (
    now <- time_time ;;
    m <- get ;;
    let expired_sessions := expired_ids now (session_ttl m) (_sessions m) in
    (* Remove expired sessions *)
    for_each expired_sessions (fun session_id =>
      m <- get ;;
      match OrderedDict.pop session_id (_sessions m) with
      | Some (metadata, rest) =>
          modify (set_sessions rest) ;;;
          _close_session session_id metadata ;;;
          modify (update_stats Stats.incr_sessions_expired)
      | None => raise (Exception "KeyError")
      end) ;;;
    (match expired_sessions with
     | [] => ret tt
     | _ => log INFO "Expired sessions cleaned up"
     end) ;;;
    ret (Z.of_nat (List.length expired_sessions))).

(** [shutdown].  Cancelling and awaiting the background task is one
    event; the task itself is not run by the sequential interpreter. *)
Definition shutdown : M t unit :=
  log INFO "Shutting down Session Manager..." ;;;
  modify (set_running false) ;;;
  m <- get ;;
  (match _cleanup_task m with
   | Some _ => emit (Called "cancel" "_cleanup_task")
   | None => ret tt
   end) ;;;
  (* Close all sessions *)
  with_lock (
    m <- get ;;
    for_each (_sessions m) (fun kv => _close_session (fst kv) (snd kv)) ;;;
    modify (set_sessions [])) ;;;
  log INFO "Session Manager shutdown complete".

End WithHandles.
End SessionManager.

(** ** The call breaker (specification, section 4.1) *)

Module CircuitBreaker.

(** Modelled from the spec: the three states of the CallBreaker, under
    the names the unit tests import; the enum in
    [performance/circuit_breaker.py] is missing. *)
Inductive CircuitState : Type := CLOSED | OPEN | HALF_OPEN.

(** Modelled from the spec: the configuration options of section 6,
    [{failureThreshold, baseTimeoutSeconds, maxTimeoutSeconds,
    successThreshold}], under the names the unit tests use for the first
    three; [performance/circuit_breaker.py] itself is missing. *)
Record CircuitBreakerConfig : Type := mkConfig {
  failure_threshold : Z;
  timeout_seconds : Q;
  max_timeout_seconds : Q;
  success_threshold : Z
}.

(** Modelled from the spec: the CallBreaker data model of section 3
    (state, currentTimeout, consecutiveFailures, consecutiveSuccesses,
    openedAt and the running totals); the class definition is missing. *)
Record t : Type := mk {
  name : string;
  config : CircuitBreakerConfig;
  state : CircuitState;
  current_timeout : Q;
  failure_count : Z;
  success_count : Z;
  opened_at : Q;
  total_requests : Z;
  total_successes : Z;
  total_failures : Z
}.

(** Modelled from the spec: a breaker starts CLOSED with zero counters and
    [currentTimeout = baseTimeout]; the constructor is missing. *)
Definition __init__ (name : string) (config : CircuitBreakerConfig) : t :=
  mk name config CLOSED (timeout_seconds config) 0 0 0 0 0 0.

(** Modelled from the spec: [reset()] forces CLOSED, zeroes all failure and
    success counters and restores [currentTimeout = baseTimeout]; the
    method is missing. *)
Definition reset (b : t) : t :=
  mk (name b) (config b) CLOSED (timeout_seconds (config b)) 0 0 (opened_at b)
     (total_requests b) (total_successes b) (total_failures b).

(** Modelled from the spec: what [call] gives back is the operation's
    value, the operation's own error unchanged, or the breaker-specific
    error naming the breaker and its state; the class [CircuitBreakerError]
    is imported by the unit tests and its definition is missing. *)
Inductive outcome (E A : Type) : Type :=
| Returned (a : A)
| Propagated (e : E)
| CircuitBreakerError (breaker : string) (st : CircuitState).
Arguments Returned {E A} a.
Arguments Propagated {E A} e.
Arguments CircuitBreakerError {E A} breaker st.

(** Modelled from the spec: the wrapped operation, as the unit tests
    write it, acts on the caller's own state [C] (where an invocation
    counter lives) and returns a value or raises; the signature of [call]
    is missing. *)
Definition operation (C E A : Type) : Type := C -> (A + E) * C.

(** Modelled from the spec: the transition to OPEN records [openedAt = now]
    and sets [currentTimeout = min(currentTimeout * 2, maxTimeout)]; the
    code of the transition is missing. *)
Definition trip (now : Q) (b : t) : t :=
  mk (name b) (config b) OPEN
     (Qmin (current_timeout b * 2) (max_timeout_seconds (config b)))
     (failure_count b) (success_count b) now
     (total_requests b) (total_successes b) (total_failures b).

(** Modelled from the spec: on success, CLOSED resets consecutiveFailures;
    HALF_OPEN increments consecutiveSuccesses and, once it reaches
    successThreshold, closes with [consecutiveFailures = 0] and
    [currentTimeout = baseTimeout]; the handler is missing. *)
Definition on_success (b : t) : t :=
  let b := mk (name b) (config b) (state b) (current_timeout b) (failure_count b)
              (success_count b) (opened_at b)
              (total_requests b) (total_successes b + 1) (total_failures b) in
  match state b with
  | CLOSED =>
      mk (name b) (config b) CLOSED (current_timeout b) 0 (success_count b)
         (opened_at b) (total_requests b) (total_successes b) (total_failures b)
  | HALF_OPEN =>
      let n := (success_count b + 1)%Z in
      if (success_threshold (config b) <=? n)%Z
      then mk (name b) (config b) CLOSED (timeout_seconds (config b)) 0 n
              (opened_at b) (total_requests b) (total_successes b) (total_failures b)
      else mk (name b) (config b) HALF_OPEN (current_timeout b) (failure_count b) n
              (opened_at b) (total_requests b) (total_successes b) (total_failures b)
  | OPEN => b
  end.

(** Modelled from the spec: on failure, CLOSED increments
    consecutiveFailures and opens when it reaches failureThreshold;
    HALF_OPEN reopens at once; the handler is missing. *)
Definition on_failure (now : Q) (b : t) : t :=
  let b := mk (name b) (config b) (state b) (current_timeout b) (failure_count b)
              (success_count b) (opened_at b)
              (total_requests b) (total_successes b) (total_failures b + 1) in
  match state b with
  | CLOSED =>
      let n := (failure_count b + 1)%Z in
      let b := mk (name b) (config b) CLOSED (current_timeout b) n (success_count b)
                  (opened_at b) (total_requests b) (total_successes b)
                  (total_failures b) in
      if (failure_threshold (config b) <=? n)%Z then trip now b else b
  | HALF_OPEN => trip now b
  | OPEN => b
  end.

(** Modelled from the spec: a change of state alone, as when the timeout
    of an OPEN breaker has elapsed; the code of the transition is
    missing. *)
Definition set_state (s : CircuitState) (b : t) : t :=
  mk (name b) (config b) s (current_timeout b) (failure_count b) (success_count b)
     (opened_at b) (total_requests b) (total_successes b) (total_failures b).

(** Modelled from the spec: every call counts in totalRequests; the
    counter's update is missing. *)
Definition incr_total_requests (b : t) : t :=
  mk (name b) (config b) (state b) (current_timeout b) (failure_count b)
     (success_count b) (opened_at b)
     (total_requests b + 1) (total_successes b) (total_failures b).

Section Call.
Context {C E A : Type}.

(** Modelled from the spec: in CLOSED and HALF_OPEN the operation is
    invoked and its error propagates unchanged. *)
Definition attempt (now : Q) (op : operation C E A) (b : t) (c : C)
  : outcome E A * (t * C) :=
  let b := incr_total_requests b in
  match op c with
  | (inl a, c') => (Returned a, (on_success b, c'))
  | (inr e, c') => (Propagated e, (on_failure now b, c'))
  end.

(** Modelled from the spec: [call(operation)] at time [now].  In OPEN, while
    [now - openedAt < currentTimeout], the call is rejected with the
    breaker's error and the operation is not invoked (the call still
    counts in totalRequests and totalFailures); once the timeout has
    elapsed the breaker turns HALF_OPEN and invokes the operation.  The
    method is missing. *)
Definition call (now : Q) (op : operation C E A) (bc : t * C)
  : outcome E A * (t * C) :=
  let (b, c) := bc in
  match state b with
  | OPEN =>
      if Qgtb (current_timeout b) (now - opened_at b)
      then
        let b := incr_total_requests b in
        let b := mk (name b) (config b) (state b) (current_timeout b)
                    (failure_count b) (success_count b) (opened_at b)
                    (total_requests b) (total_successes b)
                    (total_failures b + 1) in
        (CircuitBreakerError (name b) OPEN, (b, c))
      else attempt now op (set_state HALF_OPEN b) c
  | _ => attempt now op b c
  end.

(** Modelled from the spec: a caller making calls one after the other,
    each at its own time, as the loops of the unit tests do; there is no
    such function in the code. *)
Fixpoint calls (l : list (Q * operation C E A)) (bc : t * C)
  : list (outcome E A) * (t * C) :=
  match l with
  | [] => ([], bc)
  | (now, op) :: l' =>
      let (r, bc') := call now op bc in
      let (rs, bc'') := calls l' bc' in
      (r :: rs, bc'')
  end.

End Call.
End CircuitBreaker.

(** ** Histories of a token bucket *)

Module BucketHistory.

(** The three public operations of a bucket. *)
Inductive op : Type :=
| Consume (n : Q)
| GetWaitTime (n : Q)
| GetAvailableTokens.

Definition step (now : Q) (o : op) (b : TokenBucket.t) : TokenBucket.t :=
  match o with
  | Consume n => snd (TokenBucket.consume now n b)
  | GetWaitTime n => snd (TokenBucket.get_wait_time now n b)
  | GetAvailableTokens => snd (TokenBucket.get_available_tokens now b)
  end.

(** What one access shows: when it happened, the token level the
    operation read (the level after its refill), and the level and the
    refill stamp it left behind. *)
Record observation : Type := mkObservation {
  at_time : Q;
  request : op;
  seen : Q;
  left : Q;
  stamp : Q
}.

Fixpoint observations (l : list (Q * op)) (b : TokenBucket.t) : list observation :=
  match l with
  | [] => []
  | (now, o) :: l' =>
      let b' := step now o b in
      mkObservation now o (TokenBucket.tokens (TokenBucket._refill now b))
                    (TokenBucket.tokens b') (TokenBucket.last_refill_time b')
      :: observations l' b'
  end.

(** The operations happen at non-decreasing times, none before [t]. *)
Fixpoint chronological (t : Q) (l : list (Q * op)) : Prop :=
  match l with
  | [] => True
  | (t', _) :: l' => t <= t' /\ chronological t' l'
  end.

(** The amount an operation asks for. *)
Definition amount (o : op) : Q :=
  match o with
  | Consume n => n
  | GetWaitTime n => n
  | GetAvailableTokens => 0
  end.

End BucketHistory.

(** A bucket between two accesses: the stored level is not negative and
    the last refill is not in the future of the next access. *)
Definition bucket_ok (C R t : Q) (b : TokenBucket.t) : Prop :=
  TokenBucket.capacity b = C /\ TokenBucket.refill_rate b = R /\
  0 <= TokenBucket.tokens b /\ TokenBucket.last_refill_time b <= t.

(** What the claim asks of one access. *)
Definition observation_ok (C : Q) (o : BucketHistory.observation) : Prop :=
  (0 <= BucketHistory.seen o /\ BucketHistory.seen o <= C) /\
  0 <= BucketHistory.left o /\
  (0 <= BucketHistory.amount (BucketHistory.request o) -> BucketHistory.left o <= C) /\
  BucketHistory.stamp o = BucketHistory.at_time o.

(** ** The gate step as a state transformer

    Under positive refill rates [_wait_for_capacity] cannot raise; what it
    does to the state is then the composition of the following steps, one
    per statement of the source. *)

Module Gate.

Definition st : Type := state RateLimiter.t.

(** One reading of the clock. *)
Definition tick (s : st) : st :=
  mkState (clock s + hd 0 (latency s)) (tl (latency s)) (trace s) (self s).

Definition map_self (f : RateLimiter.t -> RateLimiter.t) (s : st) : st :=
  mkState (clock s) (latency s) (trace s) (f (self s)).

Definition add_event (ev : event RateLimiter.t) (s : st) : st :=
  mkState (clock s) (latency s) (trace s ++ [ev]) (self s).

(** A bucket method reads the clock, then updates the bucket. *)
Definition access_rpm (f : Q -> TokenBucket.t -> TokenBucket.t) (s : st) : st :=
  let s := tick s in
  map_self (fun r => RateLimiter.set_rpm_bucket
                       (f (clock s) (RateLimiter.rpm_bucket r)) r) s.

Definition access_tpm (f : Q -> TokenBucket.t -> TokenBucket.t) (s : st) : st :=
  let s := tick s in
  map_self (fun r => RateLimiter.set_tpm_bucket
                       (f (clock s) (RateLimiter.tpm_bucket r)) r) s.

(** The value [get_wait_time n] returns on a bucket it has just refilled,
    for a rate that is not zero. *)
Definition wait_for (n : Q) (b : TokenBucket.t) : Q :=
  if Qgeb (TokenBucket.tokens b) n then 0
  else (n - TokenBucket.tokens b) / TokenBucket.refill_rate b.

(** Whether [get_wait_time n] returns on a bucket it has just refilled:
    the level covers [n], or the rate is not zero and the division is
    defined. *)
Definition answers (n : Q) (b : TokenBucket.t) : bool :=
  Qgeb (TokenBucket.tokens b) n || negb (Qeq_bool (TokenBucket.refill_rate b) 0).

(** After taking the lock and the two [get_wait_time] calls. *)
Definition checked (s : st) : st :=
  access_tpm TokenBucket._refill
    (access_rpm TokenBucket._refill (add_event LockAcquired s)).

(** [wait_time = max(rpm_wait, tpm_wait)]. *)
Definition wait_time (w : Z) (s : st) : Q :=
  let c := checked s in
  Qmax (wait_for 1 (RateLimiter.rpm_bucket (self c)))
       (wait_for (inject_Z w) (RateLimiter.tpm_bucket (self c))).

(** The state in which the task is suspended, when it is. *)
Definition throttled (w : Z) (s : st) : st :=
  let wait := wait_time w s in
  add_event (Logged WARNING "Rate limit reached, waiting")
    (access_tpm TokenBucket._refill
      (access_rpm TokenBucket._refill
        (map_self (fun r => RateLimiter.set_total_wait_time
                              (RateLimiter.total_wait_time r + wait) r)
          (map_self (fun r => RateLimiter.set_requests_throttled
                                (RateLimiter.requests_throttled r + 1)%Z r)
             (checked s))))).

Definition sleep (d : Q) (s : st) : st :=
  mkState (clock s + d) (latency s) (trace s ++ [Suspended d (self s)]) (self s).

(** After the [if wait_time > 0] statement. *)
Definition waited (w : Z) (s : st) : st :=
  if Qgtb (wait_time w s) 0
  then sleep (wait_time w s) (throttled w s)
  else checked s.

(** After the two [consume] calls. *)
Definition consumed (w : Z) (s : st) : st :=
  access_tpm (fun now b => snd (TokenBucket.consume now (inject_Z w) b))
    (access_rpm (fun now b => snd (TokenBucket.consume now 1 b)) (waited w s)).

(** The state [_wait_for_capacity] returns in. *)
Definition admitted (w : Z) (s : st) : st :=
  add_event LockReleased
    (add_event (Logged DEBUG "Rate limit acquired")
      (access_tpm TokenBucket._refill
        (access_rpm TokenBucket._refill
          (map_self (fun r => RateLimiter.set_total_tokens_consumed
                                (RateLimiter.total_tokens_consumed r + w)%Z r)
            (map_self (fun r => RateLimiter.set_total_requests
                                  (RateLimiter.total_requests r + 1)%Z r)
               (consumed w s)))))).

(** The state [__aenter__] returns in when a slot is free. *)
Definition entered (w : Z) (s : st) : st :=
  map_self (fun r => RateLimiter.set_semaphore
                       (Semaphore.mk (Semaphore._value (RateLimiter.semaphore r) - 1)) r)
           (admitted w s).

(** The state [__aexit__] returns in. *)
Definition released (s : st) : st :=
  map_self (fun r => RateLimiter.set_semaphore
                       (Semaphore.release (RateLimiter.semaphore r)) r) s.

(** How [async with] ends for an outcome of its body when [__aexit__]
    returns [False]. *)
Definition propagated {A} (r : result A) : result (option A) :=
  match r with
  | Ok a => Ok (Some a)
  | Raise e => Raise e
  | Pending => Pending
  end.

(** The durations of the suspensions recorded in a trace. *)
Definition suspensions {Obj} (tr : list (event Obj)) : list Q :=
  flat_map (fun ev => match ev with Suspended d _ => [d] | _ => [] end) tr.

End Gate.

(** ** The registry of gates *)

Module RegistrySpec.

(** The configuration [get_rate_limiter] chooses for a model name. *)
Definition default_config (model : string) : RateLimitConfig :=
  if contains "mini" (lower model)
  then RateLimitConfig_init 500 200000 10
  else RateLimitConfig_init 500 30000 10.

(** The limiter [RateLimiter(name, config)] builds when its two buckets
    read the clock at [t_rpm] and [t_tpm]. *)
Definition built (name : string) (config : RateLimitConfig) (t_rpm t_tpm : Q)
  : RateLimiter.t :=
  RateLimiter.mk name config
    (TokenBucket.__post_init__ (inject_Z (requests_per_minute config))
                               (refill_rate_rpm config) t_rpm)
    (TokenBucket.__post_init__ (inject_Z (tokens_per_minute config))
                               (refill_rate_tpm config) t_tpm)
    (Semaphore.mk (max_concurrent_requests config)) 0 0 0 0.

(** The limiter a first lookup of [model] creates in state [s]. *)
Definition created (model : string) (s : state Registry.t) : RateLimiter.t :=
  built ("openai_" ++ model) (default_config model)
        (clock s + hd 0 (latency s))
        (clock s + hd 0 (latency s) + hd 0 (tl (latency s))).

(** The state a first lookup of [model] leaves. *)
Definition registered (model : string) (s : state Registry.t) : state Registry.t :=
  mkState (clock s + hd 0 (latency s) + hd 0 (tl (latency s)))
          (tl (tl (latency s)))
          (trace s ++ [Logged INFO "Rate limiter initialized"])
          (Registry.mk (Registry.objects (self s) ++ [created model s])
                       (<[model := List.length (Registry.objects (self s))]>
                          (Registry._rate_limiters (self s)))).

(** The weight budget as the claim words it: decided by whether the name
    itself contains "mini". *)
Definition budget_by_literal_name (model : string) : Z :=
  if contains "mini" model then 200000%Z else 30000%Z.

End RegistrySpec.

(** ** The pool operations as state transformers *)

Module Pool.

Definition st : Type := state SessionManager.t.
Definition dict : Type := OrderedDict.t SessionMetadata.t.

(** [n] readings of the clock. *)
Fixpoint ticks (n : nat) (s : st) : st :=
  match n with
  | O => s
  | S n' =>
      ticks n' (mkState (clock s + hd 0 (latency s)) (tl (latency s))
                        (trace s) (self s))
  end.

(** The state after [n] readings of the clock in which the events [evs]
    happened, the pool became [d] and the statistics changed by [f]. *)
Definition settle (n : nat) (evs : list (event SessionManager.t)) (d : dict)
  (f : Stats.t -> Stats.t) (s : st) : st :=
  mkState (clock (ticks n s)) (latency (ticks n s)) (trace s ++ evs)
          (SessionManager.set_sessions d
             (SessionManager.update_stats f (self s))).

(** What closing one handle shows in the trace, whatever its methods do. *)
Definition close_events (env : SQLiteSession.behaviour)
  (metadata : SessionMetadata.t) : list (event SessionManager.t) :=
  let h := SessionMetadata.session metadata in
  let id := SQLiteSession.session_id h in
  Called "clear_session" id ::
  match SQLiteSession.clear_session_raises env h with
  | Some _ => [Logged ERROR "Failed to close session"]
  | None =>
      if SQLiteSession.has_close env h
      then Called "close" id ::
           match SQLiteSession.close_raises env h with
           | Some _ => [Logged ERROR "Failed to close session"]
           | None => [Logged DEBUG "Session closed"]
           end
      else [Logged DEBUG "Session closed"]
  end.

(** The events of closing, in order, the entries of [d] under the keys [ids]. *)
Definition swept_events (env : SQLiteSession.behaviour) (d : dict) (ids : list string)
  : list (event SessionManager.t) :=
  flat_map (fun id => match OrderedDict.getitem id d with
                      | Some metadata => close_events env metadata
                      | None => []
                      end) ids.

(** The dict after the keys [ids] have been popped one by one. *)
Definition popped (ids : list string) (d : dict) : dict :=
  fold_left (fun d id => OrderedDict.remove id d) ids d.

(** [_evict_oldest_session]: nothing on an empty pool, otherwise the first
    entry is popped and closed. *)
Definition evict (env : SQLiteSession.behaviour) (s : st) : st :=
  match SessionManager._sessions (self s) with
  | [] => s
  | (_, metadata) :: rest =>
      settle 1 (close_events env metadata ++ [Logged DEBUG "Session evicted (LRU)"])
             rest Stats.incr_sessions_evicted s
  end.

(** The [if len(self._sessions) >= self.max_sessions] statement. *)
Definition make_room (env : SQLiteSession.behaviour) (s : st) : st :=
  if (SessionManager.max_sessions (self s) <=?
      Z.of_nat (List.length (SessionManager._sessions (self s))))%Z
  then evict env s
  else s.

(** A miss: the lock is taken and the miss is counted. *)
Definition missed (s : st) : st :=
  settle 0 [LockAcquired] (SessionManager._sessions (self s))
         Stats.incr_cache_misses s.

(** The constructor of the handle has been called. *)
Definition opened (session_id : string) (s : st) : st :=
  settle 0 [Called "SQLiteSession" session_id] (SessionManager._sessions (self s))
         (fun x => x) s.

(** The entry [get_session] builds for a new key in state [s]. *)
Definition fresh_entry (session_id : string) (s : st) : SessionMetadata.t :=
  SessionMetadata.mk (SQLiteSession.mk session_id (SessionManager.db_path (self s)))
                     (clock (ticks 1 s)) (clock (ticks 2 s)) 1.

(** The new entry has been stored, counted and logged. *)
Definition inserted (session_id : string) (s : st) : st :=
  settle 2 [Logged INFO "Session created"]
         (OrderedDict.setitem session_id (fresh_entry session_id s)
                              (SessionManager._sessions (self s)))
         Stats.incr_sessions_created s.

(** A hit on [metadata]: the entry is refreshed and moved to the end. *)
Definition touched (session_id : string) (metadata : SessionMetadata.t) (s : st) : st :=
  settle 1 [LockAcquired; Logged DEBUG "Session cache hit"]
         (OrderedDict.move_to_end session_id
            (OrderedDict.setitem session_id
               (SessionMetadata.update_access (clock (ticks 1 s)) metadata)
               (SessionManager._sessions (self s))))
         Stats.incr_cache_hits s.

Definition unlocked (s : st) : st :=
  mkState (clock s) (latency s) (trace s ++ [LockReleased]) (self s).

(** [get_session] as a function of the state, whatever its outcome. *)
Definition got (env : SQLiteSession.behaviour) (session_id : string) (s : st) : st :=
  match OrderedDict.getitem session_id (SessionManager._sessions (self s)) with
  | Some metadata => unlocked (touched session_id metadata s)
  | None =>
      let s1 := opened session_id (make_room env (missed s)) in
      match SQLiteSession.init_raises env session_id with
      | Some _ => unlocked s1
      | None => unlocked (inserted session_id s1)
      end
  end.

(** [remove_session] as a function of the state. *)
Definition removed (env : SQLiteSession.behaviour) (session_id : string) (s : st) : st :=
  match OrderedDict.getitem session_id (SessionManager._sessions (self s)) with
  | Some metadata =>
      settle 0 ([LockAcquired] ++ close_events env metadata ++
                [Logged INFO "Session removed"; LockReleased])
             (OrderedDict.remove session_id (SessionManager._sessions (self s)))
             (fun x => x) s
  | None => settle 0 [LockAcquired; LockReleased] (SessionManager._sessions (self s))
                   (fun x => x) s
  end.

(** The pool after the [if len(self._sessions) >= self.max_sessions]
    statement: the first entry is gone when the pool was at capacity. *)
Definition roomy (max_sessions : Z) (d : dict) : dict :=
  if (max_sessions <=? Z.of_nat (List.length d))%Z then tl d else d.

(** The entry the eviction test removes: the first one, when the pool is
    at capacity. *)
Definition victim (max_sessions : Z) (d : dict) : option (string * SessionMetadata.t) :=
  if (max_sessions <=? Z.of_nat (List.length d))%Z then hd_error d else None.

(** The pool [get_session] leaves. *)
Definition got_sessions (env : SQLiteSession.behaviour) (session_id : string) (s : st)
  : dict :=
  let d := SessionManager._sessions (self s) in
  match OrderedDict.getitem session_id d with
  | Some metadata =>
      OrderedDict.move_to_end session_id
        (OrderedDict.setitem session_id
           (SessionMetadata.update_access (clock (ticks 1 s)) metadata) d)
  | None =>
      let d1 := roomy (SessionManager.max_sessions (self s)) d in
      match SQLiteSession.init_raises env session_id with
      | Some _ => d1
      | None =>
          OrderedDict.setitem session_id
            (fresh_entry session_id (opened session_id (make_room env (missed s)))) d1
      end
  end.

(** The operations of the public contract that the size bound is about. *)
Inductive op : Type :=
| GetSession (session_id : string)
| RemoveSession (session_id : string)
| CleanupExpired.

(** The state one operation leaves, whether it returned or raised. *)
Definition run_op (env : SQLiteSession.behaviour) (o : op) (s : st) : st :=
  match o with
  | GetSession session_id => snd (SessionManager.get_session env session_id s)
  | RemoveSession session_id => snd (SessionManager.remove_session env session_id s)
  | CleanupExpired => snd (SessionManager.cleanup_expired_sessions env s)
  end.

Fixpoint run_ops (env : SQLiteSession.behaviour) (ops : list op) (s : st) : st :=
  match ops with
  | [] => s
  | o :: ops' => run_ops env ops' (run_op env o s)
  end.

(** The pool holds at most [max_sessions] entries, under distinct keys. *)
Definition bounded (s : st) : Prop :=
  (Z.of_nat (List.length (SessionManager._sessions (self s))) <=
   SessionManager.max_sessions (self s))%Z /\
  List.NoDup (OrderedDict.keys (SessionManager._sessions (self s))).

(** Time has not run backwards from [s] to [s'], and will not. *)
Definition later (s s' : st) : Prop :=
  Forall (fun d => 0 <= d) (latency s) ->
  clock s <= clock s' /\ Forall (fun d => 0 <= d) (latency s').

(** The pool is in recency order: last-access times do not decrease along
    the dict and none is in the future. *)
Definition lru_ordered (s : st) : Prop :=
  StronglySorted
    (fun a b => SessionMetadata.last_accessed (snd a) <=
                SessionMetadata.last_accessed (snd b))
    (SessionManager._sessions (self s)) /\
  Forall (fun kv => SessionMetadata.last_accessed (snd kv) <= clock s)
         (SessionManager._sessions (self s)) /\
  Forall (fun d => 0 <= d) (latency s).

(** Every entry holds the handle that was created for its key. *)
Definition handles_match (d : dict) : Prop :=
  Forall (fun kv => SQLiteSession.session_id (SessionMetadata.session (snd kv)) = fst kv) d.

(** [shutdown] as a function of the state. *)
Definition shut_down (env : SQLiteSession.behaviour) (s : st) : st :=
  mkState (clock s) (latency s)
    (trace s ++
     [Logged INFO "Shutting down Session Manager..."] ++
     match SessionManager._cleanup_task (self s) with
     | Some _ => [Called "cancel" "_cleanup_task"]
     | None => []
     end ++
     [LockAcquired] ++
     flat_map (fun kv => close_events env (snd kv)) (SessionManager._sessions (self s)) ++
     [LockReleased; Logged INFO "Session Manager shutdown complete"])
    (SessionManager.set_sessions [] (SessionManager.set_running false (self s))).

(** A caller asking for the sessions [ids] one after the other. *)
Fixpoint get_all (env : SQLiteSession.behaviour) (ids : list string) (s : st) : st :=
  match ids with
  | [] => s
  | id :: ids' => get_all env ids' (snd (SessionManager.get_session env id s))
  end.

(** Closing the handle of [metadata] raises, in [clear_session] or in
    [close]. *)
Definition close_fails (env : SQLiteSession.behaviour) (metadata : SessionMetadata.t)
  : Prop :=
  let h := SessionMetadata.session metadata in
  SQLiteSession.clear_session_raises env h <> None \/
  (SQLiteSession.clear_session_raises env h = None /\
   SQLiteSession.has_close env h = true /\
   SQLiteSession.close_raises env h <> None).

(** A handle class whose [clear_session] and [close] always raise. *)
Definition always_failing : SQLiteSession.behaviour :=
  SQLiteSession.mkBehaviour (fun _ => None) (fun _ => Some "disk I/O error")
                            (fun _ => true) (fun _ => Some "cannot close").

(** A handle class whose methods all succeed. *)
Definition well_behaved : SQLiteSession.behaviour :=
  SQLiteSession.mkBehaviour (fun _ => None) (fun _ => None)
                            (fun _ => true) (fun _ => None).

(** A pool of two sessions at time 100 with a time-to-live of 50 seconds:
    "a" was last accessed at 10, "b" at 99. *)
Definition example_pool : st :=
  mkState 100 [] []
    (SessionManager.mk "data/sessions.db" 5 50 300
       [("a"%string,
         SessionMetadata.mk (SQLiteSession.mk "a" "data/sessions.db") 10 10 1);
        ("b"%string,
         SessionMetadata.mk (SQLiteSession.mk "b" "data/sessions.db") 98 99 3)]
       None false Stats.zero).

(** The handles on which [clear_session] was called, in order. *)
Definition cleared (tr : list (event SessionManager.t)) : list string :=
  flat_map (fun ev => match ev with
                      | Called method target =>
                          if String.eqb method "clear_session" then [target] else []
                      | _ => []
                      end) tr.

End Pool.

(** ** Callers of the breaker *)

Module BreakerSpec.
Section BreakerSpec.
Context {C E A : Type}.

(** The operation raises whenever it is invoked. *)
Definition fails (op : CircuitBreaker.operation C E A) : Prop :=
  forall c, exists e c', op c = (inr e, c').

(** The caller's state after each operation of the list has been invoked
    exactly once, in order. *)
Definition invoked (l : list (Q * CircuitBreaker.operation C E A)) (c : C) : C :=
  fold_left (fun c p => snd (snd p c)) l c.

(** The breaker after a call it rejected: only the totals moved. *)
Definition rejected (b : CircuitBreaker.t) : CircuitBreaker.t :=
  CircuitBreaker.mk (CircuitBreaker.name b) (CircuitBreaker.config b)
    (CircuitBreaker.state b) (CircuitBreaker.current_timeout b)
    (CircuitBreaker.failure_count b) (CircuitBreaker.success_count b)
    (CircuitBreaker.opened_at b)
    (CircuitBreaker.total_requests b + 1) (CircuitBreaker.total_successes b)
    (CircuitBreaker.total_failures b + 1).

End BreakerSpec.

(** The test double of the unit tests: it counts its invocations and
    raises. *)
Definition failing_func (msg : string) : CircuitBreaker.operation Z string unit :=
  fun count => (inr msg, (count + 1)%Z).

End BreakerSpec.

(** ** Statistics of the limiter, and a caller of the gate *)

Module RateLimiterStats.

(** The dict [get_stats] returns; its ten keys are fixed. *)
Record t : Type := mk {
  name : string;
  total_requests : Z;
  total_tokens_consumed : Z;
  total_wait_time_seconds : Q;
  requests_throttled : Z;
  throttle_rate : Q;
  avg_wait_time_seconds : Q;
  rpm_available : Q;
  tpm_available : Q;
  concurrent_slots_available : Z
}.

End RateLimiterStats.

(** [limiter.get_stats()].  The entries of the dict display are evaluated
    in order; the two [get_available_tokens] calls refill the buckets. *)
Definition RateLimiter_get_stats : M RateLimiter.t RateLimiterStats.t :=
  r <- get ;;
  let throttle_rate :=
    if (0 <? RateLimiter.total_requests r)%Z
    then inject_Z (RateLimiter.requests_throttled r) /
         inject_Z (RateLimiter.total_requests r)
    else 0 in
  let avg_wait_time :=
    if (0 <? RateLimiter.requests_throttled r)%Z
    then RateLimiter.total_wait_time r / inject_Z (RateLimiter.requests_throttled r)
    else 0 in
  rpm_available <- RateLimiter.on_rpm_bucket TokenBucket.get_available_tokens ;;
  tpm_available <- RateLimiter.on_tpm_bucket TokenBucket.get_available_tokens ;;
  r' <- get ;;
  ret (RateLimiterStats.mk (RateLimiter.name r) (RateLimiter.total_requests r)
         (RateLimiter.total_tokens_consumed r) (RateLimiter.total_wait_time r)
         (RateLimiter.requests_throttled r) throttle_rate avg_wait_time
         rpm_available tpm_available
         (Semaphore._value (RateLimiter.semaphore r'))).

Module GateCaller.

(** [for w in ws: async with limiter.acquire(estimated_tokens=w): pass],
    as the unit tests drive the limiter. *)
Fixpoint requests (ws : list Z) : M RateLimiter.t unit :=
  match ws with
  | [] => ret tt
  | w :: ws' => async_with (RateLimiter_acquire w) (ret tt) ;;; requests ws'
  end.

Definition total (ws : list Z) : Z := fold_right Z.add 0%Z ws.

End GateCaller.

(** ** Shape of the registry *)

Module RegistryShape.

(** Every registered name is bound to the address of a limiter in the
    store. *)
Definition well_formed (reg : Registry.t) : Prop :=
  forall (model : string) (address : nat),
    Registry._rate_limiters reg !! model = Some address ->
    (address < List.length (Registry.objects reg))%nat.

End RegistryShape.

(** ** More vocabulary for the pool *)

Module PoolTrace.

(** The handles on which [close] was called, in order. *)
Definition closed (tr : list (event SessionManager.t)) : list string :=
  flat_map (fun ev => match ev with
                      | Called method target =>
                          if String.eqb method "close" then [target] else []
                      | _ => []
                      end) tr.

(** The keys for which the constructor of a handle was called, in order. *)
Definition constructed (tr : list (event SessionManager.t)) : list string :=
  flat_map (fun ev => match ev with
                      | Called method target =>
                          if String.eqb method "SQLiteSession" then [target] else []
                      | _ => []
                      end) tr.

End PoolTrace.

(** ** Accounting of the pool statistics *)

Module PoolAccounting.

(** Sessions created and not yet evicted or expired, minus the sessions
    in the pool: the sessions that left the pool uncounted. *)
Definition balance (m : SessionManager.t) : Z :=
  (Stats.sessions_created (SessionManager.stats m)
   - Stats.sessions_evicted (SessionManager.stats m)
   - Stats.sessions_expired (SessionManager.stats m)
   - Z.of_nat (List.length (SessionManager._sessions m)))%Z.

Definition is_lookup (o : Pool.op) : bool :=
  match o with Pool.GetSession _ => true | _ => false end.

Definition is_removal (o : Pool.op) : bool :=
  match o with Pool.RemoveSession _ => true | _ => false end.

(** The number of [get_session] calls among the operations. *)
Definition lookups (ops : list Pool.op) : Z :=
  Z.of_nat (List.length (List.filter is_lookup ops)).

End PoolAccounting.

(** ** Life cycle and statistics of the session manager *)

Module Lifecycle.

Definition set_cleanup_task (task : option SessionManager.Task) (m : SessionManager.t)
  : SessionManager.t :=
  SessionManager.mk (SessionManager.db_path m) (SessionManager.max_sessions m)
    (SessionManager.session_ttl m) (SessionManager.cleanup_interval m)
    (SessionManager._sessions m) task (SessionManager._running m)
    (SessionManager.stats m).

(** [start].  Creating the background task is one event; the task itself
    is not run by the sequential interpreter. *)
Definition start : M SessionManager.t unit :=
  m <- get ;;
  if SessionManager._running m
  then log WARNING "Session Manager already running"
  else
    modify (SessionManager.set_running true) ;;;
    emit (Called "create_task" "_cleanup_loop") ;;;
    modify (set_cleanup_task (Some SessionManager.CleanupLoop)) ;;;
    log INFO "Session Manager started".

(** The background tasks created, in order. *)
Definition tasks_created (tr : list (event SessionManager.t)) : list string :=
  flat_map (fun ev => match ev with
                      | Called method target =>
                          if String.eqb method "create_task" then [target] else []
                      | _ => []
                      end) tr.

End Lifecycle.

Module SessionManagerStats.

(** The dict [get_stats] returns; its nine keys are fixed. *)
Record t : Type := mk {
  sessions_created : Z;
  sessions_evicted : Z;
  sessions_expired : Z;
  cache_hits : Z;
  cache_misses : Z;
  active_sessions : Z;
  max_sessions : Z;
  session_ttl : Z;
  cache_hit_rate : Q
}.

End SessionManagerStats.

(** [manager.get_stats()]: it only reads the manager. *)
Definition SessionManager_get_stats (m : SessionManager.t) : SessionManagerStats.t :=
  let st := SessionManager.stats m in
  SessionManagerStats.mk
    (Stats.sessions_created st) (Stats.sessions_evicted st) (Stats.sessions_expired st)
    (Stats.cache_hits st) (Stats.cache_misses st)
    (Z.of_nat (List.length (SessionManager._sessions m)))
    (SessionManager.max_sessions m) (SessionManager.session_ttl m)
    (if (0 <? Stats.cache_hits st + Stats.cache_misses st)%Z
     then inject_Z (Stats.cache_hits st) /
          inject_Z (Stats.cache_hits st + Stats.cache_misses st)
     else 0).

(** ** di_container.py: the limiters of the container *)

Module DIContainer.

(** The lazily created components of the container.  Each private field
    [self._x : X | None] is an entry of [_cached] under the name of the
    field, absent while the field is [None] and otherwise the address of
    the component. *)
Record t : Type := mk {
  _cached : gmap string nat;
  _initialized : bool
}.

(** The module-level dict of [rate_limiter.py] with the limiters it
    refers to, and the container. *)
Record world : Type := mkWorld {
  limiters : Registry.t;
  container : t
}.

Definition lift_event (c : t) (ev : event Registry.t) : event world :=
  match ev with
  | Logged lvl msg => Logged lvl msg
  | LockAcquired => LockAcquired
  | LockReleased => LockReleased
  | Suspended d visible => Suspended d (mkWorld visible c)
  | Called method target => Called method target
  end.

(** A call into [rate_limiter.py]: it runs on the registry and leaves the
    container alone. *)
Definition in_registry {A} (m : M Registry.t A) : M world A :=
  fun st =>
    let c := container (self st) in
    let (r, st') := m (mkState (clock st) (latency st) [] (limiters (self st))) in
    (r, mkState (clock st') (latency st')
                (trace st ++ map (lift_event c) (trace st'))
                (mkWorld (self st') c)).

Definition set_field (field : string) (value : option nat) (w : world) : world :=
  mkWorld (limiters w)
          (mk (match value with
               | Some a => <[field := a]> (_cached (container w))
               | None => delete field (_cached (container w))
               end)
              (_initialized (container w))).

(** The two properties have the same body, up to the field, the model
    name and the log message. *)
Definition limiter_property (field model message : string) : M world nat :=
  w <- get ;;
  (match _cached (container w) !! field with
   | None =>
       a <- in_registry (Registry.get_rate_limiter model) ;;
       modify (set_field field (Some a)) ;;;
       log DEBUG message
   | Some _ => ret tt
   end) ;;;
  w <- get ;;
  match _cached (container w) !! field with
  | Some a => ret a
  | None => raise (Exception "None")
  end.

Definition rate_limiter_gpt4o : M world nat :=
  limiter_property "_rate_limiter_gpt4o" "gpt-4o" "Rate limiter for gpt-4o created".

Definition rate_limiter_gpt4o_mini : M world nat :=
  limiter_property "_rate_limiter_gpt4o_mini" "gpt-4o-mini"
                   "Rate limiter for gpt-4o-mini created".

(** The setters of the two properties. *)
Definition set_rate_limiter_gpt4o (value : nat) : M world unit :=
  modify (set_field "_rate_limiter_gpt4o" (Some value)).

Definition set_rate_limiter_gpt4o_mini (value : nat) : M world unit :=
  modify (set_field "_rate_limiter_gpt4o_mini" (Some value)).

(** [reset]: every cached component is forgotten. *)
Definition reset : M world unit :=
  modify (fun w => mkWorld (limiters w) (mk ∅ false)) ;;;
  log DEBUG "DI Container reset".

End DIContainer.

(** * Properties *)

(** ** Comparisons *)

Lemma Qgeb_true (x y : Q) : Qgeb x y = true <-> y <= x.
Proof. unfold Qgeb. apply Qle_bool_iff. Qed.

Lemma Qgeb_false (x y : Q) : Qgeb x y = false <-> x < y.
Proof.
  unfold Qgeb. split; intros H.
  - apply Qnot_le_lt. intros Hle. apply Qle_bool_iff in Hle. congruence.
  - destruct (Qle_bool y x) eqn:E; [|reflexivity].
    apply Qle_bool_iff in E. exfalso. apply (Qlt_not_le _ _ H E).
Qed.

Lemma Qgtb_true (x y : Q) : Qgtb x y = true <-> y < x.
Proof.
  unfold Qgtb. rewrite negb_true_iff. apply (Qgeb_false y x).
Qed.

Lemma Qgtb_false (x y : Q) : Qgtb x y = false <-> x <= y.
Proof.
  unfold Qgtb. rewrite negb_false_iff. apply (Qgeb_true y x).
Qed.

Lemma Qmin_le_l (x y : Q) : Qmin x y <= x.
Proof. apply Q.le_min_l. Qed.

Lemma Qmin_lower (x y z : Q) : z <= x -> z <= y -> z <= Qmin x y.
Proof. intros. apply Q.min_glb; assumption. Qed.

(** ** TokenBucket *)

Lemma refill_tokens_le_capacity (now : Q) (b : TokenBucket.t) :
  TokenBucket.tokens (TokenBucket._refill now b) <= TokenBucket.capacity b.
Proof. simpl. apply Qmin_le_l. Qed.

Lemma refill_tokens_nonneg (now : Q) (b : TokenBucket.t) :
  0 <= TokenBucket.capacity b ->
  0 <= TokenBucket.refill_rate b ->
  0 <= TokenBucket.tokens b ->
  TokenBucket.last_refill_time b <= now ->
  0 <= TokenBucket.tokens (TokenBucket._refill now b).
Proof.
  intros HC HR HT Hnow. simpl. apply Qmin_lower; [assumption|].
  assert (0 <= (now - TokenBucket.last_refill_time b) * TokenBucket.refill_rate b).
  { apply Qmult_le_0_compat; [lra | assumption]. }
  lra.
Qed.

Lemma consume_enough (now n : Q) (b : TokenBucket.t) :
  let r := TokenBucket._refill now b in
  n <= TokenBucket.tokens r ->
  TokenBucket.consume now n b =
    (true, TokenBucket.mk (TokenBucket.capacity r) (TokenBucket.refill_rate r)
                          (TokenBucket.tokens r - n)
                          (TokenBucket.last_refill_time r)).
Proof.
  intros r H. unfold TokenBucket.consume. fold r.
  rewrite (proj2 (Qgeb_true _ _) H). reflexivity.
Qed.

Lemma consume_short (now n : Q) (b : TokenBucket.t) :
  let r := TokenBucket._refill now b in
  TokenBucket.tokens r < n ->
  TokenBucket.consume now n b = (false, r).
Proof.
  intros r H. unfold TokenBucket.consume. fold r.
  rewrite (proj2 (Qgeb_false _ _) H). reflexivity.
Qed.

(** C6 (TokenBucket tryConsume).  [consume] first refills; then either the
    refilled level covers the request, exactly [n] tokens are subtracted
    and the answer is [True], or the level is below the request, the answer
    is [False] and the bucket is exactly the refilled one. *)
Theorem consume_subtracts_or_leaves (now n : Q) (b : TokenBucket.t) :
  let r := TokenBucket._refill now b in
  (n <= TokenBucket.tokens r /\
   TokenBucket.consume now n b =
     (true, TokenBucket.mk (TokenBucket.capacity r) (TokenBucket.refill_rate r)
                           (TokenBucket.tokens r - n)
                           (TokenBucket.last_refill_time r)))
  \/
  (TokenBucket.tokens r < n /\ TokenBucket.consume now n b = (false, r)).
Proof.
  intros r. unfold TokenBucket.consume. fold r.
  destruct (Qgeb (TokenBucket.tokens r) n) eqn:E.
  - left. split; [apply Qgeb_true; exact E | reflexivity].
  - right. split; [apply Qgeb_false; exact E | reflexivity].
Qed.

Lemma step_fields (now : Q) (o : BucketHistory.op) (b : TokenBucket.t) :
  TokenBucket.capacity (BucketHistory.step now o b) = TokenBucket.capacity b /\
  TokenBucket.refill_rate (BucketHistory.step now o b) = TokenBucket.refill_rate b /\
  TokenBucket.last_refill_time (BucketHistory.step now o b) = now.
Proof.
  destruct o as [n|n|]; simpl.
  - unfold TokenBucket.consume.
    destruct (Qgeb _ n); simpl; auto.
  - unfold TokenBucket.get_wait_time.
    destruct (Qgeb _ n); simpl; auto.
    destruct (Qeq_bool _ 0); simpl; auto.
  - auto.
Qed.

Lemma step_tokens (now : Q) (o : BucketHistory.op) (b : TokenBucket.t) :
  let r := TokenBucket._refill now b in
  (exists n, o = BucketHistory.Consume n /\ n <= TokenBucket.tokens r /\
             TokenBucket.tokens (BucketHistory.step now o b) = TokenBucket.tokens r - n)
  \/ TokenBucket.tokens (BucketHistory.step now o b) = TokenBucket.tokens r.
Proof.
  intros r. destruct o as [n|n|]; simpl.
  - destruct (Qlt_le_dec (TokenBucket.tokens r) n) as [Hlt|Hle].
    + right. rewrite (consume_short now b Hlt). reflexivity.
    + left. exists n. rewrite (consume_enough now b Hle). auto.
  - right. unfold TokenBucket.get_wait_time.
    destruct (Qgeb _ n); [reflexivity|].
    destruct (Qeq_bool _ 0); reflexivity.
  - right. reflexivity.
Qed.

Lemma step_observation_ok (C R now : Q) (o : BucketHistory.op) (b : TokenBucket.t) :
  0 <= C -> 0 < R -> bucket_ok C R now b ->
  let r := TokenBucket._refill now b in
  let b' := BucketHistory.step now o b in
  observation_ok C
    (BucketHistory.mkObservation now o (TokenBucket.tokens r)
       (TokenBucket.tokens b') (TokenBucket.last_refill_time b'))
  /\ forall t', now <= t' -> bucket_ok C R t' b'.
Proof.
  intros HC HR (Hc & Hr & Ht & Hl). cbv zeta.
  assert (Hseen0 : 0 <= TokenBucket.tokens (TokenBucket._refill now b)).
  { apply refill_tokens_nonneg; rewrite ?Hc, ?Hr; try assumption; lra. }
  assert (HseenC : TokenBucket.tokens (TokenBucket._refill now b) <= C).
  { rewrite <- Hc. apply refill_tokens_le_capacity. }
  destruct (step_fields now o b) as (Fc & Fr & Fl).
  pose proof (step_tokens now o b) as Hst. cbv zeta in Hst.
  rewrite Fl.
  remember (TokenBucket.tokens (TokenBucket._refill now b)) as level eqn:Elevel.
  remember (TokenBucket.tokens (BucketHistory.step now o b)) as rest eqn:Erest.
  split.
  - unfold observation_ok; simpl. repeat split; try assumption.
    + destruct Hst as [(n & _ & Hn & E)|E]; rewrite E; lra.
    + intros Hamount.
      destruct Hst as [(n & -> & Hn & E)|E]; rewrite E; simpl in Hamount; lra.
  - intros t' Ht'. unfold bucket_ok. rewrite Fc, Fr, Fl, <- Erest.
    repeat split; auto.
    destruct Hst as [(n & _ & Hn & E)|E]; rewrite E; lra.
Qed.

Lemma observations_ok (C R : Q) (l : list (Q * BucketHistory.op)) :
  0 <= C -> 0 < R ->
  forall t b,
    bucket_ok C R t b -> BucketHistory.chronological t l ->
    Forall (observation_ok C) (BucketHistory.observations l b).
Proof.
  intros HC HR. induction l as [|[now o] l IH]; intros t b Hb Hchr; simpl.
  - constructor.
  - destruct Hchr as [Hle Hchr].
    assert (Hb' : bucket_ok C R now b).
    { destruct Hb as (? & ? & ? & ?). unfold bucket_ok. repeat split; auto. lra. }
    destruct (step_observation_ok o HC HR Hb') as [Hobs Hnext].
    constructor; [exact Hobs|].
    apply (IH now); [apply Hnext; lra | exact Hchr].
Qed.

(** C3 (TokenBucket invariant).  A bucket is created at time [t0] with
    capacity [C >= 0] and refill rate [R > 0] and then accessed by any
    sequence of consume / get_wait_time / get_available_tokens calls at
    non-decreasing times.  At every access the level the operation reads
    lies in [0, C]; the level it leaves is never negative and stays within
    [C] unless a negative amount was consumed (the next access clamps it
    again); and the refill stamp is the time of the access.  Refill happens
    only inside these accesses and computes
    [min(capacity, tokens + elapsed * refill_rate)]. *)
Theorem token_bucket_invariant (C R t0 : Q) (l : list (Q * BucketHistory.op)) :
  0 <= C -> 0 < R -> BucketHistory.chronological t0 l ->
  Forall (observation_ok C)
         (BucketHistory.observations l (TokenBucket.__post_init__ C R t0))
  /\ forall now b,
       TokenBucket._refill now b =
       TokenBucket.mk (TokenBucket.capacity b) (TokenBucket.refill_rate b)
         (Qmin (TokenBucket.capacity b)
               (TokenBucket.tokens b +
                (now - TokenBucket.last_refill_time b) * TokenBucket.refill_rate b))
         now.
Proof.
  intros HC HR Hchr. split; [|reflexivity].
  apply (@observations_ok C R l HC HR t0); [|exact Hchr].
  unfold bucket_ok; simpl. repeat split; auto; lra.
Qed.

Lemma token_bucket_invariant_witness :
  Forall (observation_ok 10)
    (BucketHistory.observations
       [(1, BucketHistory.Consume 4); (2, BucketHistory.GetWaitTime 20);
        (2, BucketHistory.GetAvailableTokens); (5, BucketHistory.Consume 11)]
       (TokenBucket.__post_init__ 10 (1 # 2) 0)).
Proof.
  refine (proj1 (@token_bucket_invariant 10 (1 # 2) 0 _ _ _ _)).
  - vm_compute. discriminate.
  - vm_compute. reflexivity.
  - simpl. repeat split; vm_compute; discriminate.
Defined.

(** ** RateLimiter *)

Lemma Qeq_bool_pos (r : Q) : 0 < r -> Qeq_bool r 0 = false.
Proof.
  intros H. destruct (Qeq_bool r 0) eqn:E; [|reflexivity].
  apply Qeq_bool_iff in E. lra.
Qed.

Lemma get_wait_time_run (now n : Q) (b : TokenBucket.t) :
  0 < TokenBucket.refill_rate b ->
  TokenBucket.get_wait_time now n b =
  (Ok (Gate.wait_for n (TokenBucket._refill now b)), TokenBucket._refill now b).
Proof.
  intros H. unfold TokenBucket.get_wait_time, Gate.wait_for.
  destruct (Qgeb _ n); [reflexivity|].
  simpl TokenBucket.refill_rate. rewrite (@Qeq_bool_pos _ H). reflexivity.
Qed.

(** *** Running the primitives *)

Lemma bind_ok {Obj A B} (m : M Obj A) (k : A -> M Obj B) (s s' : state Obj) (a : A) :
  m s = (Ok a, s') -> bind m k s = k a s'.
Proof. intros H. unfold bind. rewrite H. reflexivity. Qed.

Lemma with_lock_run {Obj A} (body : M Obj A) (s s' : state Obj) (a : A) :
  body (mkState (clock s) (latency s) (trace s ++ [LockAcquired]) (self s)) = (Ok a, s') ->
  with_lock body s =
    (Ok a, mkState (clock s') (latency s') (trace s' ++ [LockReleased]) (self s')).
Proof.
  intros H. unfold with_lock, emit. cbv beta iota. rewrite H. reflexivity.
Qed.

Lemma run_emit (ev : event RateLimiter.t) (s : Gate.st) :
  emit ev s = (Ok tt, Gate.add_event ev s).
Proof. reflexivity. Qed.

Lemma run_modify (f : RateLimiter.t -> RateLimiter.t) (s : Gate.st) :
  modify f s = (Ok tt, Gate.map_self f s).
Proof. reflexivity. Qed.

Lemma run_sleep (d : Q) (s : Gate.st) :
  asyncio_sleep d s = (Ok tt, Gate.sleep d s).
Proof. reflexivity. Qed.

Lemma run_on_rpm_bucket {A} (method : Q -> TokenBucket.t -> A * TokenBucket.t)
  (s : Gate.st) :
  RateLimiter.on_rpm_bucket method s =
  (Ok (fst (method (clock s + hd 0 (latency s)) (RateLimiter.rpm_bucket (self s)))),
   Gate.access_rpm (fun now b => snd (method now b)) s).
Proof.
  unfold RateLimiter.on_rpm_bucket, Gate.access_rpm, Gate.tick, Gate.map_self,
    bind, time_time, get, modify, ret.
  cbn [clock latency trace self].
  destruct (method _ _) as [a b]. reflexivity.
Qed.

Lemma run_on_tpm_bucket {A} (method : Q -> TokenBucket.t -> A * TokenBucket.t)
  (s : Gate.st) :
  RateLimiter.on_tpm_bucket method s =
  (Ok (fst (method (clock s + hd 0 (latency s)) (RateLimiter.tpm_bucket (self s)))),
   Gate.access_tpm (fun now b => snd (method now b)) s).
Proof.
  unfold RateLimiter.on_tpm_bucket, Gate.access_tpm, Gate.tick, Gate.map_self,
    bind, time_time, get, modify, ret.
  cbn [clock latency trace self].
  destruct (method _ _) as [a b]. reflexivity.
Qed.

Lemma run_rpm_get_wait_time (n : Q) (s : Gate.st) :
  0 < TokenBucket.refill_rate (RateLimiter.rpm_bucket (self s)) ->
  RateLimiter.lift_result
    (RateLimiter.on_rpm_bucket (fun now => TokenBucket.get_wait_time now n)) s =
  (Ok (Gate.wait_for n (RateLimiter.rpm_bucket (self (Gate.access_rpm TokenBucket._refill s)))),
   Gate.access_rpm TokenBucket._refill s).
Proof.
  intros H.
  unfold RateLimiter.lift_result, RateLimiter.on_rpm_bucket, Gate.access_rpm,
    Gate.tick, Gate.map_self, bind, time_time, get, modify, ret.
  cbn [clock latency trace self].
  rewrite (@get_wait_time_run _ _ _ H). reflexivity.
Qed.

Lemma run_tpm_get_wait_time (n : Q) (s : Gate.st) :
  0 < TokenBucket.refill_rate (RateLimiter.tpm_bucket (self s)) ->
  RateLimiter.lift_result
    (RateLimiter.on_tpm_bucket (fun now => TokenBucket.get_wait_time now n)) s =
  (Ok (Gate.wait_for n (RateLimiter.tpm_bucket (self (Gate.access_tpm TokenBucket._refill s)))),
   Gate.access_tpm TokenBucket._refill s).
Proof.
  intros H.
  unfold RateLimiter.lift_result, RateLimiter.on_tpm_bucket, Gate.access_tpm,
    Gate.tick, Gate.map_self, bind, time_time, get, modify, ret.
  cbn [clock latency trace self].
  rewrite (@get_wait_time_run _ _ _ H). reflexivity.
Qed.

Lemma with_lock_ok {A} (body : M RateLimiter.t A) (s s' : Gate.st) (a : A) :
  body (Gate.add_event LockAcquired s) = (Ok a, s') ->
  with_lock body s = (Ok a, Gate.add_event LockReleased s').
Proof.
  intros H. unfold with_lock.
  change (emit LockAcquired s) with (@Ok unit tt, Gate.add_event LockAcquired s).
  cbv iota. rewrite H. reflexivity.
Qed.

(** The [if wait_time > 0] statement, run after the two checks. *)
Lemma run_throttle (w : Z) (s : Gate.st) :
  (if Qgtb (Gate.wait_time w s) 0
   then
     modify (fun r => RateLimiter.set_requests_throttled
                        (RateLimiter.requests_throttled r + 1)%Z r) ;;;
     modify (fun r => RateLimiter.set_total_wait_time
                        (RateLimiter.total_wait_time r + Gate.wait_time w s) r) ;;;
     rpm_available <- RateLimiter.on_rpm_bucket TokenBucket.get_available_tokens ;;
     tpm_available <- RateLimiter.on_tpm_bucket TokenBucket.get_available_tokens ;;
     log WARNING "Rate limit reached, waiting" ;;;
     asyncio_sleep (Gate.wait_time w s)
   else ret tt) (Gate.checked s)
  = (Ok tt, Gate.waited w s).
Proof.
  unfold Gate.waited. destruct (Qgtb (Gate.wait_time w s) 0); [|reflexivity].
  unfold Gate.throttled, log.
  erewrite bind_ok by apply run_modify.
  erewrite bind_ok by apply run_modify.
  erewrite bind_ok by apply run_on_rpm_bucket.
  erewrite bind_ok by apply run_on_tpm_bucket.
  erewrite bind_ok by apply run_emit.
  apply run_sleep.
Qed.

(** Under positive refill rates the gate step returns normally, in the
    state described by [Gate.admitted]. *)
Lemma wait_for_capacity_run (w : Z) (s : Gate.st) :
  0 < TokenBucket.refill_rate (RateLimiter.rpm_bucket (self s)) ->
  0 < TokenBucket.refill_rate (RateLimiter.tpm_bucket (self s)) ->
  RateLimiter._wait_for_capacity w s = (Ok tt, Gate.admitted w s).
Proof.
  intros Hr Ht.
  unfold RateLimiter._wait_for_capacity, Gate.admitted.
  apply with_lock_ok.
  erewrite bind_ok by (apply run_rpm_get_wait_time; exact Hr).
  erewrite bind_ok by (apply run_tpm_get_wait_time; exact Ht).
  change (Qmax _ _) with (Gate.wait_time w s).
  change (Gate.access_tpm TokenBucket._refill _) with (Gate.checked s) at 1.
  erewrite bind_ok by apply run_throttle.
  unfold Gate.consumed, log.
  erewrite bind_ok by apply run_on_rpm_bucket.
  erewrite bind_ok by apply run_on_tpm_bucket.
  erewrite bind_ok by apply run_modify.
  erewrite bind_ok by apply run_modify.
  erewrite bind_ok by apply run_on_rpm_bucket.
  erewrite bind_ok by apply run_on_tpm_bucket.
  apply run_emit.
Qed.

(** Whether it raises or not, [get_wait_time] refills; it returns unless
    the level is short and the rate is zero. *)
Lemma get_wait_time_answers (now n : Q) (b : TokenBucket.t) :
  TokenBucket.get_wait_time now n b =
  (if Gate.answers n (TokenBucket._refill now b)
   then Ok (Gate.wait_for n (TokenBucket._refill now b))
   else Raise ZeroDivisionError,
   TokenBucket._refill now b).
Proof.
  unfold TokenBucket.get_wait_time, Gate.answers, Gate.wait_for.
  destruct (Qgeb _ n); [reflexivity|].
  destruct (Qeq_bool _ 0); reflexivity.
Qed.

Lemma bind_raise {Obj A B} (m : M Obj A) (k : A -> M Obj B) (s s' : state Obj) (e : exn) :
  m s = (Raise e, s') -> bind m k s = (Raise e, s').
Proof. intros H. unfold bind. rewrite H. reflexivity. Qed.

Lemma with_lock_raise {A} (body : M RateLimiter.t A) (s s' : Gate.st) (e : exn) :
  body (Gate.add_event LockAcquired s) = (Raise e, s') ->
  with_lock body s = (Raise e, Gate.add_event LockReleased s').
Proof.
  intros H. unfold with_lock.
  change (emit LockAcquired s) with (@Ok unit tt, Gate.add_event LockAcquired s).
  cbv iota. rewrite H. reflexivity.
Qed.

Lemma run_rpm_get_wait_time_any (n : Q) (s : Gate.st) :
  RateLimiter.lift_result
    (RateLimiter.on_rpm_bucket (fun now => TokenBucket.get_wait_time now n)) s =
  (if Gate.answers n (RateLimiter.rpm_bucket (self (Gate.access_rpm TokenBucket._refill s)))
   then Ok (Gate.wait_for n
              (RateLimiter.rpm_bucket (self (Gate.access_rpm TokenBucket._refill s))))
   else Raise ZeroDivisionError,
   Gate.access_rpm TokenBucket._refill s).
Proof.
  unfold RateLimiter.lift_result, RateLimiter.on_rpm_bucket, Gate.access_rpm,
    Gate.tick, Gate.map_self, bind, time_time, get, modify, ret.
  cbn [clock latency trace self].
  rewrite get_wait_time_answers.
  cbn [RateLimiter.rpm_bucket RateLimiter.set_rpm_bucket].
  destruct (Gate.answers n _); reflexivity.
Qed.

Lemma run_tpm_get_wait_time_any (n : Q) (s : Gate.st) :
  RateLimiter.lift_result
    (RateLimiter.on_tpm_bucket (fun now => TokenBucket.get_wait_time now n)) s =
  (if Gate.answers n (RateLimiter.tpm_bucket (self (Gate.access_tpm TokenBucket._refill s)))
   then Ok (Gate.wait_for n
              (RateLimiter.tpm_bucket (self (Gate.access_tpm TokenBucket._refill s))))
   else Raise ZeroDivisionError,
   Gate.access_tpm TokenBucket._refill s).
Proof.
  unfold RateLimiter.lift_result, RateLimiter.on_tpm_bucket, Gate.access_tpm,
    Gate.tick, Gate.map_self, bind, time_time, get, modify, ret.
  cbn [clock latency trace self].
  rewrite get_wait_time_answers.
  cbn [RateLimiter.tpm_bucket RateLimiter.set_tpm_bucket].
  destruct (Gate.answers n _); reflexivity.
Qed.

(** The gate step in full: it raises [ZeroDivisionError] when one of the
    two [get_wait_time] calls does, the rate bucket being asked first, and
    otherwise returns in the state described by [Gate.admitted]. *)
Lemma wait_for_capacity_cases (w : Z) (s : Gate.st) :
  RateLimiter._wait_for_capacity w s =
  if Gate.answers 1
       (RateLimiter.rpm_bucket
          (self (Gate.access_rpm TokenBucket._refill (Gate.add_event LockAcquired s))))
  then
    if Gate.answers (inject_Z w) (RateLimiter.tpm_bucket (self (Gate.checked s)))
    then (Ok tt, Gate.admitted w s)
    else (Raise ZeroDivisionError, Gate.add_event LockReleased (Gate.checked s))
  else
    (Raise ZeroDivisionError,
     Gate.add_event LockReleased
       (Gate.access_rpm TokenBucket._refill (Gate.add_event LockAcquired s))).
Proof.
  unfold RateLimiter._wait_for_capacity.
  destruct (Gate.answers 1 _) eqn:Er.
  - destruct (Gate.answers (inject_Z w) _) eqn:Et.
    + unfold Gate.admitted. apply with_lock_ok.
      erewrite bind_ok by (rewrite run_rpm_get_wait_time_any, Er; reflexivity).
      erewrite bind_ok by
        (rewrite run_tpm_get_wait_time_any;
         change (Gate.access_tpm TokenBucket._refill _) with (Gate.checked s);
         rewrite Et; reflexivity).
      change (Qmax _ _) with (Gate.wait_time w s).
      erewrite bind_ok by apply run_throttle.
      unfold Gate.consumed, log.
      erewrite bind_ok by apply run_on_rpm_bucket.
      erewrite bind_ok by apply run_on_tpm_bucket.
      erewrite bind_ok by apply run_modify.
      erewrite bind_ok by apply run_modify.
      erewrite bind_ok by apply run_on_rpm_bucket.
      erewrite bind_ok by apply run_on_tpm_bucket.
      apply run_emit.
    + apply with_lock_raise.
      erewrite bind_ok by (rewrite run_rpm_get_wait_time_any, Er; reflexivity).
      apply bind_raise.
      rewrite run_tpm_get_wait_time_any.
      change (Gate.access_tpm TokenBucket._refill _) with (Gate.checked s).
      rewrite Et. reflexivity.
  - apply with_lock_raise. apply bind_raise.
    rewrite run_rpm_get_wait_time_any, Er. reflexivity.
Qed.

(** When the gate step returns, it returns in [Gate.admitted]. *)
Lemma wait_for_capacity_returned (w : Z) (s s' : Gate.st) :
  RateLimiter._wait_for_capacity w s = (Ok tt, s') -> s' = Gate.admitted w s.
Proof.
  rewrite wait_for_capacity_cases.
  destruct (Gate.answers 1 _); [|discriminate].
  destruct (Gate.answers (inject_Z w) _); [|discriminate].
  intros H. injection H as H. symmetry. exact H.
Qed.

(** *** What each step leaves of the state *)

Lemma latency_hd_nonneg (l : list Q) :
  Forall (fun d => 0 <= d) l -> 0 <= hd 0 l /\ Forall (fun d => 0 <= d) (tl l).
Proof.
  intros H. destruct H; simpl; [split; [lra|constructor] | split; assumption].
Qed.

Lemma consume_oversized (now n : Q) (b : TokenBucket.t) :
  TokenBucket.capacity b < n ->
  TokenBucket.consume now n b = (false, TokenBucket._refill now b).
Proof.
  intros H. apply consume_short.
  pose proof (refill_tokens_le_capacity now b). lra.
Qed.

Section GateFrames.
Variables (X : Type) (F : RateLimiter.t -> X).

Lemma self_add_event (ev : event RateLimiter.t) (s : Gate.st) :
  self (Gate.add_event ev s) = self s.
Proof. reflexivity. Qed.

Lemma self_sleep (d : Q) (s : Gate.st) : self (Gate.sleep d s) = self s.
Proof. reflexivity. Qed.

Lemma self_map_self (f : RateLimiter.t -> RateLimiter.t) (s : Gate.st) :
  self (Gate.map_self f s) = f (self s).
Proof. reflexivity. Qed.

(** A field after an update of the object, read off the update alone. *)
Lemma field_map_self (G : RateLimiter.t -> X) (f : RateLimiter.t -> RateLimiter.t)
  (s : Gate.st) :
  (forall r, F (f r) = G r) -> F (self (Gate.map_self f s)) = G (self s).
Proof. intros H. rewrite self_map_self. apply H. Qed.

(** An access to the rate bucket changes no other field. *)
Lemma frame_access_rpm (f : Q -> TokenBucket.t -> TokenBucket.t) (s : Gate.st) :
  (forall b r, F (RateLimiter.set_rpm_bucket b r) = F r) ->
  F (self (Gate.access_rpm f s)) = F (self s).
Proof. intros H. unfold Gate.access_rpm, Gate.map_self. cbn [self]. apply H. Qed.

(** An access to the weight bucket changes no other field. *)
Lemma frame_access_tpm (f : Q -> TokenBucket.t -> TokenBucket.t) (s : Gate.st) :
  (forall b r, F (RateLimiter.set_tpm_bucket b r) = F r) ->
  F (self (Gate.access_tpm f s)) = F (self s).
Proof. intros H. unfold Gate.access_tpm, Gate.map_self. cbn [self]. apply H. Qed.

End GateFrames.

Lemma trace_add_event (ev : event RateLimiter.t) (s : Gate.st) :
  trace (Gate.add_event ev s) = trace s ++ [ev].
Proof. reflexivity. Qed.

Lemma trace_sleep (d : Q) (s : Gate.st) :
  trace (Gate.sleep d s) = trace s ++ [Suspended d (self s)].
Proof. reflexivity. Qed.

Lemma trace_map_self (f : RateLimiter.t -> RateLimiter.t) (s : Gate.st) :
  trace (Gate.map_self f s) = trace s.
Proof. reflexivity. Qed.

Lemma trace_access_rpm (f : Q -> TokenBucket.t -> TokenBucket.t) (s : Gate.st) :
  trace (Gate.access_rpm f s) = trace s.
Proof. reflexivity. Qed.

Lemma trace_access_tpm (f : Q -> TokenBucket.t -> TokenBucket.t) (s : Gate.st) :
  trace (Gate.access_tpm f s) = trace s.
Proof. reflexivity. Qed.

(** *** Waits and slots *)

Lemma clock_access_rpm (f : Q -> TokenBucket.t -> TokenBucket.t) (s : Gate.st) :
  clock (Gate.access_rpm f s) = clock s + hd 0 (latency s) /\
  latency (Gate.access_rpm f s) = tl (latency s).
Proof. split; reflexivity. Qed.

Lemma clock_add_event (ev : event RateLimiter.t) (s : Gate.st) :
  clock (Gate.add_event ev s) = clock s.
Proof. reflexivity. Qed.

Lemma wait_for_positive (n : Q) (b : TokenBucket.t) :
  0 < TokenBucket.refill_rate b -> TokenBucket.tokens b < n ->
  0 < Gate.wait_for n b.
Proof.
  intros HR Hn. unfold Gate.wait_for.
  destruct (Qgeb _ n) eqn:E.
  - apply Qgeb_true in E. lra.
  - apply Qlt_shift_div_l; [assumption|]. lra.
Qed.

(** Taking a concurrency slot when one is free. *)
Lemma run_acquire (s : Gate.st) :
  (0 < Semaphore._value (RateLimiter.semaphore (self s)))%Z ->
  RateLimiter.lift_result (fun st : Gate.st =>
     let (r, sem) := Semaphore.acquire (RateLimiter.semaphore (self st)) in
     (Ok r, mkState (clock st) (latency st) (trace st)
                    (RateLimiter.set_semaphore sem (self st)))) s =
  (Ok true,
   Gate.map_self
     (fun r => RateLimiter.set_semaphore
                 (Semaphore.mk (Semaphore._value (RateLimiter.semaphore r) - 1)) r) s).
Proof.
  intros Hfree.
  unfold RateLimiter.lift_result, Semaphore.acquire, bind, Gate.map_self.
  rewrite (proj2 (Z.ltb_lt _ _) Hfree). reflexivity.
Qed.

(** *** Unfolding equations of the composite steps *)

Lemma checked_eq (s : Gate.st) :
  Gate.checked s =
  Gate.access_tpm TokenBucket._refill
    (Gate.access_rpm TokenBucket._refill (Gate.add_event LockAcquired s)).
Proof. reflexivity. Qed.

Lemma throttled_eq (w : Z) (s : Gate.st) :
  Gate.throttled w s =
  Gate.add_event (Logged WARNING "Rate limit reached, waiting")
    (Gate.access_tpm TokenBucket._refill
      (Gate.access_rpm TokenBucket._refill
        (Gate.map_self (fun r => RateLimiter.set_total_wait_time
                                   (RateLimiter.total_wait_time r + Gate.wait_time w s) r)
          (Gate.map_self (fun r => RateLimiter.set_requests_throttled
                                     (RateLimiter.requests_throttled r + 1)%Z r)
             (Gate.checked s))))).
Proof. reflexivity. Qed.

Lemma consumed_eq (w : Z) (s : Gate.st) :
  Gate.consumed w s =
  Gate.access_tpm (fun now b => snd (TokenBucket.consume now (inject_Z w) b))
    (Gate.access_rpm (fun now b => snd (TokenBucket.consume now 1 b)) (Gate.waited w s)).
Proof. reflexivity. Qed.

Lemma admitted_eq (w : Z) (s : Gate.st) :
  Gate.admitted w s =
  Gate.add_event LockReleased
    (Gate.add_event (Logged DEBUG "Rate limit acquired")
      (Gate.access_tpm TokenBucket._refill
        (Gate.access_rpm TokenBucket._refill
          (Gate.map_self (fun r => RateLimiter.set_total_tokens_consumed
                                     (RateLimiter.total_tokens_consumed r + w)%Z r)
            (Gate.map_self (fun r => RateLimiter.set_total_requests
                                       (RateLimiter.total_requests r + 1)%Z r)
               (Gate.consumed w s)))))).
Proof. reflexivity. Qed.

Lemma wait_time_eq (w : Z) (s : Gate.st) :
  Gate.wait_time w s =
  Qmax (Gate.wait_for 1 (RateLimiter.rpm_bucket (self (Gate.checked s))))
       (Gate.wait_for (inject_Z w) (RateLimiter.tpm_bucket (self (Gate.checked s)))).
Proof. reflexivity. Qed.

Lemma waited_throttled (w : Z) (s : Gate.st) :
  0 < Gate.wait_time w s ->
  Gate.waited w s = Gate.sleep (Gate.wait_time w s) (Gate.throttled w s).
Proof.
  intros H. unfold Gate.waited. rewrite (proj2 (Qgtb_true _ _) H). reflexivity.
Qed.

Lemma waited_unthrottled (w : Z) (s : Gate.st) :
  Gate.wait_time w s <= 0 -> Gate.waited w s = Gate.checked s.
Proof.
  intros H. unfold Gate.waited. rewrite (proj2 (Qgtb_false _ _) H). reflexivity.
Qed.

(** What an access shows of the bucket and of the clock. *)
Lemma rpm_access_rpm (f : Q -> TokenBucket.t -> TokenBucket.t) (s : Gate.st) :
  RateLimiter.rpm_bucket (self (Gate.access_rpm f s)) =
  f (clock s + hd 0 (latency s)) (RateLimiter.rpm_bucket (self s)).
Proof. reflexivity. Qed.

Lemma tpm_access_tpm (f : Q -> TokenBucket.t -> TokenBucket.t) (s : Gate.st) :
  RateLimiter.tpm_bucket (self (Gate.access_tpm f s)) =
  f (clock s + hd 0 (latency s)) (RateLimiter.tpm_bucket (self s)).
Proof. reflexivity. Qed.

Lemma clock_access_tpm (f : Q -> TokenBucket.t -> TokenBucket.t) (s : Gate.st) :
  clock (Gate.access_tpm f s) = clock s + hd 0 (latency s) /\
  latency (Gate.access_tpm f s) = tl (latency s).
Proof. split; reflexivity. Qed.

Lemma clock_map_self (f : RateLimiter.t -> RateLimiter.t) (s : Gate.st) :
  clock (Gate.map_self f s) = clock s /\ latency (Gate.map_self f s) = latency s.
Proof. split; reflexivity. Qed.

Lemma clock_sleep (d : Q) (s : Gate.st) :
  clock (Gate.sleep d s) = clock s + d /\ latency (Gate.sleep d s) = latency s.
Proof. split; reflexivity. Qed.

Lemma latency_add_event (ev : event RateLimiter.t) (s : Gate.st) :
  latency (Gate.add_event ev s) = latency s.
Proof. reflexivity. Qed.

(** From here on the steps of the gate are used through the lemmas above. *)
Opaque Gate.access_rpm Gate.access_tpm Gate.map_self Gate.add_event Gate.sleep
       Gate.tick Gate.checked Gate.wait_time Gate.throttled Gate.waited
       Gate.consumed Gate.admitted.

(** Projects a field of the limiter through the steps that leave it alone. *)
Ltac gate_frame F :=
  repeat first
    [ rewrite self_add_event
    | rewrite self_sleep
    | rewrite (frame_access_rpm F) by (intros; reflexivity)
    | rewrite (frame_access_tpm F) by (intros; reflexivity)
    | erewrite (field_map_self F) by
        (intros;
         cbn [RateLimiter.set_requests_throttled RateLimiter.set_total_wait_time
              RateLimiter.set_total_requests RateLimiter.set_total_tokens_consumed
              RateLimiter.name RateLimiter.config RateLimiter.rpm_bucket
              RateLimiter.tpm_bucket RateLimiter.semaphore
              RateLimiter.total_requests RateLimiter.total_tokens_consumed
              RateLimiter.total_wait_time RateLimiter.requests_throttled];
         reflexivity);
      cbv beta ].

Ltac gate_trace :=
  repeat first
    [ rewrite trace_add_event | rewrite trace_sleep | rewrite trace_map_self
    | rewrite trace_access_rpm | rewrite trace_access_tpm ].

Lemma waited_counters (w : Z) (s : Gate.st) :
  RateLimiter.total_requests (self (Gate.waited w s)) =
    RateLimiter.total_requests (self s) /\
  RateLimiter.total_tokens_consumed (self (Gate.waited w s)) =
    RateLimiter.total_tokens_consumed (self s) /\
  RateLimiter.semaphore (self (Gate.waited w s)) = RateLimiter.semaphore (self s).
Proof.
  destruct (Qlt_le_dec 0 (Gate.wait_time w s)) as [Hpos|Hnon].
  - rewrite (@waited_throttled _ _ Hpos), throttled_eq, checked_eq.
    split; [|split].
    + gate_frame RateLimiter.total_requests. reflexivity.
    + gate_frame RateLimiter.total_tokens_consumed. reflexivity.
    + gate_frame RateLimiter.semaphore. reflexivity.
  - rewrite (@waited_unthrottled _ _ Hnon), checked_eq.
    split; [|split].
    + gate_frame RateLimiter.total_requests. reflexivity.
    + gate_frame RateLimiter.total_tokens_consumed. reflexivity.
    + gate_frame RateLimiter.semaphore. reflexivity.
Qed.

(** The request counters after the gate step, throttled or not; the
    semaphore is not touched. *)
Lemma admitted_counters (w : Z) (s : Gate.st) :
  RateLimiter.total_requests (self (Gate.admitted w s)) =
    (RateLimiter.total_requests (self s) + 1)%Z /\
  RateLimiter.total_tokens_consumed (self (Gate.admitted w s)) =
    (RateLimiter.total_tokens_consumed (self s) + w)%Z /\
  RateLimiter.semaphore (self (Gate.admitted w s)) = RateLimiter.semaphore (self s).
Proof.
  destruct (waited_counters w s) as (W1 & W2 & W3).
  rewrite admitted_eq, consumed_eq.
  split; [|split].
  - gate_frame RateLimiter.total_requests. rewrite W1. reflexivity.
  - gate_frame RateLimiter.total_tokens_consumed. rewrite W2. reflexivity.
  - gate_frame RateLimiter.semaphore. exact W3.
Qed.

Lemma throttled_statistics (w : Z) (s : Gate.st) :
  RateLimiter.requests_throttled (self (Gate.throttled w s)) =
    (RateLimiter.requests_throttled (self s) + 1)%Z /\
  RateLimiter.total_wait_time (self (Gate.throttled w s)) =
    RateLimiter.total_wait_time (self s) + Gate.wait_time w s /\
  trace (Gate.throttled w s) =
    trace s ++ [LockAcquired; Logged WARNING "Rate limit reached, waiting"].
Proof.
  rewrite throttled_eq, checked_eq. split; [|split].
  - gate_frame RateLimiter.requests_throttled. reflexivity.
  - gate_frame RateLimiter.total_wait_time. reflexivity.
  - gate_trace. rewrite <- app_assoc. reflexivity.
Qed.

(** The throttling statistics and the trace after the gate step: either
    the computed wait is positive, the request is counted as throttled,
    the wait is added to the total and the task is suspended once, for
    exactly that long, with both statistics already updated; or the wait
    is not positive and none of this happens. *)
Lemma admitted_throttling (w : Z) (s : Gate.st) :
  (0 < Gate.wait_time w s /\
   RateLimiter.requests_throttled (self (Gate.admitted w s)) =
     (RateLimiter.requests_throttled (self s) + 1)%Z /\
   RateLimiter.total_wait_time (self (Gate.admitted w s)) =
     RateLimiter.total_wait_time (self s) + Gate.wait_time w s /\
   trace (Gate.admitted w s) =
     trace s ++ [LockAcquired; Logged WARNING "Rate limit reached, waiting";
                 Suspended (Gate.wait_time w s) (self (Gate.throttled w s));
                 Logged DEBUG "Rate limit acquired"; LockReleased])
  \/
  (Gate.wait_time w s <= 0 /\
   RateLimiter.requests_throttled (self (Gate.admitted w s)) =
     RateLimiter.requests_throttled (self s) /\
   RateLimiter.total_wait_time (self (Gate.admitted w s)) =
     RateLimiter.total_wait_time (self s) /\
   trace (Gate.admitted w s) =
     trace s ++ [LockAcquired; Logged DEBUG "Rate limit acquired"; LockReleased]).
Proof.
  destruct (throttled_statistics w s) as (T1 & T2 & T3).
  destruct (Qlt_le_dec 0 (Gate.wait_time w s)) as [Hpos|Hnon]; [left|right];
    (split; [assumption|]); rewrite admitted_eq, consumed_eq.
  - rewrite (@waited_throttled _ _ Hpos).
    split; [|split].
    + gate_frame RateLimiter.requests_throttled. exact T1.
    + gate_frame RateLimiter.total_wait_time. exact T2.
    + gate_trace. rewrite T3, <- !app_assoc. reflexivity.
  - rewrite (@waited_unthrottled _ _ Hnon), checked_eq.
    split; [|split].
    + gate_frame RateLimiter.requests_throttled. reflexivity.
    + gate_frame RateLimiter.total_wait_time. reflexivity.
    + gate_trace. rewrite <- !app_assoc. reflexivity.
Qed.


(** *** The buckets along the gate step *)

(** Two consecutive accesses, to the rate bucket and then to the weight
    bucket, under a clock that does not run backwards: when each happened
    and what it made of its bucket. *)
Lemma pair_access (f g : Q -> TokenBucket.t -> TokenBucket.t) (X : Gate.st) :
  Forall (fun d => 0 <= d) (latency X) ->
  exists t_r,
    clock X <= t_r /\
    t_r <= clock (Gate.access_tpm f (Gate.access_rpm g X)) /\
    Forall (fun d => 0 <= d) (latency (Gate.access_tpm f (Gate.access_rpm g X))) /\
    RateLimiter.rpm_bucket (self (Gate.access_tpm f (Gate.access_rpm g X))) =
      g t_r (RateLimiter.rpm_bucket (self X)) /\
    RateLimiter.tpm_bucket (self (Gate.access_tpm f (Gate.access_rpm g X))) =
      f (clock (Gate.access_tpm f (Gate.access_rpm g X))) (RateLimiter.tpm_bucket (self X)).
Proof.
  intros Hl.
  destruct (latency_hd_nonneg Hl) as [H1 Hl1].
  destruct (clock_access_rpm g X) as [Ec' El'].
  rewrite <- El' in Hl1.
  destruct (latency_hd_nonneg Hl1) as [H2 Hl2].
  destruct (clock_access_tpm f (Gate.access_rpm g X)) as [Ec El].
  exists (clock X + hd 0 (latency X)).
  split; [lra|]. split; [rewrite Ec, Ec'; lra|].
  split; [rewrite El; exact Hl2|].
  split.
  - rewrite (frame_access_tpm RateLimiter.rpm_bucket) by reflexivity.
    apply rpm_access_rpm.
  - rewrite tpm_access_tpm, Ec.
    rewrite (frame_access_rpm RateLimiter.tpm_bucket) by reflexivity. reflexivity.
Qed.

(** The two checks refill both buckets. *)
Lemma checked_shape (s : Gate.st) :
  Forall (fun d => 0 <= d) (latency s) ->
  exists t_r,
    clock s <= t_r /\ t_r <= clock (Gate.checked s) /\
    Forall (fun d => 0 <= d) (latency (Gate.checked s)) /\
    RateLimiter.rpm_bucket (self (Gate.checked s)) =
      TokenBucket._refill t_r (RateLimiter.rpm_bucket (self s)) /\
    RateLimiter.tpm_bucket (self (Gate.checked s)) =
      TokenBucket._refill (clock (Gate.checked s)) (RateLimiter.tpm_bucket (self s)).
Proof.
  intros Hl. rewrite checked_eq.
  destruct (@pair_access TokenBucket._refill TokenBucket._refill
              (Gate.add_event LockAcquired s))
    as (t_r & A1 & A2 & A3 & A4 & A5).
  { rewrite latency_add_event. exact Hl. }
  rewrite clock_add_event in A1. rewrite self_add_event in A4, A5.
  exists t_r.
  split; [exact A1|]. split; [exact A2|]. split; [exact A3|].
  split; [exact A4 | exact A5].
Qed.

(** So do the two readings for the warning. *)
Lemma throttled_shape (w : Z) (s : Gate.st) :
  Forall (fun d => 0 <= d) (latency (Gate.checked s)) ->
  exists t_r,
    clock (Gate.checked s) <= t_r /\ t_r <= clock (Gate.throttled w s) /\
    Forall (fun d => 0 <= d) (latency (Gate.throttled w s)) /\
    RateLimiter.rpm_bucket (self (Gate.throttled w s)) =
      TokenBucket._refill t_r (RateLimiter.rpm_bucket (self (Gate.checked s))) /\
    RateLimiter.tpm_bucket (self (Gate.throttled w s)) =
      TokenBucket._refill (clock (Gate.throttled w s))
        (RateLimiter.tpm_bucket (self (Gate.checked s))).
Proof.
  intros Hl. rewrite throttled_eq.
  set (X := Gate.map_self _ (Gate.map_self _ (Gate.checked s))).
  assert (EX : clock X = clock (Gate.checked s) /\ latency X = latency (Gate.checked s)).
  { unfold X.
    destruct (clock_map_self
                (fun r => RateLimiter.set_total_wait_time
                            (RateLimiter.total_wait_time r + Gate.wait_time w s) r)
                (Gate.map_self
                   (fun r => RateLimiter.set_requests_throttled
                               (RateLimiter.requests_throttled r + 1)%Z r)
                   (Gate.checked s))) as [-> ->].
    apply clock_map_self. }
  destruct EX as [EXc EXl].
  assert (Er : RateLimiter.rpm_bucket (self X) = RateLimiter.rpm_bucket (self (Gate.checked s))).
  { unfold X. gate_frame RateLimiter.rpm_bucket. reflexivity. }
  assert (Et : RateLimiter.tpm_bucket (self X) = RateLimiter.tpm_bucket (self (Gate.checked s))).
  { unfold X. gate_frame RateLimiter.tpm_bucket. reflexivity. }
  destruct (@pair_access TokenBucket._refill TokenBucket._refill X)
    as (t_r & A1 & A2 & A3 & A4 & A5).
  { rewrite EXl. exact Hl. }
  rewrite EXc in A1. rewrite Er in A4. rewrite Et in A5.
  rewrite clock_add_event, latency_add_event, self_add_event.
  exists t_r.
  split; [exact A1|]. split; [exact A2|]. split; [exact A3|].
  split; [exact A4 | exact A5].
Qed.

(** The two [consume] calls. *)
Lemma consumed_shape (w : Z) (s : Gate.st) :
  Forall (fun d => 0 <= d) (latency (Gate.waited w s)) ->
  exists t_r,
    clock (Gate.waited w s) <= t_r /\ t_r <= clock (Gate.consumed w s) /\
    Forall (fun d => 0 <= d) (latency (Gate.consumed w s)) /\
    RateLimiter.rpm_bucket (self (Gate.consumed w s)) =
      snd (TokenBucket.consume t_r 1 (RateLimiter.rpm_bucket (self (Gate.waited w s)))) /\
    RateLimiter.tpm_bucket (self (Gate.consumed w s)) =
      snd (TokenBucket.consume (clock (Gate.consumed w s)) (inject_Z w)
             (RateLimiter.tpm_bucket (self (Gate.waited w s)))).
Proof.
  intros Hl. rewrite consumed_eq.
  apply (@pair_access (fun now b => snd (TokenBucket.consume now (inject_Z w) b))
                      (fun now b => snd (TokenBucket.consume now 1 b))
                      (Gate.waited w s) Hl).
Qed.

(** The two readings for the final log record. *)
Lemma admitted_shape (w : Z) (s : Gate.st) :
  Forall (fun d => 0 <= d) (latency (Gate.consumed w s)) ->
  exists t_r,
    clock (Gate.consumed w s) <= t_r /\ t_r <= clock (Gate.admitted w s) /\
    RateLimiter.rpm_bucket (self (Gate.admitted w s)) =
      TokenBucket._refill t_r (RateLimiter.rpm_bucket (self (Gate.consumed w s))) /\
    RateLimiter.tpm_bucket (self (Gate.admitted w s)) =
      TokenBucket._refill (clock (Gate.admitted w s))
        (RateLimiter.tpm_bucket (self (Gate.consumed w s))).
Proof.
  intros Hl. rewrite admitted_eq.
  set (X := Gate.map_self _ (Gate.map_self _ (Gate.consumed w s))).
  assert (EX : clock X = clock (Gate.consumed w s) /\ latency X = latency (Gate.consumed w s)).
  { unfold X.
    destruct (clock_map_self
                (fun r => RateLimiter.set_total_tokens_consumed
                            (RateLimiter.total_tokens_consumed r + w)%Z r)
                (Gate.map_self
                   (fun r => RateLimiter.set_total_requests
                               (RateLimiter.total_requests r + 1)%Z r)
                   (Gate.consumed w s))) as [-> ->].
    apply clock_map_self. }
  destruct EX as [EXc EXl].
  assert (Er : RateLimiter.rpm_bucket (self X) = RateLimiter.rpm_bucket (self (Gate.consumed w s))).
  { unfold X. gate_frame RateLimiter.rpm_bucket. reflexivity. }
  assert (Et : RateLimiter.tpm_bucket (self X) = RateLimiter.tpm_bucket (self (Gate.consumed w s))).
  { unfold X. gate_frame RateLimiter.tpm_bucket. reflexivity. }
  destruct (@pair_access TokenBucket._refill TokenBucket._refill X)
    as (t_r & A1 & A2 & _ & A4 & A5).
  { rewrite EXl. exact Hl. }
  rewrite EXc in A1. rewrite Er in A4. rewrite Et in A5.
  rewrite !clock_add_event, !self_add_event.
  exists t_r.
  split; [exact A1|]. split; [exact A2|]. split; [exact A4 | exact A5].
Qed.

(** *** A weight above the capacity of the weight bucket *)

(** A weight above the capacity of the weight bucket always has to wait. *)
Lemma wait_time_oversized (w : Z) (s : Gate.st) :
  0 < TokenBucket.refill_rate (RateLimiter.tpm_bucket (self s)) ->
  Forall (fun d => 0 <= d) (latency s) ->
  TokenBucket.capacity (RateLimiter.tpm_bucket (self s)) < inject_Z w ->
  0 < Gate.wait_time w s.
Proof.
  intros Ht Hl Hover. rewrite wait_time_eq.
  destruct (@checked_shape s Hl) as (t_r & _ & _ & _ & _ & Bt).
  apply Qlt_le_trans with
    (y := Gate.wait_for (inject_Z w) (RateLimiter.tpm_bucket (self (Gate.checked s)))).
  - apply wait_for_positive; rewrite Bt; [exact Ht|].
    pose proof (refill_tokens_le_capacity (clock (Gate.checked s))
                  (RateLimiter.tpm_bucket (self s))).
    lra.
  - apply Q.le_max_r.
Qed.

(** C5 (oversized weight is admitted without consuming).  For a gate with
    positive refill rates whose weight bucket has capacity below [w], under
    a clock that does not run backwards, the wait-for-capacity step returns
    normally; the computed wait is positive and the task is suspended
    exactly once, for that long; a [consume] of [w] on a bucket of this
    capacity answers [False] and only refills; all that happened to the
    weight bucket is that it was refilled at four successive times, the
    last being the end of the step, nothing having been subtracted; and
    [total_tokens_consumed] has still grown by [w] (and [total_requests]
    by one).  The weight is one that [float] holds exactly and the wait a
    duration that [float] arithmetic holds; beyond, [float(w)] rounds or
    raises [OverflowError] and the sleep may never end. *)
Theorem oversized_weight_admitted_unconsumed (w : Z) (s : Gate.st) :
  0 < TokenBucket.refill_rate (RateLimiter.rpm_bucket (self s)) ->
  0 < TokenBucket.refill_rate (RateLimiter.tpm_bucket (self s)) ->
  Forall (fun d => 0 <= d) (latency s) ->
  TokenBucket.last_refill_time (RateLimiter.rpm_bucket (self s)) <= clock s ->
  TokenBucket.last_refill_time (RateLimiter.tpm_bucket (self s)) <= clock s ->
  TokenBucket.capacity (RateLimiter.tpm_bucket (self s)) < inject_Z w ->
  float_exact w = true ->
  float_sized (Gate.wait_time w s) = true ->
  exists s',
    RateLimiter._wait_for_capacity w s = (Ok tt, s') /\
    0 < Gate.wait_time w s /\
    trace s' =
      trace s ++ [LockAcquired; Logged WARNING "Rate limit reached, waiting";
                  Suspended (Gate.wait_time w s) (self (Gate.throttled w s));
                  Logged DEBUG "Rate limit acquired"; LockReleased] /\
    (forall now b,
       TokenBucket.capacity b = TokenBucket.capacity (RateLimiter.tpm_bucket (self s)) ->
       TokenBucket.consume now (inject_Z w) b = (false, TokenBucket._refill now b)) /\
    (exists t1 t2 t3,
       clock s <= t1 /\ t1 <= t2 /\ t2 + Gate.wait_time w s <= t3 /\ t3 <= clock s' /\
       RateLimiter.tpm_bucket (self s') =
         TokenBucket._refill (clock s')
           (TokenBucket._refill t3
              (TokenBucket._refill t2
                 (TokenBucket._refill t1 (RateLimiter.tpm_bucket (self s)))))) /\
    RateLimiter.total_tokens_consumed (self s') =
      (RateLimiter.total_tokens_consumed (self s) + w)%Z /\
    RateLimiter.total_requests (self s') =
      (RateLimiter.total_requests (self s) + 1)%Z.
Proof.
  intros Hr Ht Hl _ _ Hover _ _.
  exists (Gate.admitted w s).
  pose proof (@wait_time_oversized w s Ht Hl Hover) as Hwait.
  destruct (admitted_counters w s) as (C1 & C2 & _).
  split; [apply wait_for_capacity_run; assumption|].
  split; [exact Hwait|].
  split.
  { destruct (admitted_throttling w s) as [(_ & _ & _ & Htrace)|(Hnon & _)];
      [exact Htrace | lra]. }
  split.
  { intros now b Hb. apply consume_oversized. rewrite Hb. exact Hover. }
  split; [|split; assumption].
  destruct (@checked_shape s Hl) as (t_r1 & A1 & A2 & L1 & _ & B1).
  destruct (@throttled_shape w s L1) as (t_r2 & A3 & A4 & L2 & _ & B2).
  assert (L3 : Forall (fun d => 0 <= d) (latency (Gate.waited w s))).
  { rewrite (@waited_throttled _ _ Hwait).
    destruct (clock_sleep (Gate.wait_time w s) (Gate.throttled w s)) as [_ ->].
    exact L2. }
  destruct (@consumed_shape w s L3) as (t_r3 & A5 & A6 & L4 & _ & B3).
  destruct (@admitted_shape w s L4) as (t_r4 & A7 & A8 & _ & B4).
  rewrite (@waited_throttled _ _ Hwait) in A5, B3.
  destruct (clock_sleep (Gate.wait_time w s) (Gate.throttled w s)) as [Ecs _].
  rewrite Ecs in A5. rewrite self_sleep in B3.
  exists (clock (Gate.checked s)), (clock (Gate.throttled w s)), (clock (Gate.consumed w s)).
  split; [lra|]. split; [lra|]. split; [lra|]. split; [lra|].
  rewrite B4, B3, B2, B1.
  rewrite consume_oversized by exact Hover.
  reflexivity.
Qed.

Lemma oversized_weight_admitted_unconsumed_witness :
  exists s',
    RateLimiter._wait_for_capacity 6001
      (mkState 0 [] []
         (RateLimiter.mk "test" (RateLimitConfig_init 60 6000 10)
            (TokenBucket.__post_init__ 60 1 0)
            (TokenBucket.__post_init__ 6000 100 0)
            (Semaphore.mk 10) 0 0 0 0)) = (Ok tt, s') /\
    Gate.suspensions (trace s') = [Gate.wait_time 6001
      (mkState 0 [] []
         (RateLimiter.mk "test" (RateLimitConfig_init 60 6000 10)
            (TokenBucket.__post_init__ 60 1 0)
            (TokenBucket.__post_init__ 6000 100 0)
            (Semaphore.mk 10) 0 0 0 0))] /\
    RateLimiter.total_tokens_consumed (self s') = 6001%Z.
Proof.
  destruct (@oversized_weight_admitted_unconsumed 6001
              (mkState 0 [] []
                 (RateLimiter.mk "test" (RateLimitConfig_init 60 6000 10)
                    (TokenBucket.__post_init__ 60 1 0)
                    (TokenBucket.__post_init__ 6000 100 0)
                    (Semaphore.mk 10) 0 0 0 0)))
    as (s' & Hrun & _ & Htrace & _ & _ & Hcount & _).
  - reflexivity.
  - reflexivity.
  - constructor.
  - cbn [self clock RateLimiter.rpm_bucket TokenBucket.__post_init__
         TokenBucket.last_refill_time]. apply Qle_refl.
  - cbn [self clock RateLimiter.tpm_bucket TokenBucket.__post_init__
         TokenBucket.last_refill_time]. apply Qle_refl.
  - reflexivity.
  - reflexivity.
  - vm_compute. reflexivity.
  - exists s'. split; [exact Hrun|]. split; [|exact Hcount].
    rewrite Htrace. reflexivity.
Defined.

(** C5, the gates the statement leaves out.  A limiter built for 60
    requests and 0 weight units per minute has a weight bucket of capacity
    0 and refill rate 0.  Asked for weight 1, above that capacity, the
    wait-for-capacity step does not suspend and does not admit the request:
    [get_wait_time] divides by the zero rate, the step raises
    [ZeroDivisionError], and nothing is counted. *)
Theorem oversized_weight_on_zero_rate_gate_raises :
  exists limiter s0 s',
    RateLimiter.__init__ "test" (Some (RateLimitConfig_init 60 0 10))
      (mkState 0 [] [] tt) = (Ok limiter, s0) /\
    TokenBucket.capacity (RateLimiter.tpm_bucket limiter) < inject_Z 1 /\
    RateLimiter._wait_for_capacity 1 (mkState 0 [] [] limiter) =
      (Raise ZeroDivisionError, s') /\
    Gate.suspensions (trace s') = [] /\
    RateLimiter.total_requests (self s') = 0%Z /\
    RateLimiter.total_tokens_consumed (self s') = 0%Z.
Proof.
  eexists. eexists. eexists.
  split; [vm_compute; reflexivity|].
  split; [vm_compute; reflexivity|].
  split; [vm_compute; reflexivity|].
  repeat split.
Qed.

(** *** Scope entry and exit *)

Lemma aexit_run (ctx : RateLimiterContext.t) (exc : option exn) (s : Gate.st) :
  RateLimiterContext.__aexit__ ctx exc s = (Ok false, Gate.released s).
Proof.
  unfold RateLimiterContext.__aexit__, Gate.released.
  erewrite bind_ok by apply run_modify. reflexivity.
Qed.

Lemma released_fields (s : Gate.st) :
  Semaphore._value (RateLimiter.semaphore (self (Gate.released s))) =
    (Semaphore._value (RateLimiter.semaphore (self s)) + 1)%Z /\
  RateLimiter.rpm_bucket (self (Gate.released s)) = RateLimiter.rpm_bucket (self s) /\
  RateLimiter.tpm_bucket (self (Gate.released s)) = RateLimiter.tpm_bucket (self s) /\
  RateLimiter.total_requests (self (Gate.released s)) =
    RateLimiter.total_requests (self s) /\
  RateLimiter.total_tokens_consumed (self (Gate.released s)) =
    RateLimiter.total_tokens_consumed (self s) /\
  RateLimiter.total_wait_time (self (Gate.released s)) =
    RateLimiter.total_wait_time (self s) /\
  RateLimiter.requests_throttled (self (Gate.released s)) =
    RateLimiter.requests_throttled (self s) /\
  clock (Gate.released s) = clock s /\
  latency (Gate.released s) = latency s /\
  trace (Gate.released s) = trace s.
Proof.
  unfold Gate.released. rewrite trace_map_self, !self_map_self.
  destruct s as [c l tr r]. repeat split.
Qed.

Lemma aenter_run (ctx : RateLimiterContext.t) (s : Gate.st) :
  0 < TokenBucket.refill_rate (RateLimiter.rpm_bucket (self s)) ->
  0 < TokenBucket.refill_rate (RateLimiter.tpm_bucket (self s)) ->
  (0 < Semaphore._value (RateLimiter.semaphore (self s)))%Z ->
  RateLimiterContext.__aenter__ ctx s =
    (Ok ctx, Gate.entered (RateLimiterContext.estimated_tokens ctx) s) /\
  Semaphore._value
    (RateLimiter.semaphore (self (Gate.entered (RateLimiterContext.estimated_tokens ctx) s))) =
    (Semaphore._value (RateLimiter.semaphore (self s)) - 1)%Z.
Proof.
  intros Hr Ht Hfree.
  destruct (admitted_counters (RateLimiterContext.estimated_tokens ctx) s)
    as (_ & _ & Hsem).
  split.
  - unfold RateLimiterContext.__aenter__.
    erewrite bind_ok by (apply wait_for_capacity_run; assumption).
    erewrite bind_ok by (apply run_acquire; rewrite Hsem; exact Hfree).
    reflexivity.
  - unfold Gate.entered. rewrite self_map_self.
    cbn [RateLimiter.semaphore RateLimiter.set_semaphore Semaphore._value].
    rewrite Hsem. reflexivity.
Qed.

(** C8 (AdmissionGate scope exit).  Entering the scope takes exactly one
    concurrency slot.  Whatever the guarded body does and whether it returns
    or raises, [__aexit__] then runs, returns [False] (so an exception of the
    body propagates unchanged), gives back exactly one slot and changes
    nothing else: both token buckets, all statistics, the clock and the
    trace are as the body left them, so no token is returned on exit. *)
Theorem scope_exit_releases_only_the_slot {A : Type}
  (ctx : RateLimiterContext.t) (body : M RateLimiter.t A) (s s2 : Gate.st)
  (r : result A) :
  0 < TokenBucket.refill_rate (RateLimiter.rpm_bucket (self s)) ->
  0 < TokenBucket.refill_rate (RateLimiter.tpm_bucket (self s)) ->
  (0 < Semaphore._value (RateLimiter.semaphore (self s)))%Z ->
  body (Gate.entered (RateLimiterContext.estimated_tokens ctx) s) = (r, s2) ->
  r <> Pending ->
  Semaphore._value
    (RateLimiter.semaphore
       (self (Gate.entered (RateLimiterContext.estimated_tokens ctx) s))) =
    (Semaphore._value (RateLimiter.semaphore (self s)) - 1)%Z /\
  async_with ctx body s = (Gate.propagated r, Gate.released s2) /\
  (forall exc, RateLimiterContext.__aexit__ ctx exc s2 = (Ok false, Gate.released s2)) /\
  Semaphore._value (RateLimiter.semaphore (self (Gate.released s2))) =
    (Semaphore._value (RateLimiter.semaphore (self s2)) + 1)%Z /\
  RateLimiter.rpm_bucket (self (Gate.released s2)) = RateLimiter.rpm_bucket (self s2) /\
  RateLimiter.tpm_bucket (self (Gate.released s2)) = RateLimiter.tpm_bucket (self s2) /\
  RateLimiter.total_requests (self (Gate.released s2)) =
    RateLimiter.total_requests (self s2) /\
  RateLimiter.total_tokens_consumed (self (Gate.released s2)) =
    RateLimiter.total_tokens_consumed (self s2) /\
  RateLimiter.total_wait_time (self (Gate.released s2)) =
    RateLimiter.total_wait_time (self s2) /\
  RateLimiter.requests_throttled (self (Gate.released s2)) =
    RateLimiter.requests_throttled (self s2) /\
  clock (Gate.released s2) = clock s2 /\
  latency (Gate.released s2) = latency s2 /\
  trace (Gate.released s2) = trace s2.
Proof.
  intros Hr Ht Hfree Hbody Hdone.
  destruct (aenter_run ctx s Hr Ht Hfree) as [Henter Hslot].
  split; [exact Hslot|].
  split.
  { unfold async_with. rewrite Henter, Hbody.
    destruct r as [a|e|]; [| |congruence];
      rewrite aexit_run; reflexivity. }
  split; [intros exc; apply aexit_run|].
  apply released_fields.
Qed.

Lemma scope_exit_releases_only_the_slot_witness :
  let s := mkState 0 [] []
             (RateLimiter.mk "test" (RateLimitConfig_init 60 6000 10)
                (TokenBucket.__post_init__ 60 1 0)
                (TokenBucket.__post_init__ 6000 100 0)
                (Semaphore.mk 10) 0 0 0 0) in
  let ctx := RateLimiter_acquire 100 in
  async_with ctx (raise (Exception "boom") : M RateLimiter.t unit) s =
    (Raise (Exception "boom"), Gate.released (Gate.entered 100 s)).
Proof.
  intros s ctx.
  refine (proj1 (proj2 (@scope_exit_releases_only_the_slot unit ctx
                          (raise (Exception "boom")) s (Gate.entered 100 s)
                          (Raise (Exception "boom")) _ _ _ _ _))).
  - reflexivity.
  - reflexivity.
  - reflexivity.
  - reflexivity.
  - discriminate.
Defined.

(** *** The step at a weight above the capacity of the weight bucket *)

(** C2 (AdmissionGate acquire, step 1) at a concrete oversized request.  A
    limiter built at time 0 for 60 requests and 6000 weight units per
    minute is asked for weight 6001.  The step returns normally after one
    suspension of 1/100 s, counted as throttled; one token has left the
    rate bucket, but the weight bucket is still full at 6000, nothing was
    taken from it, while [total_tokens_consumed] reports 6001. *)
Theorem wait_for_capacity_oversized_example :
  exists limiter s0 s',
    RateLimiter.__init__ "test" (Some (RateLimitConfig_init 60 6000 10))
      (mkState 0 [] [] tt) = (Ok limiter, s0) /\
    RateLimiter._wait_for_capacity 6001 (mkState 0 [] [] limiter) = (Ok tt, s') /\
    Forall2 Qeq (Gate.suspensions (trace s')) [1 # 100] /\
    RateLimiter.requests_throttled (self s') = 1%Z /\
    TokenBucket.tokens (RateLimiter.rpm_bucket (self s')) == 59 /\
    TokenBucket.tokens (RateLimiter.tpm_bucket (self s')) == 6000 /\
    RateLimiter.total_tokens_consumed (self s') = 6001%Z /\
    RateLimiter.total_requests (self s') = 1%Z.
Proof.
  eexists. eexists. eexists.
  split; [vm_compute; reflexivity|].
  split; [vm_compute; reflexivity|].
  split; [repeat constructor|].
  repeat split.
Qed.

(** ** The registry of gates *)

Lemma default_config_concurrency (model : string) :
  max_concurrent_requests (RegistrySpec.default_config model) = 10%Z.
Proof.
  unfold RegistrySpec.default_config.
  destruct (contains "mini" (lower model)); reflexivity.
Qed.

Lemma first_lookup_run (model : string) (s : state Registry.t) :
  Registry._rate_limiters (self s) !! model = None ->
  Registry.get_rate_limiter model s =
    (Ok (List.length (Registry.objects (self s))), RegistrySpec.registered model s).
Proof.
  intros Hnone.
  unfold Registry.get_rate_limiter.
  unfold bind at 1. unfold get at 1. cbv iota beta.
  rewrite Hnone.
  change (if contains "mini" (lower model)
          then RateLimitConfig_init 500 200000 10
          else RateLimitConfig_init 500 30000 10)
    with (RegistrySpec.default_config model).
  unfold RateLimiter.__init__.
  rewrite default_config_concurrency.
  destruct s as [c l tr reg].
  unfold Semaphore.__init__, bind, time_time, log, emit, modify, get, ret.
  cbn [Z.ltb Z.compare clock latency trace self Registry.objects
       Registry._rate_limiters].
  rewrite lookup_insert_eq.
  unfold RegistrySpec.registered, RegistrySpec.created, RegistrySpec.built.
  rewrite default_config_concurrency. reflexivity.
Qed.

Lemma later_lookup_run (model : string) (address : nat) (s : state Registry.t) :
  Registry._rate_limiters (self s) !! model = Some address ->
  Registry.get_rate_limiter model s = (Ok address, s).
Proof.
  intros Hsome.
  unfold Registry.get_rate_limiter, bind, get, ret.
  rewrite Hsome. cbv beta iota. rewrite Hsome. reflexivity.
Qed.

Lemma created_budget (model : string) (s : state Registry.t) :
  RateLimiter.name (RegistrySpec.created model s) = ("openai_" ++ model)%string /\
  requests_per_minute (RateLimiter.config (RegistrySpec.created model s)) = 500%Z /\
  max_concurrent_requests (RateLimiter.config (RegistrySpec.created model s)) = 10%Z /\
  tokens_per_minute (RateLimiter.config (RegistrySpec.created model s)) =
    (if contains "mini" (lower model) then 200000 else 30000)%Z.
Proof.
  unfold RegistrySpec.created, RegistrySpec.built, RegistrySpec.default_config.
  cbn [RateLimiter.name RateLimiter.config].
  destruct (contains "mini" (lower model)); repeat split.
Qed.

(** C10 (registry: one gate per name), as the code has it.  A name that is
    not registered yet gets a new gate at a fresh address, named
    [openai_<model>], for 500 requests per minute and 10 concurrent
    requests, with 200000 weight units per minute when the lower-cased name
    contains "mini" and 30000 otherwise; the name is then bound to that
    address and the next lookup returns the same address and changes
    nothing.  A name that is registered is answered with its address and
    the state, hence the gate, is left exactly as it was. *)
Theorem registry_singleton_per_name (model : string) (s : state Registry.t) :
  match Registry._rate_limiters (self s) !! model with
  | None =>
      let address := List.length (Registry.objects (self s)) in
      let s' := RegistrySpec.registered model s in
      let limiter := RegistrySpec.created model s in
      Registry.get_rate_limiter model s = (Ok address, s') /\
      Registry.objects (self s') !! address = Some limiter /\
      Registry._rate_limiters (self s') !! model = Some address /\
      RateLimiter.name limiter = ("openai_" ++ model)%string /\
      requests_per_minute (RateLimiter.config limiter) = 500%Z /\
      max_concurrent_requests (RateLimiter.config limiter) = 10%Z /\
      tokens_per_minute (RateLimiter.config limiter) =
        (if contains "mini" (lower model) then 200000 else 30000)%Z /\
      Registry.get_rate_limiter model s' = (Ok address, s')
  | Some address =>
      Registry.get_rate_limiter model s = (Ok address, s)
  end.
Proof.
  destruct (Registry._rate_limiters (self s) !! model) as [address|] eqn:E.
  - apply later_lookup_run. exact E.
  - cbv zeta.
    assert (Hbound : Registry._rate_limiters (self (RegistrySpec.registered model s))
                       !! model = Some (List.length (Registry.objects (self s)))).
    { unfold RegistrySpec.registered. cbn [self Registry._rate_limiters].
      apply lookup_insert_eq. }
    split; [apply first_lookup_run; exact E|].
    split.
    { unfold RegistrySpec.registered. cbn [self Registry.objects].
      apply list_lookup_middle. reflexivity. }
    split; [exact Hbound|].
    destruct (created_budget model s) as (N & R & C & T).
    repeat (split; [assumption|]).
    apply later_lookup_run. exact Hbound.
Qed.

(** C10 as worded fails: the name GPT-4O-MINI does not contain "mini", yet
    its gate gets the 200000 budget. *)
Lemma registry_budget_ignores_letter_case :
  contains "mini" "GPT-4O-MINI" = false /\
  exists address s' limiter,
    Registry.get_rate_limiter "GPT-4O-MINI" (mkState 0 [] [] (Registry.mk [] ∅))
      = (Ok address, s') /\
    Registry.objects (self s') !! address = Some limiter /\
    tokens_per_minute (RateLimiter.config limiter) = 200000%Z /\
    tokens_per_minute (RateLimiter.config limiter) <>
      RegistrySpec.budget_by_literal_name "GPT-4O-MINI".
Proof.
  split; [reflexivity|].
  assert (Hnone : Registry._rate_limiters
                    (self (mkState 0 [] [] (Registry.mk [] ∅) : state Registry.t))
                    !! "GPT-4O-MINI" = None) by apply lookup_empty.
  pose proof (first_lookup_run _ _ Hnone) as Hrun.
  destruct (created_budget "GPT-4O-MINI" (mkState 0 [] [] (Registry.mk [] ∅)))
    as (_ & _ & _ & Hbudget).
  eexists. eexists. eexists.
  split; [exact Hrun|].
  split; [reflexivity|].
  split; [exact Hbudget|].
  rewrite Hbudget. discriminate.
Qed.

(** ** OrderedDict *)

Section OrderedDictFacts.
Context {V : Type}.
Implicit Types (d : OrderedDict.t V) (k : string) (v : V).

Lemma getitem_In d k v : OrderedDict.getitem k d = Some v -> In (k, v) d.
Proof.
  induction d as [|[k' v'] d IH]; simpl; [discriminate|].
  destruct (String.eqb k k') eqn:E.
  - apply String.eqb_eq in E. intros [= ->]. subst. left. reflexivity.
  - intros H. right. apply IH. exact H.
Qed.

Lemma getitem_None d k : OrderedDict.getitem k d = None <-> ~ In k (OrderedDict.keys d).
Proof.
  induction d as [|[k' v'] d IH]; simpl.
  - split; [intros _ []| reflexivity].
  - destruct (String.eqb k k') eqn:E.
    + apply String.eqb_eq in E. subst. split; [discriminate|].
      intros H. exfalso. apply H. left. reflexivity.
    + apply String.eqb_neq in E. rewrite IH. split.
      * intros H [H'|H']; [congruence | contradiction].
      * intros H H'. apply H. right. exact H'.
Qed.

Lemma In_getitem d k v :
  List.NoDup (OrderedDict.keys d) -> In (k, v) d -> OrderedDict.getitem k d = Some v.
Proof.
  induction d as [|[k' v'] d IH]; simpl; [intros _ []|].
  intros Hnd [H|H].
  - injection H as -> ->. rewrite String.eqb_refl. reflexivity.
  - inversion Hnd as [|? ? Hnotin Hnd']; subst.
    destruct (String.eqb k k') eqn:E.
    + apply String.eqb_eq in E. subst. exfalso. apply Hnotin.
      apply (in_map fst) in H. exact H.
    + apply IH; assumption.
Qed.

Lemma remove_absent d k : ~ In k (OrderedDict.keys d) -> OrderedDict.remove k d = d.
Proof.
  induction d as [|[k' v'] d IH]; simpl; [reflexivity|].
  intros H. destruct (String.eqb k k') eqn:E.
  - apply String.eqb_eq in E. subst. exfalso. apply H. left. reflexivity.
  - f_equal. apply IH. intros H'. apply H. right. exact H'.
Qed.

Lemma keys_remove_subset d k k' :
  In k' (OrderedDict.keys (OrderedDict.remove k d)) -> In k' (OrderedDict.keys d).
Proof.
  induction d as [|[k0 v0] d IH]; simpl; [tauto|].
  destruct (String.eqb k k0); simpl.
  - intros H. right. exact H.
  - intros [H|H]; [left; exact H | right; apply IH; exact H].
Qed.

Lemma keys_remove_NoDup d k :
  List.NoDup (OrderedDict.keys d) -> List.NoDup (OrderedDict.keys (OrderedDict.remove k d)).
Proof.
  induction d as [|[k0 v0] d IH]; simpl; [intros H; exact H|].
  intros Hnd. inversion Hnd as [|? ? Hnotin Hnd']; subst.
  destruct (String.eqb k k0); simpl; [exact Hnd'|].
  constructor; [|apply IH; exact Hnd'].
  intros H. apply Hnotin. apply (keys_remove_subset _ _ _ H).
Qed.

Lemma getitem_remove_ne d k k' :
  k <> k' -> OrderedDict.getitem k (OrderedDict.remove k' d) = OrderedDict.getitem k d.
Proof.
  intros Hne. induction d as [|[k0 v0] d IH]; simpl; [reflexivity|].
  destruct (String.eqb k' k0) eqn:E; simpl.
  - apply String.eqb_eq in E. subst.
    destruct (String.eqb k k0) eqn:E'; [|reflexivity].
    apply String.eqb_eq in E'. congruence.
  - destruct (String.eqb k k0); [reflexivity | exact IH].
Qed.

Lemma remove_removes d k :
  List.NoDup (OrderedDict.keys d) -> ~ In k (OrderedDict.keys (OrderedDict.remove k d)).
Proof.
  induction d as [|[k0 v0] d IH]; simpl; [intros _ []|].
  intros Hnd. inversion Hnd as [|? ? Hnotin Hnd']; subst.
  destruct (String.eqb k k0) eqn:E; simpl.
  - apply String.eqb_eq in E. subst. exact Hnotin.
  - apply String.eqb_neq in E. intros [H|H]; [congruence|].
    apply (IH Hnd' H).
Qed.

Lemma length_remove_present d k :
  In k (OrderedDict.keys d) ->
  List.length d = Datatypes.S (List.length (OrderedDict.remove k d)).
Proof.
  induction d as [|[k0 v0] d IH]; simpl; [intros []|].
  intros H. destruct (String.eqb k k0) eqn:E; simpl; [reflexivity|].
  apply String.eqb_neq in E. f_equal. apply IH.
  destruct H as [H|H]; [congruence | exact H].
Qed.

Lemma setitem_absent d k v :
  ~ In k (OrderedDict.keys d) -> OrderedDict.setitem k v d = d ++ [(k, v)].
Proof.
  induction d as [|[k0 v0] d IH]; simpl; [reflexivity|].
  intros H. destruct (String.eqb k k0) eqn:E.
  - apply String.eqb_eq in E. subst. exfalso. apply H. left. reflexivity.
  - f_equal. apply IH. intros H'. apply H. right. exact H'.
Qed.

Lemma keys_setitem_present d k v :
  In k (OrderedDict.keys d) ->
  OrderedDict.keys (OrderedDict.setitem k v d) = OrderedDict.keys d.
Proof.
  induction d as [|[k0 v0] d IH]; simpl; [intros []|].
  intros H. destruct (String.eqb k k0) eqn:E; simpl.
  - apply String.eqb_eq in E. subst. reflexivity.
  - apply String.eqb_neq in E. f_equal. apply IH.
    destruct H as [H|H]; [congruence | exact H].
Qed.

Lemma getitem_setitem d k v :
  OrderedDict.getitem k (OrderedDict.setitem k v d) = Some v.
Proof.
  induction d as [|[k0 v0] d IH]; simpl.
  - rewrite String.eqb_refl. reflexivity.
  - destruct (String.eqb k k0) eqn:E; simpl.
    + rewrite String.eqb_refl. reflexivity.
    + rewrite E. exact IH.
Qed.

Lemma keys_length d : List.length (OrderedDict.keys d) = List.length d.
Proof. apply length_map. Qed.

Lemma length_setitem_present d k v :
  In k (OrderedDict.keys d) ->
  List.length (OrderedDict.setitem k v d) = List.length d.
Proof.
  intros H. rewrite <- !keys_length, keys_setitem_present by exact H. reflexivity.
Qed.

Lemma move_to_end_present d k v :
  OrderedDict.getitem k d = Some v ->
  OrderedDict.move_to_end k d = OrderedDict.remove k d ++ [(k, v)].
Proof. intros H. unfold OrderedDict.move_to_end. rewrite H. reflexivity. Qed.

Lemma getitem_present d k :
  In k (OrderedDict.keys d) -> exists v, OrderedDict.getitem k d = Some v.
Proof.
  intros H. destruct (OrderedDict.getitem k d) as [v|] eqn:E; [exists v; reflexivity|].
  apply getitem_None in E. contradiction.
Qed.

Lemma keys_app d1 d2 :
  OrderedDict.keys (d1 ++ d2) = OrderedDict.keys d1 ++ OrderedDict.keys d2.
Proof. apply map_app. Qed.

Lemma keys_append_NoDup d k v :
  List.NoDup (OrderedDict.keys d) -> ~ In k (OrderedDict.keys d) ->
  List.NoDup (OrderedDict.keys (d ++ [(k, v)])).
Proof.
  intros Hnd Hnotin. rewrite keys_app. cbn [OrderedDict.keys map fst].
  apply List.NoDup_app.
  - exact Hnd.
  - constructor; [intros []|constructor].
  - intros x Hx [Hk|[]]. subst. contradiction.
Qed.

Lemma move_to_end_length d k :
  In k (OrderedDict.keys d) ->
  List.length (OrderedDict.move_to_end k d) = List.length d.
Proof.
  intros H. destruct (getitem_present _ _ H) as [v Hv].
  rewrite (move_to_end_present _ _ Hv), length_app.
  rewrite (length_remove_present _ _ H). cbn [List.length]. lia.
Qed.

Lemma move_to_end_NoDup d k :
  List.NoDup (OrderedDict.keys d) ->
  List.NoDup (OrderedDict.keys (OrderedDict.move_to_end k d)).
Proof.
  intros Hnd. unfold OrderedDict.move_to_end.
  destruct (OrderedDict.getitem k d) as [v|]; [|exact Hnd].
  apply keys_append_NoDup; [apply keys_remove_NoDup; exact Hnd|].
  apply remove_removes. exact Hnd.
Qed.

Lemma setitem_NoDup d k v :
  List.NoDup (OrderedDict.keys d) ->
  List.NoDup (OrderedDict.keys (OrderedDict.setitem k v d)).
Proof.
  intros Hnd. destruct (in_dec string_dec k (OrderedDict.keys d)) as [Hin|Hnotin].
  - rewrite keys_setitem_present by exact Hin. exact Hnd.
  - rewrite setitem_absent by exact Hnotin.
    apply keys_append_NoDup; assumption.
Qed.

Lemma length_setitem_le d k v :
  (List.length (OrderedDict.setitem k v d) <= Datatypes.S (List.length d))%nat.
Proof.
  destruct (in_dec string_dec k (OrderedDict.keys d)) as [Hin|Hnotin].
  - rewrite length_setitem_present by exact Hin. lia.
  - rewrite setitem_absent by exact Hnotin. rewrite length_app. cbn [List.length]. lia.
Qed.

Lemma length_remove_le d k :
  (List.length (OrderedDict.remove k d) <= List.length d)%nat.
Proof.
  destruct (in_dec string_dec k (OrderedDict.keys d)) as [Hin|Hnotin].
  - rewrite (length_remove_present _ _ Hin). lia.
  - rewrite remove_absent by exact Hnotin. lia.
Qed.

End OrderedDictFacts.

(** ** SessionManager *)

Section PoolRuns.
Variable env : SQLiteSession.behaviour.

Lemma pool_trace_app (c : Q) (l : list Q) (tr evs1 evs2 : list (event SessionManager.t))
  (m : SessionManager.t) :
  mkState c l ((tr ++ evs1) ++ evs2) m = mkState c l (tr ++ evs1 ++ evs2) m.
Proof. rewrite <- app_assoc. reflexivity. Qed.

(** Closing a handle never raises: an exception of [clear_session] or
    [close] is caught and logged. *)
Lemma close_session_run (session_id : string) (metadata : SessionMetadata.t)
  (s : Pool.st) :
  SessionManager._close_session env session_id metadata s =
  (Ok tt, mkState (clock s) (latency s)
                  (trace s ++ Pool.close_events env metadata) (self s)).
Proof.
  destruct s as [c l tr m].
  unfold SessionManager._close_session, Pool.close_events, try_except,
    SessionManager.call_handle, bind, log, emit, raise, ret.
  cbn [clock latency trace self].
  destruct (SQLiteSession.clear_session_raises env _) as [msg|];
    [|destruct (SQLiteSession.has_close env _);
      [destruct (SQLiteSession.close_raises env _) as [msg|]|]];
    cbv beta iota; cbn [clock latency trace self];
    rewrite <- ?app_assoc; reflexivity.
Qed.

Lemma settle_0_id (s : Pool.st) :
  Pool.settle 0 [] (SessionManager._sessions (self s)) (fun x => x) s = s.
Proof.
  destruct s as [c l tr [? ? ? ? ? ? ? ?]]. unfold Pool.settle.
  cbn. rewrite app_nil_r. reflexivity.
Qed.

Lemma settle_0_settle_0 (evs1 evs2 : list (event SessionManager.t)) (d1 d2 : Pool.dict)
  (f1 f2 : Stats.t -> Stats.t) (s : Pool.st) :
  Pool.settle 0 evs2 d2 f2 (Pool.settle 0 evs1 d1 f1 s) =
  Pool.settle 0 (evs1 ++ evs2) d2 (fun x => f2 (f1 x)) s.
Proof.
  destruct s as [c l tr [? ? ? ? ? ? ? ?]]. unfold Pool.settle.
  cbn. rewrite <- app_assoc. reflexivity.
Qed.

(** One round of the second loop of [cleanup_expired_sessions]. *)
Lemma sweep_body_run (session_id : string) (metadata : SessionMetadata.t) (s : Pool.st) :
  OrderedDict.getitem session_id (SessionManager._sessions (self s)) = Some metadata ->
  (m <- get ;;
   match OrderedDict.pop session_id (SessionManager._sessions m) with
   | Some (metadata, rest) =>
       modify (SessionManager.set_sessions rest) ;;;
       SessionManager._close_session env session_id metadata ;;;
       modify (SessionManager.update_stats Stats.incr_sessions_expired)
   | None => raise (Exception "KeyError")
   end) s =
  (Ok tt, Pool.settle 0 (Pool.close_events env metadata)
            (OrderedDict.remove session_id (SessionManager._sessions (self s)))
            Stats.incr_sessions_expired s).
Proof.
  intros Hget.
  unfold bind at 1. unfold get at 1. cbv beta iota.
  unfold OrderedDict.pop. rewrite Hget.
  unfold bind at 1. unfold modify at 1. cbv beta iota.
  unfold bind at 1. rewrite close_session_run.
  destruct s as [c l tr [? ? ? ? ? ? ? ?]]. reflexivity.
Qed.

Lemma swept_events_remove (d : Pool.dict) (id : string) (ids : list string) :
  ~ In id ids ->
  Pool.swept_events env (OrderedDict.remove id d) ids = Pool.swept_events env d ids.
Proof.
  intros Hnotin. unfold Pool.swept_events.
  induction ids as [|id' ids IH]; simpl; [reflexivity|].
  rewrite getitem_remove_ne.
  - f_equal. apply IH. intros H. apply Hnotin. right. exact H.
  - intros ->. apply Hnotin. left. reflexivity.
Qed.

(** The second loop of [cleanup_expired_sessions] over distinct keys that
    are all in the pool. *)
Lemma sweep_loop_run (ids : list string) :
  List.NoDup ids ->
  forall s : Pool.st,
    (forall id, In id ids -> In id (OrderedDict.keys (SessionManager._sessions (self s)))) ->
    SessionManager.for_each ids (fun session_id =>
      m <- get ;;
      match OrderedDict.pop session_id (SessionManager._sessions m) with
      | Some (metadata, rest) =>
          modify (SessionManager.set_sessions rest) ;;;
          SessionManager._close_session env session_id metadata ;;;
          modify (SessionManager.update_stats Stats.incr_sessions_expired)
      | None => raise (Exception "KeyError")
      end) s =
    (Ok tt, Pool.settle 0 (Pool.swept_events env (SessionManager._sessions (self s)) ids)
              (Pool.popped ids (SessionManager._sessions (self s)))
              (Nat.iter (List.length ids) Stats.incr_sessions_expired) s).
Proof.
  induction 1 as [|id ids Hnotin Hnd IH]; intros s Hin.
  - simpl. unfold ret. rewrite settle_0_id. reflexivity.
  - cbn [SessionManager.for_each].
    destruct (OrderedDict.getitem id (SessionManager._sessions (self s)))
      as [metadata|] eqn:Hget.
    2:{ exfalso. apply getitem_None in Hget. apply Hget, Hin. left. reflexivity. }
    erewrite bind_ok by (apply sweep_body_run; exact Hget).
    rewrite IH.
    + rewrite settle_0_settle_0.
      unfold Pool.settle at 2 3 4. cbn [self SessionManager._sessions SessionManager.set_sessions].
      rewrite swept_events_remove by exact Hnotin.
      unfold Pool.swept_events at 2. cbn [flat_map]. rewrite Hget.
      unfold Pool.settle. cbn [Pool.popped fold_left List.length].
      f_equal. f_equal. f_equal.
      destruct s as [c l tr [? ? ? ? ? ? ? ?]].
      unfold SessionManager.update_stats.
      cbn [SessionManager.stats SessionManager.db_path SessionManager.max_sessions
           SessionManager.session_ttl SessionManager.cleanup_interval
           SessionManager._sessions SessionManager._cleanup_task
           SessionManager._running].
      rewrite Nat.iter_succ_r. reflexivity.
    + intros id' Hid'.
      unfold Pool.settle. cbn [self SessionManager._sessions SessionManager.set_sessions].
      assert (Hne : id' <> id) by (intros ->; contradiction).
      assert (Hk : In id' (OrderedDict.keys (SessionManager._sessions (self s)))).
      { apply Hin. right. exact Hid'. }
      destruct (OrderedDict.getitem id' (OrderedDict.remove id (SessionManager._sessions (self s))))
        eqn:E.
      * apply getitem_In in E. apply (in_map fst) in E. exact E.
      * rewrite getitem_remove_ne in E by exact Hne.
        apply getitem_None in E. contradiction.
Qed.

Lemma expired_ids_NoDup (now : Q) (ttl : Z) (d : Pool.dict) :
  List.NoDup (OrderedDict.keys d) ->
  List.NoDup (SessionManager.expired_ids now ttl d).
Proof.
  unfold SessionManager.expired_ids, OrderedDict.keys.
  induction d as [|[k v] d IH]; simpl; intros Hnd; [constructor|].
  inversion Hnd as [|? ? Hnotin Hnd']; subst.
  destruct (SessionManager.is_expired now ttl v); simpl; [|apply IH; exact Hnd'].
  constructor; [|apply IH; exact Hnd'].
  intros H. apply Hnotin. apply in_map_iff in H as ([k' v'] & Hk & Hin).
  apply filter_In in Hin as [Hin _]. simpl in Hk. subst.
  apply (in_map fst) in Hin. exact Hin.
Qed.

Lemma expired_ids_present (now : Q) (ttl : Z) (d : Pool.dict) (id : string) :
  In id (SessionManager.expired_ids now ttl d) -> In id (OrderedDict.keys d).
Proof.
  unfold SessionManager.expired_ids. intros H.
  apply in_map_iff in H as (kv & Hk & Hin).
  apply filter_In in Hin as [Hin _]. subst. apply in_map. exact Hin.
Qed.

Lemma popped_cons_absent (ids : list string) (k : string) (v : SessionMetadata.t)
  (d : Pool.dict) :
  ~ In k ids -> Pool.popped ids ((k, v) :: d) = (k, v) :: Pool.popped ids d.
Proof.
  revert d. induction ids as [|id ids IH]; intros d Hnotin; [reflexivity|].
  cbn [Pool.popped fold_left OrderedDict.remove].
  destruct (String.eqb id k) eqn:E.
  - apply String.eqb_eq in E. subst. exfalso. apply Hnotin. left. reflexivity.
  - apply IH. intros H. apply Hnotin. right. exact H.
Qed.

(** Popping the expired keys leaves the other entries, untouched and in
    their order. *)
Lemma popped_expired (now : Q) (ttl : Z) (d : Pool.dict) :
  List.NoDup (OrderedDict.keys d) ->
  Pool.popped (SessionManager.expired_ids now ttl d) d =
  List.filter (fun kv => negb (SessionManager.is_expired now ttl (snd kv))) d.
Proof.
  induction d as [|[k v] d IH]; intros Hnd; [reflexivity|].
  inversion Hnd as [|? ? Hnotin Hnd']; subst.
  unfold SessionManager.expired_ids. cbn [List.filter snd].
  destruct (SessionManager.is_expired now ttl v); cbn [negb map fst].
  - cbn [Pool.popped fold_left OrderedDict.remove]. rewrite String.eqb_refl.
    apply IH. exact Hnd'.
  - rewrite popped_cons_absent.
    + f_equal. apply IH. exact Hnd'.
    + intros H. apply Hnotin. apply (expired_ids_present _ _ _ _ H).
Qed.

Lemma swept_events_cons (d : Pool.dict) (id : string) (ids : list string) :
  Pool.swept_events env d (id :: ids) =
  match OrderedDict.getitem id d with
  | Some metadata => Pool.close_events env metadata
  | None => []
  end ++ Pool.swept_events env d ids.
Proof. reflexivity. Qed.

Lemma swept_events_cons_absent (ids : list string) (k : string) (v : SessionMetadata.t)
  (d : Pool.dict) :
  ~ In k ids ->
  Pool.swept_events env ((k, v) :: d) ids = Pool.swept_events env d ids.
Proof.
  intros Hnotin. unfold Pool.swept_events.
  induction ids as [|id ids IH]; [reflexivity|].
  cbn [flat_map OrderedDict.getitem].
  destruct (String.eqb id k) eqn:E.
  - apply String.eqb_eq in E. subst. exfalso. apply Hnotin. left. reflexivity.
  - f_equal. apply IH. intros H. apply Hnotin. right. exact H.
Qed.

(** The handles closed by the sweep are those of the expired entries, in
    pool order. *)
Lemma swept_events_expired (now : Q) (ttl : Z) (d : Pool.dict) :
  List.NoDup (OrderedDict.keys d) ->
  Pool.swept_events env d (SessionManager.expired_ids now ttl d) =
  flat_map (fun kv => Pool.close_events env (snd kv))
           (List.filter (fun kv => SessionManager.is_expired now ttl (snd kv)) d).
Proof.
  induction d as [|[k v] d IH]; intros Hnd; [reflexivity|].
  inversion Hnd as [|? ? Hnotin Hnd']; subst.
  assert (Habs : ~ In k (SessionManager.expired_ids now ttl d)).
  { intros H. apply Hnotin. apply (expired_ids_present _ _ _ _ H). }
  unfold SessionManager.expired_ids. cbn [List.filter snd].
  fold (SessionManager.expired_ids now ttl d).
  destruct (SessionManager.is_expired now ttl v); cbn [map fst flat_map snd];
    fold (SessionManager.expired_ids now ttl d).
  - rewrite swept_events_cons. cbn [OrderedDict.getitem].
    rewrite String.eqb_refl. f_equal.
    rewrite swept_events_cons_absent by exact Habs.
    apply IH. exact Hnd'.
  - rewrite swept_events_cons_absent by exact Habs.
    apply IH. exact Hnd'.
Qed.

Lemma cleared_close_events (metadata : SessionMetadata.t) :
  Pool.cleared (Pool.close_events env metadata) =
  [SQLiteSession.session_id (SessionMetadata.session metadata)].
Proof.
  unfold Pool.close_events, Pool.cleared.
  destruct (SQLiteSession.clear_session_raises env _);
    [reflexivity|].
  destruct (SQLiteSession.has_close env _); [|reflexivity].
  destruct (SQLiteSession.close_raises env _); reflexivity.
Qed.

Lemma cleared_app (tr1 tr2 : list (event SessionManager.t)) :
  Pool.cleared (tr1 ++ tr2) = Pool.cleared tr1 ++ Pool.cleared tr2.
Proof. unfold Pool.cleared. apply flat_map_app. Qed.

Lemma cleared_closed_all (l : Pool.dict) :
  Pool.cleared (flat_map (fun kv => Pool.close_events env (snd kv)) l) =
  map (fun kv => SQLiteSession.session_id (SessionMetadata.session (snd kv))) l.
Proof.
  induction l as [|kv l IH]; [reflexivity|].
  cbn [flat_map map]. rewrite cleared_app, cleared_close_events, IH. reflexivity.
Qed.

(** [cleanup_expired_sessions] on a pool with distinct keys. *)
Lemma cleanup_run (s : Pool.st) :
  List.NoDup (OrderedDict.keys (SessionManager._sessions (self s))) ->
  let d := SessionManager._sessions (self s) in
  let ids := SessionManager.expired_ids (clock s + hd 0 (latency s))
               (SessionManager.session_ttl (self s)) d in
  SessionManager.cleanup_expired_sessions env s =
  (Ok (Z.of_nat (List.length ids)),
   Pool.settle 1
     ([LockAcquired] ++ Pool.swept_events env d ids ++
      match ids with
      | [] => []
      | _ => [Logged INFO "Expired sessions cleaned up"]
      end ++ [LockReleased])
     (Pool.popped ids d)
     (Nat.iter (List.length ids) Stats.incr_sessions_expired) s).
Proof.
  intros Hnd d ids.
  assert (Hids : List.NoDup ids) by (apply expired_ids_NoDup; exact Hnd).
  assert (Hin : forall id, In id ids -> In id (OrderedDict.keys d)).
  { intros id Hid. apply (expired_ids_present _ _ _ _ Hid). }
  unfold SessionManager.cleanup_expired_sessions.
  rewrite (@with_lock_run _ _ _ s
             (Pool.settle 1
                ([LockAcquired] ++ Pool.swept_events env d ids ++
                 match ids with
                 | [] => []
                 | _ => [Logged INFO "Expired sessions cleaned up"]
                 end)
                (Pool.popped ids d)
                (Nat.iter (List.length ids) Stats.incr_sessions_expired) s)
             (Z.of_nat (List.length ids))).
  - destruct s as [c l tr m]. unfold Pool.settle.
    cbn [Pool.ticks clock latency trace self].
    rewrite <- ?app_assoc. cbn [app]. rewrite <- ?app_assoc. reflexivity.
  - unfold bind at 1. unfold time_time at 1. cbv beta iota zeta.
    cbn [clock latency trace self].
    unfold bind at 1. unfold get at 1. cbv beta iota.
    cbn [clock latency trace self].
    fold d. fold ids.
    erewrite bind_ok by (apply sweep_loop_run; [exact Hids | exact Hin]).
    cbn [self]. fold d.
    destruct s as [c l tr m]. unfold Pool.settle.
    cbn [Pool.ticks clock latency trace self].
    destruct ids; unfold bind, ret, log, emit; cbn [clock latency trace self];
      rewrite <- ?app_assoc; cbn [app]; rewrite ?app_nil_r; reflexivity.
Qed.

Lemma evict_run (s : Pool.st) :
  SessionManager._evict_oldest_session env s = (Ok tt, Pool.evict env s).
Proof.
  unfold SessionManager._evict_oldest_session, Pool.evict.
  unfold bind at 1. unfold get at 1. cbv beta iota.
  destruct (SessionManager._sessions (self s)) as [|[session_id metadata] rest];
    [reflexivity|].
  cbn [OrderedDict.popitem_first].
  unfold bind at 1. unfold modify at 1. cbv beta iota.
  unfold bind at 1. rewrite close_session_run.
  destruct s as [c l tr [? ? ? ? ? ? ? ?]].
  unfold bind, modify, time_time, log, emit, Pool.settle.
  cbn [Pool.ticks clock latency trace self]. rewrite <- !app_assoc. reflexivity.
Qed.

Lemma make_room_run (max_sessions : Z) (d : Pool.dict) (s : Pool.st) :
  max_sessions = SessionManager.max_sessions (self s) ->
  d = SessionManager._sessions (self s) ->
  (if (max_sessions <=? Z.of_nat (List.length d))%Z
   then SessionManager._evict_oldest_session env
   else ret tt) s = (Ok tt, Pool.make_room env s).
Proof.
  intros -> ->. unfold Pool.make_room.
  destruct (_ <=? _)%Z; [apply evict_run | reflexivity].
Qed.

Lemma make_room_db_path (s : Pool.st) :
  SessionManager.db_path (self (Pool.make_room env (Pool.missed s))) =
  SessionManager.db_path (self s).
Proof.
  unfold Pool.make_room, Pool.evict, Pool.missed.
  destruct s as [c l tr [? ? ? ? d ? ? ?]].
  cbn [self Pool.settle SessionManager.max_sessions SessionManager._sessions
       SessionManager.set_sessions SessionManager.update_stats].
  destruct (_ <=? _)%Z; [|reflexivity].
  destruct d as [|[k v] d]; reflexivity.
Qed.

Lemma get_session_run (session_id : string) (s : Pool.st) :
  SessionManager.get_session env session_id s =
  (match OrderedDict.getitem session_id (SessionManager._sessions (self s)) with
   | Some metadata =>
       Ok (SessionMetadata.session metadata)
   | None =>
       match SQLiteSession.init_raises env session_id with
       | Some msg => Raise (Exception msg)
       | None => Ok (SQLiteSession.mk session_id (SessionManager.db_path (self s)))
       end
   end,
   Pool.got env session_id s).
Proof.
  unfold SessionManager.get_session, Pool.got, with_lock, emit.
  cbv beta iota.
  unfold bind at 1. unfold get at 1. cbv beta iota.
  cbn [self].
  destruct (OrderedDict.getitem session_id (SessionManager._sessions (self s)))
    as [metadata|] eqn:Hget.
  - destruct s as [c l tr [? ? ? ? ? ? ? ?]].
    unfold bind, time_time, modify, log, emit, ret, Pool.unlocked, Pool.touched,
      Pool.settle.
    cbn [Pool.ticks clock latency trace self SessionManager._sessions
         SessionManager.set_sessions SessionManager.update_stats
         SessionMetadata.update_access SessionMetadata.session fst snd].
    rewrite <- !app_assoc. reflexivity.
  - unfold bind at 1. unfold modify at 1. cbv beta iota.
    cbn [clock latency trace self].
    unfold bind at 1.
    rewrite (@make_room_run _ _ (Pool.missed s)).
    2:{ destruct s as [c l tr [? ? ? ? ? ? ? ?]]. reflexivity. }
    2:{ destruct s as [c l tr [? ? ? ? ? ? ? ?]]. reflexivity. }
    pose proof (make_room_db_path s) as Hdb. rewrite <- Hdb.
    clear Hdb. generalize (Pool.make_room env (Pool.missed s)). intros t.
    unfold bind at 1. unfold SessionManager.new_session.
    unfold bind at 1. unfold get at 1. cbv beta iota.
    unfold bind at 1. unfold emit at 1. cbv beta iota.
    destruct (SQLiteSession.init_raises env session_id) as [msg|].
    + destruct t as [c l tr [? ? ? ? ? ? ? ?]].
      unfold raise, Pool.unlocked, Pool.opened, Pool.settle.
      cbn [Pool.ticks clock latency trace self fst snd SessionManager._sessions
           SessionManager.set_sessions SessionManager.update_stats
           SessionManager.db_path SessionManager.stats SessionManager.max_sessions
           SessionManager.session_ttl SessionManager.cleanup_interval
           SessionManager._cleanup_task SessionManager._running].
      reflexivity.
    + destruct t as [c l tr [? ? ? ? ? ? ? ?]].
      unfold bind, ret, time_time, modify, log, emit, Pool.unlocked, Pool.opened,
        Pool.inserted, Pool.fresh_entry, Pool.settle.
      cbn [Pool.ticks clock latency trace self fst snd SessionManager._sessions
           SessionManager.set_sessions SessionManager.update_stats
           SessionManager.db_path SessionManager.stats SessionManager.max_sessions
           SessionManager.session_ttl SessionManager.cleanup_interval
           SessionManager._cleanup_task SessionManager._running].
      rewrite <- !app_assoc. reflexivity.
Qed.

Lemma remove_session_run (session_id : string) (s : Pool.st) :
  SessionManager.remove_session env session_id s =
  (Ok tt, Pool.removed env session_id s).
Proof.
  unfold SessionManager.remove_session, Pool.removed, with_lock, emit.
  cbv beta iota.
  unfold bind at 1. unfold get at 1. cbv beta iota. cbn [self].
  unfold OrderedDict.pop.
  destruct (OrderedDict.getitem session_id (SessionManager._sessions (self s)))
    as [metadata|].
  - unfold bind at 1. unfold modify at 1. cbv beta iota.
    unfold bind at 1. rewrite close_session_run.
    destruct s as [c l tr [? ? ? ? ? ? ? ?]].
    unfold log, emit, Pool.settle.
    cbn [Pool.ticks clock latency trace self fst snd].
    rewrite <- !app_assoc. reflexivity.
  - destruct s as [c l tr [? ? ? ? ? ? ? ?]].
    unfold ret, Pool.settle. cbn [Pool.ticks clock latency trace self fst snd].
    rewrite <- !app_assoc. reflexivity.
Qed.

(** The loop of [shutdown] over the entries of the pool. *)
Lemma close_all_run (l : Pool.dict) :
  forall s : Pool.st,
    SessionManager.for_each l
      (fun kv => SessionManager._close_session env (fst kv) (snd kv)) s =
    (Ok tt, mkState (clock s) (latency s)
              (trace s ++ flat_map (fun kv => Pool.close_events env (snd kv)) l)
              (self s)).
Proof.
  induction l as [|kv l IH]; intros s.
  - cbn [SessionManager.for_each flat_map]. rewrite app_nil_r.
    destruct s; reflexivity.
  - cbn [SessionManager.for_each flat_map].
    erewrite bind_ok by apply close_session_run.
    rewrite IH. cbn [clock latency trace self]. rewrite <- app_assoc. reflexivity.
Qed.

Lemma shutdown_run (s : Pool.st) :
  SessionManager.shutdown env s = (Ok tt, Pool.shut_down env s).
Proof.
  unfold SessionManager.shutdown, Pool.shut_down.
  unfold bind at 1. unfold log at 1, emit at 1. cbv beta iota.
  unfold bind at 1. unfold modify at 1. cbv beta iota.
  unfold bind at 1. unfold get at 1. cbv beta iota.
  cbn [clock latency trace self].
  unfold bind at 1.
  destruct s as [c l tr [db ms ttl ci d task run sts]].
  cbn [clock latency trace self SessionManager._cleanup_task
       SessionManager.set_running SessionManager.db_path SessionManager.max_sessions
       SessionManager.session_ttl SessionManager.cleanup_interval
       SessionManager._sessions SessionManager.stats].
  destruct task as [task|];
    unfold emit, ret; cbv beta iota;
    unfold bind at 1; unfold with_lock, emit; cbv beta iota;
    unfold bind at 1; unfold get at 1; cbv beta iota;
    cbn [clock latency trace self SessionManager._sessions];
    unfold bind at 1; rewrite close_all_run;
    unfold modify, log, emit;
    cbn [clock latency trace self fst snd SessionManager.set_sessions
         SessionManager.db_path SessionManager.max_sessions
         SessionManager.session_ttl SessionManager.cleanup_interval
         SessionManager._sessions SessionManager.stats
         SessionManager._cleanup_task SessionManager._running];
    rewrite <- !app_assoc; reflexivity.
Qed.

End PoolRuns.

Lemma stats_after_expiries (n : nat) (st : Stats.t) :
  Stats.sessions_expired (Nat.iter n Stats.incr_sessions_expired st) =
    (Stats.sessions_expired st + Z.of_nat n)%Z /\
  Stats.sessions_created (Nat.iter n Stats.incr_sessions_expired st) =
    Stats.sessions_created st /\
  Stats.sessions_evicted (Nat.iter n Stats.incr_sessions_expired st) =
    Stats.sessions_evicted st /\
  Stats.cache_hits (Nat.iter n Stats.incr_sessions_expired st) = Stats.cache_hits st /\
  Stats.cache_misses (Nat.iter n Stats.incr_sessions_expired st) = Stats.cache_misses st.
Proof.
  induction n as [|n (IH1 & IH2 & IH3 & IH4 & IH5)].
  - cbn [Nat.iter nat_rect]. repeat split. lia.
  - rewrite Nat.iter_succ. unfold Stats.incr_sessions_expired at 1 3 5 7 9.
    cbn [Stats.sessions_expired Stats.sessions_created Stats.sessions_evicted
         Stats.cache_hits Stats.cache_misses].
    repeat split; try assumption. lia.
Qed.

Lemma is_expired_iff (now : Q) (ttl : Z) (metadata : SessionMetadata.t) :
  SessionManager.is_expired now ttl metadata = true <->
  inject_Z ttl < now - SessionMetadata.last_accessed metadata.
Proof. unfold SessionManager.is_expired. apply Qgtb_true. Qed.

(** C7 (sweepExpired exactness).  With [now] the time the sweep reads, the
    sweep returns the number of entries whose age [now - last_accessed]
    exceeds [session_ttl]; exactly those entries are removed and the
    others stay, untouched and in their order; [clear_session] is called
    once on the handle of each removed entry (closing never raises, see
    [close_session_run]); [sessions_expired] grows by that number and the
    other statistics do not change. *)
Theorem sweep_expired_exact (env : SQLiteSession.behaviour) (s : Pool.st) :
  List.NoDup (OrderedDict.keys (SessionManager._sessions (self s))) ->
  let d := SessionManager._sessions (self s) in
  let now := clock s + hd 0 (latency s) in
  let ttl := SessionManager.session_ttl (self s) in
  let expired := List.filter (fun kv => SessionManager.is_expired now ttl (snd kv)) d in
  exists s' evs,
    SessionManager.cleanup_expired_sessions env s =
      (Ok (Z.of_nat (List.length expired)), s') /\
    (forall kv, In kv d ->
       (In kv expired <-> inject_Z ttl < now - SessionMetadata.last_accessed (snd kv))) /\
    (forall kv, In kv d ->
       (In kv (SessionManager._sessions (self s')) <->
        ~ inject_Z ttl < now - SessionMetadata.last_accessed (snd kv))) /\
    SessionManager._sessions (self s') =
      List.filter (fun kv => negb (SessionManager.is_expired now ttl (snd kv))) d /\
    trace s' = trace s ++ evs /\
    Pool.cleared evs =
      map (fun kv => SQLiteSession.session_id (SessionMetadata.session (snd kv))) expired /\
    Stats.sessions_expired (SessionManager.stats (self s')) =
      (Stats.sessions_expired (SessionManager.stats (self s)) +
       Z.of_nat (List.length expired))%Z /\
    Stats.sessions_created (SessionManager.stats (self s')) =
      Stats.sessions_created (SessionManager.stats (self s)) /\
    Stats.sessions_evicted (SessionManager.stats (self s')) =
      Stats.sessions_evicted (SessionManager.stats (self s)) /\
    Stats.cache_hits (SessionManager.stats (self s')) =
      Stats.cache_hits (SessionManager.stats (self s)) /\
    Stats.cache_misses (SessionManager.stats (self s')) =
      Stats.cache_misses (SessionManager.stats (self s)).
Proof.
  intros Hnd d now ttl expired.
  pose proof (cleanup_run env s Hnd) as Hrun. cbv zeta in Hrun.
  fold d now ttl in Hrun.
  assert (Hlen : List.length (SessionManager.expired_ids now ttl d) = List.length expired).
  { unfold SessionManager.expired_ids. apply length_map. }
  rewrite Hlen in Hrun.
  eexists. eexists.
  split; [exact Hrun|].
  split.
  { intros kv Hkv. unfold expired. rewrite filter_In, is_expired_iff. tauto. }
  assert (Hkept : SessionManager._sessions
                    (self (Pool.settle 1
                       ([LockAcquired] ++
                        Pool.swept_events env d (SessionManager.expired_ids now ttl d) ++
                        match SessionManager.expired_ids now ttl d with
                        | [] => []
                        | _ :: _ => [Logged INFO "Expired sessions cleaned up"]
                        end ++ [LockReleased])
                       (Pool.popped (SessionManager.expired_ids now ttl d) d)
                       (Nat.iter (List.length expired) Stats.incr_sessions_expired) s)) =
                  List.filter (fun kv => negb (SessionManager.is_expired now ttl (snd kv))) d).
  { unfold Pool.settle. cbn [self SessionManager._sessions SessionManager.set_sessions].
    apply popped_expired. exact Hnd. }
  split.
  { intros kv Hkv. rewrite Hkept, filter_In, negb_true_iff.
    rewrite <- is_expired_iff.
    destruct (SessionManager.is_expired now ttl (snd kv)); split.
    - intros [_ H]; discriminate.
    - intros H. exfalso. apply H. reflexivity.
    - intros _. discriminate.
    - intros _. split; [exact Hkv | reflexivity]. }
  split; [exact Hkept|].
  split; [reflexivity|].
  split.
  { rewrite !cleared_app. rewrite (swept_events_expired env now ttl d Hnd).
    rewrite cleared_closed_all. fold expired.
    replace (Pool.cleared [LockAcquired]) with (@nil string) by reflexivity.
    replace (Pool.cleared [LockReleased]) with (@nil string) by reflexivity.
    destruct (SessionManager.expired_ids now ttl d);
      cbn [app]; rewrite ?app_nil_r; reflexivity. }
  unfold Pool.settle.
  cbn [self SessionManager.stats SessionManager.set_sessions SessionManager.update_stats].
  apply stats_after_expiries.
Qed.

Lemma example_pool_keys_distinct :
  List.NoDup (OrderedDict.keys (SessionManager._sessions (self Pool.example_pool))).
Proof.
  cbn. constructor.
  - intros [H|[]]. discriminate.
  - constructor; [intros []|constructor].
Defined.

Lemma sweep_expired_exact_witness :
  exists s',
    SessionManager.cleanup_expired_sessions Pool.well_behaved Pool.example_pool =
      (Ok 1%Z, s') /\
    OrderedDict.keys (SessionManager._sessions (self s')) = ["b"%string].
Proof.
  destruct (sweep_expired_exact Pool.well_behaved Pool.example_pool
              example_pool_keys_distinct)
    as (s' & evs & Hrun & _ & _ & Hkept & _).
  exists s'. split; [exact Hrun|]. rewrite Hkept. reflexivity.
Defined.

Lemma close_failure_logged (env : SQLiteSession.behaviour) (metadata : SessionMetadata.t) :
  Pool.close_fails env metadata ->
  In (Logged ERROR "Failed to close session") (Pool.close_events env metadata).
Proof.
  unfold Pool.close_fails, Pool.close_events. cbv zeta.
  intros [H|(H1 & H2 & H3)].
  - destruct (SQLiteSession.clear_session_raises env _); [|congruence].
    right. left. reflexivity.
  - rewrite H1, H2.
    destruct (SQLiteSession.close_raises env _); [|congruence].
    right. right. left. reflexivity.
Qed.

(** C9 (resource-close failures never propagate).  Whatever the handles do
    when they are cleared and closed, closing one returns normally and a
    failure is logged as an error; hence eviction, explicit removal, the
    expiry sweep and shutdown return normally, and [get_session] returns
    the handle unless the constructor of a new handle itself raises, which
    is not a teardown error. *)
Theorem close_failures_never_propagate (env : SQLiteSession.behaviour) (s : Pool.st) :
  List.NoDup (OrderedDict.keys (SessionManager._sessions (self s))) ->
  (forall session_id metadata,
     SessionManager._close_session env session_id metadata s =
       (Ok tt, mkState (clock s) (latency s)
                       (trace s ++ Pool.close_events env metadata) (self s)) /\
     (Pool.close_fails env metadata ->
      In (Logged ERROR "Failed to close session") (Pool.close_events env metadata))) /\
  SessionManager._evict_oldest_session env s = (Ok tt, Pool.evict env s) /\
  (forall session_id,
     SessionManager.remove_session env session_id s =
       (Ok tt, Pool.removed env session_id s)) /\
  (exists n s', SessionManager.cleanup_expired_sessions env s = (Ok n, s')) /\
  SessionManager.shutdown env s = (Ok tt, Pool.shut_down env s) /\
  (forall session_id,
     (exists h, SessionManager.get_session env session_id s =
                  (Ok h, Pool.got env session_id s)) \/
     (exists msg,
        OrderedDict.getitem session_id (SessionManager._sessions (self s)) = None /\
        SQLiteSession.init_raises env session_id = Some msg /\
        SessionManager.get_session env session_id s =
          (Raise (Exception msg), Pool.got env session_id s))).
Proof.
  intros Hnd.
  split.
  { intros session_id metadata. split;
      [apply close_session_run | apply close_failure_logged]. }
  split; [apply evict_run|].
  split; [intros session_id; apply remove_session_run|].
  split.
  { eexists. eexists. apply cleanup_run. exact Hnd. }
  split; [apply shutdown_run|].
  intros session_id. rewrite get_session_run.
  destruct (OrderedDict.getitem session_id (SessionManager._sessions (self s)))
    as [metadata|].
  - left. eexists. reflexivity.
  - destruct (SQLiteSession.init_raises env session_id) as [msg|].
    + right. exists msg. repeat split.
    + left. eexists. reflexivity.
Qed.

Lemma close_failures_never_propagate_witness :
  SessionManager.shutdown Pool.always_failing Pool.example_pool =
    (Ok tt, Pool.shut_down Pool.always_failing Pool.example_pool) /\
  In (Logged ERROR "Failed to close session")
     (trace (Pool.shut_down Pool.always_failing Pool.example_pool)).
Proof.
  destruct (close_failures_never_propagate Pool.always_failing Pool.example_pool
              example_pool_keys_distinct)
    as (_ & _ & _ & _ & Hshutdown & _).
  split; [exact Hshutdown|].
  cbn. do 3 right. left. reflexivity.
Defined.

(** *** The pool after each operation *)

Section PoolShape.
Variable env : SQLiteSession.behaviour.

Lemma make_room_sessions (s : Pool.st) :
  SessionManager._sessions (self (Pool.make_room env (Pool.missed s))) =
    Pool.roomy (SessionManager.max_sessions (self s)) (SessionManager._sessions (self s)) /\
  SessionManager.max_sessions (self (Pool.make_room env (Pool.missed s))) =
    SessionManager.max_sessions (self s).
Proof.
  unfold Pool.make_room, Pool.evict, Pool.missed, Pool.roomy.
  destruct s as [c l tr [? M ? ? d ? ? ?]].
  cbn [self Pool.settle SessionManager.max_sessions SessionManager._sessions
       SessionManager.set_sessions SessionManager.update_stats].
  destruct (_ <=? _)%Z; [|split; reflexivity].
  destruct d as [|[k v] d]; split; reflexivity.
Qed.

Lemma got_sessions_eq (session_id : string) (s : Pool.st) :
  SessionManager._sessions (self (Pool.got env session_id s)) =
    Pool.got_sessions env session_id s /\
  SessionManager.max_sessions (self (Pool.got env session_id s)) =
    SessionManager.max_sessions (self s).
Proof.
  unfold Pool.got, Pool.got_sessions. cbv zeta.
  destruct (OrderedDict.getitem session_id (SessionManager._sessions (self s)))
    as [metadata|].
  - destruct s as [c l tr [? ? ? ? ? ? ? ?]]. split; reflexivity.
  - destruct (make_room_sessions s) as [Hd HM]. rewrite <- Hd, <- HM.
    generalize (Pool.make_room env (Pool.missed s)). intros t.
    destruct (SQLiteSession.init_raises env session_id);
      destruct t as [c l tr [? ? ? ? ? ? ? ?]]; split; reflexivity.
Qed.

Lemma removed_sessions_eq (session_id : string) (s : Pool.st) :
  SessionManager._sessions (self (Pool.removed env session_id s)) =
    OrderedDict.remove session_id (SessionManager._sessions (self s)) /\
  SessionManager.max_sessions (self (Pool.removed env session_id s)) =
    SessionManager.max_sessions (self s).
Proof.
  unfold Pool.removed.
  destruct (OrderedDict.getitem session_id (SessionManager._sessions (self s)))
    as [metadata|] eqn:E.
  - destruct s as [c l tr [? ? ? ? ? ? ? ?]]. split; reflexivity.
  - apply getitem_None in E. rewrite (remove_absent _ _ E).
    destruct s as [c l tr [? ? ? ? ? ? ? ?]]. split; reflexivity.
Qed.

Lemma roomy_NoDup (M : Z) (d : Pool.dict) :
  List.NoDup (OrderedDict.keys d) -> List.NoDup (OrderedDict.keys (Pool.roomy M d)).
Proof.
  intros Hnd. unfold Pool.roomy. destruct (_ <=? _)%Z; [|exact Hnd].
  destruct d as [|kv d]; [exact Hnd|].
  inversion Hnd; assumption.
Qed.

(** For a capacity of at least one, there is room for one more entry
    after the eviction test. *)
Lemma roomy_length (M : Z) (d : Pool.dict) :
  (1 <= M)%Z -> (Z.of_nat (List.length d) <= M)%Z ->
  (Z.of_nat (List.length (Pool.roomy M d)) + 1 <= M)%Z.
Proof.
  intros HM Hlen. unfold Pool.roomy.
  destruct (M <=? Z.of_nat (List.length d))%Z eqn:E.
  - apply Z.leb_le in E. destruct d as [|kv d]; cbn [List.length tl] in *; lia.
  - apply Z.leb_gt in E. lia.
Qed.

Lemma roomy_length_le (M : Z) (d : Pool.dict) :
  (List.length (Pool.roomy M d) <= List.length d)%nat.
Proof.
  unfold Pool.roomy. destruct (_ <=? _)%Z; [|lia].
  destruct d; cbn [List.length tl]; lia.
Qed.

Lemma got_bounded (session_id : string) (s : Pool.st) :
  (1 <= SessionManager.max_sessions (self s))%Z ->
  Pool.bounded s -> Pool.bounded (Pool.got env session_id s).
Proof.
  intros HM [Hlen Hnd]. unfold Pool.bounded.
  destruct (got_sessions_eq session_id s) as [-> ->].
  unfold Pool.got_sessions. cbv zeta.
  destruct (OrderedDict.getitem session_id (SessionManager._sessions (self s)))
    as [metadata|] eqn:Hget.
  - assert (Hin : In session_id (OrderedDict.keys (SessionManager._sessions (self s)))).
    { apply getitem_In in Hget. apply (in_map fst) in Hget. exact Hget. }
    split.
    + rewrite move_to_end_length, length_setitem_present; [exact Hlen|exact Hin|].
      rewrite keys_setitem_present by exact Hin. exact Hin.
    + apply move_to_end_NoDup, setitem_NoDup. exact Hnd.
  - pose proof (roomy_length _ HM Hlen) as Hroom.
    pose proof (roomy_NoDup (SessionManager.max_sessions (self s)) _ Hnd) as Hnd'.
    destruct (SQLiteSession.init_raises env session_id).
    + split; [lia | exact Hnd'].
    + split; [|apply setitem_NoDup; exact Hnd'].
      pose proof (length_setitem_le
                    (Pool.roomy (SessionManager.max_sessions (self s))
                                (SessionManager._sessions (self s)))
                    session_id
                    (Pool.fresh_entry session_id
                       (Pool.opened session_id (Pool.make_room env (Pool.missed s))))).
      lia.
Qed.

Lemma removed_bounded (session_id : string) (s : Pool.st) :
  Pool.bounded s -> Pool.bounded (Pool.removed env session_id s).
Proof.
  intros [Hlen Hnd]. unfold Pool.bounded.
  destruct (removed_sessions_eq session_id s) as [-> ->].
  split; [|apply keys_remove_NoDup; exact Hnd].
  pose proof (length_remove_le (SessionManager._sessions (self s)) session_id). lia.
Qed.

Lemma filter_keys_NoDup (P : string * SessionMetadata.t -> bool) (d : Pool.dict) :
  List.NoDup (OrderedDict.keys d) -> List.NoDup (OrderedDict.keys (List.filter P d)).
Proof.
  induction d as [|kv d IH]; intros Hnd; [exact Hnd|].
  inversion Hnd as [|? ? Hnotin Hnd']; subst. cbn [List.filter].
  destruct (P kv); [|apply IH; exact Hnd'].
  cbn [OrderedDict.keys map]. constructor; [|apply IH; exact Hnd'].
  intros H. apply Hnotin. apply in_map_iff in H as (kv' & Hk & Hin).
  apply filter_In in Hin as [Hin _]. rewrite <- Hk. apply in_map. exact Hin.
Qed.

Lemma cleanup_bounded (s : Pool.st) :
  Pool.bounded s ->
  Pool.bounded (snd (SessionManager.cleanup_expired_sessions env s)) /\
  SessionManager.max_sessions (self (snd (SessionManager.cleanup_expired_sessions env s))) =
    SessionManager.max_sessions (self s).
Proof.
  intros [Hlen Hnd]. rewrite (cleanup_run env s Hnd). cbv zeta. cbn [snd].
  unfold Pool.bounded, Pool.settle.
  cbn [self SessionManager._sessions SessionManager.set_sessions].
  rewrite (popped_expired _ _ _ Hnd).
  split; [split|].
  - pose proof (filter_length_le
                  (fun kv => negb (SessionManager.is_expired
                                     (clock s + hd 0 (latency s))
                                     (SessionManager.session_ttl (self s)) (snd kv)))
                  (SessionManager._sessions (self s))) as Hle.
    destruct s as [c l tr [? ? ? ? ? ? ? ?]]. cbn in *. lia.
  - apply filter_keys_NoDup. exact Hnd.
  - destruct s as [c l tr [? ? ? ? ? ? ? ?]]. reflexivity.
Qed.

(** Every operation keeps the bound, for a capacity of at least one. *)
Lemma run_op_bounded (o : Pool.op) (s : Pool.st) :
  (1 <= SessionManager.max_sessions (self s))%Z ->
  Pool.bounded s ->
  Pool.bounded (Pool.run_op env o s) /\
  SessionManager.max_sessions (self (Pool.run_op env o s)) =
    SessionManager.max_sessions (self s).
Proof.
  intros HM Hb. destruct o as [session_id|session_id|]; cbn [Pool.run_op].
  - rewrite get_session_run. cbn [snd].
    split; [apply got_bounded; assumption | apply got_sessions_eq].
  - rewrite remove_session_run. cbn [snd].
    split; [apply removed_bounded; assumption | apply removed_sessions_eq].
  - apply cleanup_bounded. exact Hb.
Qed.

Lemma run_ops_bounded (ops : list Pool.op) :
  forall s : Pool.st,
    (1 <= SessionManager.max_sessions (self s))%Z ->
    Pool.bounded s ->
    Pool.bounded (Pool.run_ops env ops s).
Proof.
  induction ops as [|o ops IH]; intros s HM Hb; [exact Hb|].
  cbn [Pool.run_ops]. destruct (@run_op_bounded o s HM Hb) as [Hb' HM'].
  apply IH; [rewrite HM'; exact HM | exact Hb'].
Qed.

Lemma roomy_victim (M : Z) (d : Pool.dict) :
  match Pool.victim M d with
  | Some kv => d = kv :: Pool.roomy M d
  | None => Pool.roomy M d = d
  end.
Proof.
  unfold Pool.victim, Pool.roomy.
  destruct (_ <=? _)%Z; [|reflexivity].
  destruct d as [|kv d]; reflexivity.
Qed.

Lemma cleared_nil_events (tr : list (event SessionManager.t)) (ev : event SessionManager.t) :
  (forall target, ev <> Called "clear_session" target) ->
  Pool.cleared (tr ++ [ev]) = Pool.cleared tr.
Proof.
  intros H. rewrite cleared_app.
  destruct ev as [lvl msg| | |dur vis|method target];
    try (cbn [Pool.cleared flat_map app]; apply app_nil_r).
  cbn [Pool.cleared flat_map app].
  destruct (String.eqb method "clear_session") eqn:E; [|apply app_nil_r].
  apply String.eqb_eq in E. subst. exfalso. apply (H target). reflexivity.
Qed.

(** The eviction test, from any state. *)
Lemma make_room_fields (t : Pool.st) :
  let M := SessionManager.max_sessions (self t) in
  let d := SessionManager._sessions (self t) in
  let t' := Pool.make_room env t in
  SessionManager._sessions (self t') = Pool.roomy M d /\
  Pool.cleared (trace t') =
    Pool.cleared (trace t) ++
    match Pool.victim M d with
    | Some (_, metadata) => [SQLiteSession.session_id (SessionMetadata.session metadata)]
    | None => []
    end /\
  Stats.sessions_evicted (SessionManager.stats (self t')) =
    (Stats.sessions_evicted (SessionManager.stats (self t)) +
     match Pool.victim M d with Some _ => 1 | None => 0 end)%Z /\
  Stats.sessions_created (SessionManager.stats (self t')) =
    Stats.sessions_created (SessionManager.stats (self t)) /\
  SessionManager.db_path (self t') = SessionManager.db_path (self t) /\
  SessionManager.max_sessions (self t') = M.
Proof.
  destruct t as [c l tr [db M0 ttl ci d0 task run sts]].
  unfold Pool.make_room, Pool.evict, Pool.victim, Pool.roomy.
  cbn [self SessionManager.max_sessions SessionManager._sessions].
  destruct (M0 <=? Z.of_nat (List.length d0))%Z.
  - destruct d0 as [|[k0 md0] rest].
    + cbn [self trace hd_error tl]. rewrite app_nil_r.
      repeat split. cbn. lia.
    + unfold Pool.settle.
      cbn [self trace hd_error tl SessionManager._sessions SessionManager.set_sessions
           SessionManager.update_stats SessionManager.stats SessionManager.db_path
           SessionManager.max_sessions].
      split; [reflexivity|]. split.
      { rewrite app_assoc, cleared_nil_events by (intros target; discriminate).
        rewrite cleared_app, cleared_close_events. reflexivity. }
      repeat split.
  - cbn [self trace]. rewrite app_nil_r. repeat split. cbn. lia.
Qed.

(** A miss whose handle is created: what [get_session] leaves. *)
Lemma got_miss (session_id : string) (s : Pool.st) :
  OrderedDict.getitem session_id (SessionManager._sessions (self s)) = None ->
  SQLiteSession.init_raises env session_id = None ->
  let M := SessionManager.max_sessions (self s) in
  let d := SessionManager._sessions (self s) in
  let s' := Pool.got env session_id s in
  exists created_at,
    SessionManager._sessions (self s') =
      Pool.roomy M d ++
      [(session_id,
        SessionMetadata.mk (SQLiteSession.mk session_id (SessionManager.db_path (self s)))
                           created_at (clock s') 1)] /\
    Pool.cleared (trace s') =
      Pool.cleared (trace s) ++
      match Pool.victim M d with
      | Some (_, metadata) =>
          [SQLiteSession.session_id (SessionMetadata.session metadata)]
      | None => []
      end /\
    Stats.sessions_evicted (SessionManager.stats (self s')) =
      (Stats.sessions_evicted (SessionManager.stats (self s)) +
       match Pool.victim M d with Some _ => 1 | None => 0 end)%Z /\
    Stats.sessions_created (SessionManager.stats (self s')) =
      (Stats.sessions_created (SessionManager.stats (self s)) + 1)%Z /\
    SessionManager.db_path (self s') = SessionManager.db_path (self s) /\
    SessionManager.max_sessions (self s') = M.
Proof.
  intros Hget Hinit M d s'.
  assert (Habs : ~ In session_id (OrderedDict.keys (Pool.roomy M d))).
  { apply getitem_None in Hget. intros H. apply Hget.
    unfold Pool.roomy in H. fold d. destruct (_ <=? _)%Z; [|exact H].
    destruct d as [|kv d']; [exact H|]. right. exact H. }
  assert (H0 : SessionManager._sessions (self (Pool.missed s)) = d /\
               SessionManager.max_sessions (self (Pool.missed s)) = M /\
               Pool.cleared (trace (Pool.missed s)) = Pool.cleared (trace s) /\
               Stats.sessions_evicted (SessionManager.stats (self (Pool.missed s))) =
                 Stats.sessions_evicted (SessionManager.stats (self s)) /\
               Stats.sessions_created (SessionManager.stats (self (Pool.missed s))) =
                 Stats.sessions_created (SessionManager.stats (self s)) /\
               SessionManager.db_path (self (Pool.missed s)) =
                 SessionManager.db_path (self s)).
  { unfold Pool.missed, Pool.settle.
    cbn [self trace SessionManager._sessions SessionManager.set_sessions
         SessionManager.update_stats SessionManager.stats SessionManager.db_path
         SessionManager.max_sessions].
    rewrite cleared_nil_events by (intros target; discriminate).
    destruct s as [c l tr [db M0 ttl ci d0 task run sts]]. repeat split. }
  destruct H0 as (A1 & A2 & A3 & A4 & A5 & A6).
  pose proof (make_room_fields (Pool.missed s)) as H1. cbv zeta in H1.
  rewrite A1, A2, A3, A4, A5, A6 in H1.
  destruct H1 as (B1 & B2 & B3 & B4 & B5 & B6).
  unfold s', Pool.got. rewrite Hget, Hinit. cbv zeta.
  revert B1 B2 B3 B4 B5 B6.
  generalize (Pool.make_room env (Pool.missed s)). intros t B1 B2 B3 B4 B5 B6.
  destruct t as [c l tr [db M0 ttl ci d0 task run sts]].
  cbn [self trace SessionManager._sessions SessionManager.stats
       SessionManager.db_path SessionManager.max_sessions] in B1, B2, B3, B4, B5, B6.
  unfold Pool.unlocked, Pool.inserted, Pool.opened, Pool.fresh_entry, Pool.settle.
  cbn [Pool.ticks self trace clock latency SessionManager._sessions
       SessionManager.set_sessions SessionManager.update_stats SessionManager.stats
       SessionManager.db_path SessionManager.max_sessions].
  eexists. subst d0. rewrite (setitem_absent _ _ _ Habs), B5.
  split; [reflexivity|]. split.
  { rewrite !cleared_nil_events by (intros target; discriminate). exact B2. }
  split; [|split; [|split; assumption]].
  - cbn [Stats.sessions_evicted Stats.incr_sessions_created]. exact B3.
  - cbn [Stats.sessions_created Stats.incr_sessions_created]. rewrite B4. reflexivity.
Qed.

Lemma ticks_later (n : nat) :
  forall s : Pool.st, Pool.later s (Pool.ticks n s).
Proof.
  induction n as [|n IH]; intros s Hl; cbn [Pool.ticks].
  - split; [apply Qle_refl | exact Hl].
  - destruct (latency_hd_nonneg Hl) as [Hd Hl'].
    destruct (IH (mkState (clock s + hd 0 (latency s)) (tl (latency s))
                          (trace s) (self s)) Hl') as [Hc Hl''].
    cbn [clock] in Hc. split; [lra | exact Hl''].
Qed.

Lemma later_trans (s1 s2 s3 : Pool.st) :
  Pool.later s1 s2 -> Pool.later s2 s3 -> Pool.later s1 s3.
Proof.
  intros H12 H23 Hl. destruct (H12 Hl) as [Hc Hl2].
  destruct (H23 Hl2) as [Hc' Hl3]. split; [lra | exact Hl3].
Qed.

Lemma settle_later (n : nat) (evs : list (event SessionManager.t)) (d : Pool.dict)
  (f : Stats.t -> Stats.t) (s : Pool.st) :
  Pool.later s (Pool.settle n evs d f s).
Proof. intros Hl. unfold Pool.settle. cbn [clock latency]. apply ticks_later. exact Hl. Qed.

Lemma make_room_later (t : Pool.st) : Pool.later t (Pool.make_room env t).
Proof.
  unfold Pool.make_room, Pool.evict.
  destruct (_ <=? _)%Z; [|intros Hl; split; [apply Qle_refl | exact Hl]].
  destruct (SessionManager._sessions (self t)) as [|[k md] rest];
    [intros Hl; split; [apply Qle_refl | exact Hl] | apply settle_later].
Qed.

Lemma unlocked_later (t : Pool.st) : Pool.later t (Pool.unlocked t).
Proof. intros Hl. split; [apply Qle_refl | exact Hl]. Qed.

(** [get_session] never moves the clock backwards. *)
Lemma got_later (session_id : string) (s : Pool.st) :
  Pool.later s (Pool.got env session_id s).
Proof.
  unfold Pool.got.
  destruct (OrderedDict.getitem session_id (SessionManager._sessions (self s))).
  - eapply later_trans; [apply settle_later | apply unlocked_later].
  - assert (H : Pool.later s (Pool.opened session_id (Pool.make_room env (Pool.missed s)))).
    { eapply later_trans; [apply settle_later|].
      eapply later_trans; [apply make_room_later | apply settle_later]. }
    cbv zeta. destruct (SQLiteSession.init_raises env session_id).
    + eapply later_trans; [exact H | apply unlocked_later].
    + eapply later_trans; [exact H|].
      eapply later_trans; [apply settle_later | apply unlocked_later].
Qed.

Lemma victim_below_capacity (M : Z) (d : Pool.dict) :
  (Z.of_nat (List.length d) < M)%Z -> Pool.victim M d = None /\ Pool.roomy M d = d.
Proof.
  intros H. unfold Pool.victim, Pool.roomy.
  rewrite (proj2 (Z.leb_gt _ _) H). split; reflexivity.
Qed.

Lemma victim_at_capacity (M : Z) (kv : string * SessionMetadata.t) (d : Pool.dict) :
  (M <= Z.of_nat (List.length (kv :: d)))%Z ->
  Pool.victim M (kv :: d) = Some kv /\ Pool.roomy M (kv :: d) = d.
Proof.
  intros H. unfold Pool.victim, Pool.roomy.
  rewrite (proj2 (Z.leb_le _ _) H). split; reflexivity.
Qed.

Lemma sorted_append (d : Pool.dict) (kv : string * SessionMetadata.t) (c : Q) :
  StronglySorted
    (fun a b => SessionMetadata.last_accessed (snd a) <=
                SessionMetadata.last_accessed (snd b)) d ->
  Forall (fun x => SessionMetadata.last_accessed (snd x) <= c) d ->
  c <= SessionMetadata.last_accessed (snd kv) ->
  StronglySorted
    (fun a b => SessionMetadata.last_accessed (snd a) <=
                SessionMetadata.last_accessed (snd b)) (d ++ [kv]).
Proof.
  intros Hs Hf Hc. induction Hs as [|x d Hs IH Hx]; cbn [app].
  - constructor; constructor.
  - inversion Hf as [|? ? Hxc Hf']; subst.
    constructor; [apply IH; exact Hf'|].
    apply Forall_app. split; [exact Hx|].
    constructor; [|constructor]. cbn beta. lra.
Qed.

Lemma get_all_app (ids1 ids2 : list string) :
  forall s : Pool.st,
    Pool.get_all env (ids1 ++ ids2) s = Pool.get_all env ids2 (Pool.get_all env ids1 s).
Proof.
  induction ids1 as [|id ids1 IH]; intros s; [reflexivity|].
  cbn [app Pool.get_all]. apply IH.
Qed.

(** Filling a pool with new keys while there is room: nothing is evicted
    and the new entries line up behind the old ones, in recency order. *)
Lemma fill_run (ids : list string) :
  forall s : Pool.st,
    List.NoDup ids ->
    (forall id, In id ids ->
       ~ In id (OrderedDict.keys (SessionManager._sessions (self s))) /\
       SQLiteSession.init_raises env id = None) ->
    (Z.of_nat (List.length (SessionManager._sessions (self s))) +
     Z.of_nat (List.length ids) <= SessionManager.max_sessions (self s))%Z ->
    Pool.handles_match (SessionManager._sessions (self s)) ->
    Pool.lru_ordered s ->
    let s' := Pool.get_all env ids s in
    OrderedDict.keys (SessionManager._sessions (self s')) =
      OrderedDict.keys (SessionManager._sessions (self s)) ++ ids /\
    Pool.handles_match (SessionManager._sessions (self s')) /\
    Pool.lru_ordered s' /\
    Pool.cleared (trace s') = Pool.cleared (trace s) /\
    Stats.sessions_evicted (SessionManager.stats (self s')) =
      Stats.sessions_evicted (SessionManager.stats (self s)) /\
    SessionManager.max_sessions (self s') = SessionManager.max_sessions (self s).
Proof.
  induction ids as [|id ids IH]; intros s Hnd Hnew Hroom Hh Hlru; cbv zeta.
  - cbn [Pool.get_all]. rewrite app_nil_r.
    split; [reflexivity|]. split; [exact Hh|]. split; [exact Hlru|]. repeat split.
  - cbn [Pool.get_all]. rewrite get_session_run. cbn [snd].
    inversion Hnd as [|? ? Hnotin Hnd']; subst.
    destruct (Hnew id (or_introl eq_refl)) as [Habs Hinit].
    assert (Hget : OrderedDict.getitem id (SessionManager._sessions (self s)) = None)
      by (apply getitem_None; exact Habs).
    destruct (@got_miss id s Hget Hinit)
      as (created_at & Hd & Hcl & Hev & _ & _ & HM).
    cbv zeta in Hd, Hcl, Hev, HM.
    cbn [List.length] in Hroom.
    destruct (@victim_below_capacity (SessionManager.max_sessions (self s))
                (SessionManager._sessions (self s))) as [Hv Hr]; [lia|].
    rewrite Hv in Hcl, Hev. rewrite Hr in Hd. rewrite app_nil_r in Hcl.
    destruct Hlru as (Hsorted & Hpast & Hl).
    destruct (@got_later id s Hl) as [Hclock Hl'].
    specialize (IH (Pool.got env id s) Hnd').
    rewrite Hd, HM, Hcl, Hev in IH. rewrite keys_app, length_app in IH.
    cbn [OrderedDict.keys map fst List.length] in IH.
    destruct IH as (I1 & I2 & I3 & I4 & I5 & I6).
    + intros id' Hid'. split; [|apply Hnew; right; exact Hid'].
      intros H. apply in_app_or in H as [H|[H|[]]].
      * apply (proj1 (Hnew id' (or_intror Hid'))). exact H.
      * subst. contradiction.
    + lia.
    + apply Forall_app. split; [exact Hh|]. constructor; [reflexivity|constructor].
    + unfold Pool.lru_ordered. rewrite Hd. split; [|split; [|exact Hl']].
      * apply sorted_append with (c := clock s); [exact Hsorted | exact Hpast|].
        cbn [snd SessionMetadata.last_accessed]. exact Hclock.
      * apply Forall_app. split.
        -- eapply List.Forall_impl; [|exact Hpast]. cbn beta. intros kv Hkv. lra.
        -- constructor; [|constructor]. cbn [snd SessionMetadata.last_accessed].
           apply Qle_refl.
    + rewrite <- app_assoc in I1. cbn [app] in I1.
      split; [exact I1|]. split; [exact I2|]. split; [exact I3|].
      split; [exact I4|]. split; [rewrite I5; lia | exact I6].
Qed.

End PoolShape.

(** C4 (bounded size with LRU eviction), for a capacity of at least one.
    Starting from a pool within its capacity, every sequence of
    get_session / remove_session / cleanup_expired_sessions operations,
    whatever their outcomes, leaves at most [max_sessions] entries.  And
    asking an empty pool for [max_sessions + 1] distinct sessions evicts
    exactly one entry: before the last request the pool is full and the
    first key is its least recently accessed entry; the last request
    removes that entry and no other, calls [clear_session] on its handle
    and on no other, counts one eviction and leaves the pool full with the
    other keys in request order. *)
Theorem pool_bounded_lru_eviction (env : SQLiteSession.behaviour) (M : Z) :
  (1 <= M)%Z ->
  (forall (ops : list Pool.op) (s : Pool.st),
     SessionManager.max_sessions (self s) = M ->
     Pool.bounded s ->
     Pool.bounded (Pool.run_ops env ops s)) /\
  (forall (k0 : string) (more : list string) (s : Pool.st),
     List.NoDup (k0 :: more) ->
     Z.of_nat (List.length (k0 :: more)) = (M + 1)%Z ->
     SessionManager.max_sessions (self s) = M ->
     SessionManager._sessions (self s) = [] ->
     (forall id, In id (k0 :: more) -> SQLiteSession.init_raises env id = None) ->
     Forall (fun d => 0 <= d) (latency s) ->
     let before := Pool.get_all env (List.removelast (k0 :: more)) s in
     let after := Pool.get_all env (k0 :: more) s in
     exists metadata0 rest,
       SessionManager._sessions (self before) = (k0, metadata0) :: rest /\
       Z.of_nat (List.length (SessionManager._sessions (self before))) = M /\
       Forall (fun kv => SessionMetadata.last_accessed metadata0 <=
                         SessionMetadata.last_accessed (snd kv)) rest /\
       OrderedDict.keys (SessionManager._sessions (self after)) = more /\
       Z.of_nat (List.length (SessionManager._sessions (self after))) = M /\
       Pool.cleared (trace after) = Pool.cleared (trace s) ++ [k0] /\
       Stats.sessions_evicted (SessionManager.stats (self after)) =
         (Stats.sessions_evicted (SessionManager.stats (self s)) + 1)%Z).
Proof.
  intros HM. split.
  { intros ops s Hmax Hb. apply run_ops_bounded; [rewrite Hmax; exact HM | exact Hb]. }
  intros k0 more s Hnd Hlen Hmax Hempty Hinit Hl before after.
  destruct more as [|k1 more']; [cbn [List.length] in Hlen; lia|].
  assert (Hsplit : k1 :: more' = List.removelast (k1 :: more') ++ [List.last (k1 :: more') k0]).
  { apply app_removelast_last. discriminate. }
  remember (List.removelast (k1 :: more')) as mid eqn:Emid.
  remember (List.last (k1 :: more') k0) as x eqn:Ex.
  assert (Hbefore : List.removelast (k0 :: k1 :: more') = k0 :: mid).
  { rewrite Emid. reflexivity. }
  unfold before, after. rewrite Hbefore. clear before after.
  rewrite Hsplit in Hnd, Hlen, Hinit |- *.
  change (k0 :: mid ++ [x]) with ((k0 :: mid) ++ [x]) in Hnd, Hlen, Hinit |- *.
  rewrite get_all_app.
  remember (Pool.get_all env (k0 :: mid) s) as b eqn:Eb.
  cbn [Pool.get_all]. rewrite get_session_run. cbn [snd].
  rewrite length_app in Hlen. cbn [List.length] in Hlen.
  assert (Hnd1 : List.NoDup (k0 :: mid) /\ ~ In x (k0 :: mid)).
  { apply NoDup_remove in Hnd. rewrite app_nil_r in Hnd. exact Hnd. }
  destruct Hnd1 as [Hnd1 Hx].
  destruct (@fill_run env (k0 :: mid) s Hnd1)
    as (F1 & F2 & F3 & F4 & F5 & F6); rewrite <- ?Eb in *.
  { intros id Hid. rewrite Hempty. split; [intros []|].
    apply Hinit. apply in_or_app. left. exact Hid. }
  { rewrite Hempty, Hmax. cbn [List.length]. lia. }
  { rewrite Hempty. constructor. }
  { unfold Pool.lru_ordered. rewrite Hempty.
    split; [constructor|]. split; [constructor | exact Hl]. }
  cbv zeta in F1, F2, F3, F4, F5, F6.
  rewrite Hempty in F1. cbn [OrderedDict.keys map app] in F1.
  destruct (SessionManager._sessions (self b)) as [|[k metadata0] rest] eqn:Ed;
    [discriminate|].
  cbn [OrderedDict.keys map fst] in F1. injection F1 as -> Hrest.
  change (map fst rest) with (OrderedDict.keys rest) in Hrest.
  assert (Hcount : Z.of_nat (List.length ((k0, metadata0) :: rest)) = M).
  { cbn [List.length]. rewrite <- (keys_length rest), Hrest.
    cbn [List.length] in Hlen. lia. }
  assert (Hget : OrderedDict.getitem x (SessionManager._sessions (self b)) = None).
  { apply getitem_None. rewrite Ed.
    change (OrderedDict.keys ((k0, metadata0) :: rest))
      with (k0 :: OrderedDict.keys rest).
    rewrite Hrest. exact Hx. }
  assert (Hix : SQLiteSession.init_raises env x = None).
  { apply Hinit. apply in_or_app. right. left. reflexivity. }
  destruct (@got_miss env x b Hget Hix) as (created_at & G1 & G2 & G3 & _ & _ & _).
  cbv zeta in G1, G2, G3. rewrite F6, Hmax in G1, G2, G3.
  rewrite ?Ed in G1, G2, G3.
  destruct (@victim_at_capacity M (k0, metadata0) rest) as [Hv Hr]; [lia|].
  rewrite Hv in G2, G3. rewrite Hr in G1.
  exists metadata0, rest.
  split; [reflexivity|]. split; [exact Hcount|].
  split.
  { destruct F3 as (Hsorted & _). try rewrite Ed in Hsorted.
    apply StronglySorted_inv in Hsorted as [_ Hhead]. exact Hhead. }
  split.
  { rewrite G1, keys_app, Hrest. reflexivity. }
  split.
  { rewrite G1, length_app. cbn [List.length] in Hcount |- *. lia. }
  split.
  { rewrite G2, F4. try rewrite Ed in F2. inversion F2 as [|? ? Hh0 _]; subst.
    cbn [fst snd] in Hh0. rewrite Hh0. reflexivity. }
  rewrite G3, F5. reflexivity.
Qed.

Lemma pool_bounded_lru_eviction_witness :
  OrderedDict.keys
    (SessionManager._sessions
       (self (Pool.get_all Pool.well_behaved ["k0"; "k1"; "k2"]%string
                (mkState 0 [] [] (SessionManager.__init__ "data/sessions.db" 2 3600 300)))))
  = ["k1"; "k2"]%string.
Proof.
  assert (HM : (1 <= 2)%Z) by lia.
  destruct (proj2 (@pool_bounded_lru_eviction Pool.well_behaved 2 HM)
              "k0"%string ["k1"; "k2"]%string
              (mkState 0 [] [] (SessionManager.__init__ "data/sessions.db" 2 3600 300)))
    as (metadata0 & rest & _ & _ & _ & Hkeys & _).
  - repeat constructor; cbn; intuition discriminate.
  - reflexivity.
  - reflexivity.
  - reflexivity.
  - intros id _. reflexivity.
  - constructor.
  - exact Hkeys.
Defined.

(** C4 as worded fails for a capacity of zero: the first session asked of
    an empty pool is stored, nothing is evicted, and the pool holds one
    entry, more than its capacity. *)
Lemma pool_of_capacity_zero_holds_one :
  let s := mkState 0 [] [] (SessionManager.__init__ "data/sessions.db" 0 3600 300) in
  let s' := snd (SessionManager.get_session Pool.well_behaved "k0" s) in
  Pool.bounded s /\
  SessionManager.max_sessions (self s') = 0%Z /\
  List.length (SessionManager._sessions (self s')) = 1%nat /\
  Stats.sessions_evicted (SessionManager.stats (self s')) = 0%Z /\
  ~ Pool.bounded s'.
Proof.
  cbv zeta. rewrite get_session_run. cbn [snd].
  split; [split; [apply Z.le_refl | constructor]|].
  split; [reflexivity|]. split; [reflexivity|]. split; [reflexivity|].
  intros [H _]. vm_compute in H. apply H. reflexivity.
Qed.

(** ** The call breaker *)

Section BreakerFacts.
Context {C E A : Type}.
Implicit Types (b : CircuitBreaker.t) (c : C)
  (l : list (Q * CircuitBreaker.operation C E A)).

Lemma calls_app l1 l2 b c :
  CircuitBreaker.calls (l1 ++ l2) (b, c) =
  (fst (CircuitBreaker.calls l1 (b, c)) ++
   fst (CircuitBreaker.calls l2 (snd (CircuitBreaker.calls l1 (b, c)))),
   snd (CircuitBreaker.calls l2 (snd (CircuitBreaker.calls l1 (b, c))))).
Proof.
  revert b c. induction l1 as [|[now op] l1 IH]; intros b c.
  - cbn [app CircuitBreaker.calls fst snd].
    destruct (CircuitBreaker.calls l2 (b, c)) as [rs bc]. reflexivity.
  - cbn [app CircuitBreaker.calls].
    destruct (CircuitBreaker.call now op (b, c)) as [r [b1 c1]].
    rewrite IH. destruct (CircuitBreaker.calls l1 (b1, c1)) as [rs1 bc1].
    cbn [fst snd].
    destruct (CircuitBreaker.calls l2 bc1) as [rs2 bc2]. reflexivity.
Qed.

(** A failing call in CLOSED: the operation is invoked, its error comes
    back unchanged, and the failure is counted. *)
Lemma closed_failure_run (now : Q) (op : CircuitBreaker.operation C E A) b c :
  CircuitBreaker.state b = CircuitBreaker.CLOSED ->
  BreakerSpec.fails op ->
  exists e,
    CircuitBreaker.call now op (b, c) =
    (CircuitBreaker.Propagated e,
     (CircuitBreaker.on_failure now (CircuitBreaker.incr_total_requests b),
      snd (op c))).
Proof.
  intros Hst Hfail. destruct (Hfail c) as (e & c' & Hop).
  exists e. unfold CircuitBreaker.call, CircuitBreaker.attempt.
  rewrite Hst, Hop. reflexivity.
Qed.

(** Below the threshold the breaker stays CLOSED and counts. *)
Lemma closed_failures_below l :
  forall b c,
    CircuitBreaker.state b = CircuitBreaker.CLOSED ->
    (CircuitBreaker.failure_count b + Z.of_nat (List.length l) <
     CircuitBreaker.failure_threshold (CircuitBreaker.config b))%Z ->
    Forall (fun p => BreakerSpec.fails (snd p)) l ->
    let b' := fst (snd (CircuitBreaker.calls l (b, c))) in
    CircuitBreaker.state b' = CircuitBreaker.CLOSED /\
    CircuitBreaker.failure_count b' =
      (CircuitBreaker.failure_count b + Z.of_nat (List.length l))%Z /\
    CircuitBreaker.name b' = CircuitBreaker.name b /\
    CircuitBreaker.config b' = CircuitBreaker.config b /\
    snd (snd (CircuitBreaker.calls l (b, c))) = BreakerSpec.invoked l c /\
    Forall (fun r => exists e, r = CircuitBreaker.Propagated e)
           (fst (CircuitBreaker.calls l (b, c))).
Proof.
  induction l as [|[now op] l IH]; intros b c Hst Hlt Hfail; cbv zeta.
  - cbn [CircuitBreaker.calls fst snd List.length BreakerSpec.invoked fold_left].
    repeat split; [exact Hst | lia | constructor].
  - inversion Hfail as [|? ? Hop Hfail']; subst. cbn [snd] in Hop.
    destruct (@closed_failure_run now op b c Hst Hop) as (e & Hcall).
    cbn [CircuitBreaker.calls]. rewrite Hcall.
    cbn [List.length] in Hlt.
    set (b1 := CircuitBreaker.on_failure now (CircuitBreaker.incr_total_requests b)).
    assert (Hb1 : CircuitBreaker.state b1 = CircuitBreaker.CLOSED /\
                  CircuitBreaker.failure_count b1 = (CircuitBreaker.failure_count b + 1)%Z /\
                  CircuitBreaker.name b1 = CircuitBreaker.name b /\
                  CircuitBreaker.config b1 = CircuitBreaker.config b).
    { unfold b1, CircuitBreaker.on_failure, CircuitBreaker.incr_total_requests.
      cbn [CircuitBreaker.state CircuitBreaker.failure_count CircuitBreaker.config
           CircuitBreaker.name].
      rewrite Hst.
      cbn [CircuitBreaker.state CircuitBreaker.failure_count CircuitBreaker.config
           CircuitBreaker.name].
      rewrite (proj2 (Z.leb_gt _ _)) by lia.
      repeat split. }
    destruct Hb1 as (S1 & S2 & S3 & S4).
    specialize (IH b1 (snd (op c)) S1).
    rewrite S2, S4 in IH. cbv zeta in IH.
    destruct IH as (I1 & I2 & I3 & I4 & I5 & I6); [lia | exact Hfail'|].
    destruct (CircuitBreaker.calls l (b1, snd (op c))) as [rs [b2 c2]].
    cbn [fst snd] in *.
    rewrite I1, I2, I3, I4, S3, I5.
    cbn [BreakerSpec.invoked fold_left snd List.length].
    repeat split; [lia|]. constructor; [exists e; reflexivity | exact I6].
Qed.

(** The failure that reaches the threshold opens the breaker at the time
    of that call. *)
Lemma closed_failure_trips (now : Q) (op : CircuitBreaker.operation C E A) b c :
  CircuitBreaker.state b = CircuitBreaker.CLOSED ->
  BreakerSpec.fails op ->
  (CircuitBreaker.failure_count b + 1 =
   CircuitBreaker.failure_threshold (CircuitBreaker.config b))%Z ->
  exists e b',
    CircuitBreaker.call now op (b, c) =
      (CircuitBreaker.Propagated e, (b', snd (op c))) /\
    CircuitBreaker.state b' = CircuitBreaker.OPEN /\
    CircuitBreaker.opened_at b' = now /\
    CircuitBreaker.failure_count b' =
      CircuitBreaker.failure_threshold (CircuitBreaker.config b) /\
    CircuitBreaker.name b' = CircuitBreaker.name b.
Proof.
  intros Hst Hop Hn.
  destruct (@closed_failure_run now op b c Hst Hop) as (e & Hcall).
  exists e. eexists. split; [exact Hcall|].
  unfold CircuitBreaker.on_failure, CircuitBreaker.incr_total_requests.
  cbn [CircuitBreaker.state CircuitBreaker.failure_count CircuitBreaker.config
       CircuitBreaker.name].
  rewrite Hst.
  cbn [CircuitBreaker.state CircuitBreaker.failure_count CircuitBreaker.config
       CircuitBreaker.name].
  rewrite (proj2 (Z.leb_le _ _)) by lia.
  unfold CircuitBreaker.trip.
  cbn [CircuitBreaker.state CircuitBreaker.failure_count CircuitBreaker.config
       CircuitBreaker.name CircuitBreaker.opened_at].
  repeat split. exact Hn.
Qed.

(** An OPEN breaker inside its timeout rejects the call: the operation is
    not applied to the caller's state, and only the totals move. *)
Lemma open_call_rejected (now : Q) (op : CircuitBreaker.operation C E A) b c :
  CircuitBreaker.state b = CircuitBreaker.OPEN ->
  now - CircuitBreaker.opened_at b < CircuitBreaker.current_timeout b ->
  CircuitBreaker.call now op (b, c) =
    (CircuitBreaker.CircuitBreakerError (CircuitBreaker.name b) CircuitBreaker.OPEN,
     (BreakerSpec.rejected b, c)).
Proof.
  intros Hst Hlt. unfold CircuitBreaker.call.
  rewrite Hst, (proj2 (Qgtb_true _ _) Hlt). reflexivity.
Qed.

Lemma invoked_app l1 l2 c :
  BreakerSpec.invoked (l1 ++ l2) c = BreakerSpec.invoked l2 (BreakerSpec.invoked l1 c).
Proof. unfold BreakerSpec.invoked. apply fold_left_app. Qed.

(** From a CLOSED breaker, failures that bring the count of consecutive
    failures exactly to the threshold open it at the time of the last one;
    every operation was invoked once and its error came back unchanged. *)
Lemma failures_reach_threshold l (now : Q) (op : CircuitBreaker.operation C E A) b c :
  CircuitBreaker.state b = CircuitBreaker.CLOSED ->
  (CircuitBreaker.failure_count b + Z.of_nat (List.length l) + 1 =
   CircuitBreaker.failure_threshold (CircuitBreaker.config b))%Z ->
  Forall (fun p => BreakerSpec.fails (snd p)) l ->
  BreakerSpec.fails op ->
  let r := CircuitBreaker.calls (l ++ [(now, op)]) (b, c) in
  CircuitBreaker.state (fst (snd r)) = CircuitBreaker.OPEN /\
  CircuitBreaker.name (fst (snd r)) = CircuitBreaker.name b /\
  CircuitBreaker.opened_at (fst (snd r)) = now /\
  snd (snd r) = BreakerSpec.invoked (l ++ [(now, op)]) c /\
  Forall (fun r => exists e, r = CircuitBreaker.Propagated e) (fst r).
Proof.
  intros Hst Hn Hfail Hop. cbv zeta. rewrite calls_app, invoked_app.
  destruct (@closed_failures_below l b c Hst) as (I1 & I2 & I3 & I4 & I5 & I6);
    [lia | exact Hfail |].
  destruct (CircuitBreaker.calls l (b, c)) as [rs [b1 c1]].
  cbn [fst snd] in *.
  destruct (@closed_failure_trips now op b1 c1 I1 Hop)
    as (e & b2 & Hcall & T1 & T2 & _ & T4).
  { rewrite I2, I4. lia. }
  cbn [CircuitBreaker.calls]. rewrite Hcall. cbn [fst snd].
  rewrite T1, T2, T4, I3, I5.
  cbn [BreakerSpec.invoked fold_left snd].
  repeat split.
  apply Forall_app. split; [exact I6|].
  constructor; [exists e; reflexivity | constructor].
Qed.

End BreakerFacts.

(** ** Fail-fast of the call breaker *)

(** C1.  Take a breaker in CLOSED with no failure counted yet and a
    failure threshold of at least one, and let the caller make exactly
    [failure_threshold] calls whose operation raises.  Every operation is
    invoked once and its own error comes back; afterwards the breaker is
    OPEN.  Any further call at a time [now] with
    [now - opened_at < current_timeout] returns the breaker's error, which
    carries the breaker's name and the state OPEN, and leaves the caller's
    state (where the invocation counter lives) exactly as it was: the
    operation is not invoked.  Only [total_requests] and [total_failures]
    of the breaker move. *)
Theorem breaker_fails_fast (C E A : Type)
    (l : list (Q * CircuitBreaker.operation C E A))
    (b : CircuitBreaker.t) (c : C) :
  CircuitBreaker.state b = CircuitBreaker.CLOSED ->
  CircuitBreaker.failure_count b = 0%Z ->
  (1 <= CircuitBreaker.failure_threshold (CircuitBreaker.config b))%Z ->
  Z.of_nat (List.length l) =
    CircuitBreaker.failure_threshold (CircuitBreaker.config b) ->
  Forall (fun p => BreakerSpec.fails (snd p)) l ->
  let r := CircuitBreaker.calls l (b, c) in
  let b' := fst (snd r) in
  let c' := snd (snd r) in
  c' = BreakerSpec.invoked l c /\
  Forall (fun r => exists e, r = CircuitBreaker.Propagated e) (fst r) /\
  CircuitBreaker.state b' = CircuitBreaker.OPEN /\
  forall (now : Q) (op : CircuitBreaker.operation C E A),
    now - CircuitBreaker.opened_at b' < CircuitBreaker.current_timeout b' ->
    CircuitBreaker.call now op (b', c') =
      (CircuitBreaker.CircuitBreakerError (CircuitBreaker.name b) CircuitBreaker.OPEN,
       (BreakerSpec.rejected b', c')).
Proof.
  intros Hst H0 Hth Hlen Hfail. cbv zeta.
  assert (Hne : l <> []).
  { intros ->. cbn [List.length] in Hlen. lia. }
  destruct (exists_last Hne) as (l' & [t op'] & ->).
  apply Forall_app in Hfail. destruct Hfail as [Hfail' Hlast].
  inversion Hlast as [|? ? Hop' _]; subst. cbn [snd] in Hop'.
  rewrite length_app in Hlen. cbn [List.length] in Hlen.
  destruct (@failures_reach_threshold C E A l' t op' b c Hst)
    as (R1 & R2 & R3 & R4 & R5); [lia | exact Hfail' | exact Hop' |].
  cbv zeta in R1, R2, R3, R4, R5.
  repeat split; [exact R4 | exact R5 | exact R1 |].
  intros now op Hin. rewrite <- R2. apply open_call_rejected; assumption.
Qed.

(** The scenario of the unit test: threshold three, three failing calls,
    then a fourth call one second later is rejected and the operation's
    invocation counter stays at three. *)
Lemma breaker_fails_fast_witness :
  let b := CircuitBreaker.__init__ "test_breaker" (CircuitBreaker.mkConfig 3 2 10 3) in
  let f := BreakerSpec.failing_func "Test failure" in
  let r := CircuitBreaker.calls [(0, f); (0, f); (0, f)] (b, 0%Z) in
  snd (snd r) = 3%Z /\
  CircuitBreaker.state (fst (snd r)) = CircuitBreaker.OPEN /\
  CircuitBreaker.call 1 f (fst (snd r), snd (snd r)) =
    (CircuitBreaker.CircuitBreakerError "test_breaker" CircuitBreaker.OPEN,
     (BreakerSpec.rejected (fst (snd r)), snd (snd r))).
Proof.
  cbv zeta.
  pose (b := CircuitBreaker.__init__ "test_breaker" (CircuitBreaker.mkConfig 3 2 10 3)).
  pose (f := BreakerSpec.failing_func "Test failure").
  destruct (@breaker_fails_fast Z string unit [(0, f); (0, f); (0, f)] b 0%Z)
    as (Hc & _ & Hopen & Hrej).
  - reflexivity.
  - reflexivity.
  - cbn. lia.
  - reflexivity.
  - repeat constructor; intros n; exists "Test failure"%string, (n + 1)%Z; reflexivity.
  - cbv zeta in Hc, Hopen, Hrej.
    split; [exact Hc|]. split; [exact Hopen|].
    apply (Hrej 1 f). vm_compute. reflexivity.
Defined.

(** * Further properties of the sources *)

(** ** TokenBucket: waiting, polling, refilling *)

Lemma consume_answer (now n : Q) (b : TokenBucket.t) :
  fst (TokenBucket.consume now n b) = true <->
  n <= TokenBucket.tokens (TokenBucket._refill now b).
Proof.
  unfold TokenBucket.consume.
  destruct (Qgeb (TokenBucket.tokens (TokenBucket._refill now b)) n) eqn:E; cbn [fst].
  - apply Qgeb_true in E. tauto.
  - apply Qgeb_false in E. split; [discriminate | intros; lra].
Qed.

(** The later a bucket is refilled, the higher its level. *)
Lemma refill_level_mono (t t' : Q) (b : TokenBucket.t) :
  0 <= TokenBucket.refill_rate b -> t <= t' ->
  TokenBucket.tokens (TokenBucket._refill t b) <=
  TokenBucket.tokens (TokenBucket._refill t' b).
Proof.
  intros HR Ht. cbn [TokenBucket._refill TokenBucket.tokens].
  apply Q.min_le_compat_l.
  assert (H : 0 <= (t' - t) * TokenBucket.refill_rate b).
  { apply Qmult_le_0_compat; lra. }
  assert (E : (t' - TokenBucket.last_refill_time b) * TokenBucket.refill_rate b ==
              (t - TokenBucket.last_refill_time b) * TokenBucket.refill_rate b +
              (t' - t) * TokenBucket.refill_rate b) by ring.
  rewrite E. lra.
Qed.

(** Refilling a bucket that is within its capacity does not lower its
    level. *)
Lemma refill_keeps_tokens (now : Q) (b : TokenBucket.t) :
  0 <= TokenBucket.refill_rate b ->
  TokenBucket.tokens b <= TokenBucket.capacity b ->
  TokenBucket.last_refill_time b <= now ->
  TokenBucket.tokens b <= TokenBucket.tokens (TokenBucket._refill now b).
Proof.
  intros HR Hc Hl. cbn [TokenBucket._refill TokenBucket.tokens].
  apply Qmin_lower; [exact Hc|].
  assert (H : 0 <= (now - TokenBucket.last_refill_time b) * TokenBucket.refill_rate b).
  { apply Qmult_le_0_compat; lra. }
  lra.
Qed.

(** X1.  Tokens that are there stay there.  When a bucket whose refill
    rate is not negative holds the amount asked for at time [now] (a
    [consume] made then would succeed), [get_wait_time] announces no wait,
    and a [consume] of that amount succeeds at every later time as well,
    whether or not the level was read in between by that
    [get_wait_time]. *)
Theorem available_tokens_stay_available (now t n : Q) (b : TokenBucket.t) :
  0 <= TokenBucket.refill_rate b ->
  now <= t ->
  fst (TokenBucket.consume now n b) = true ->
  TokenBucket.get_wait_time now n b = (Ok 0, TokenBucket._refill now b) /\
  fst (TokenBucket.consume t n (TokenBucket._refill now b)) = true /\
  fst (TokenBucket.consume t n b) = true.
Proof.
  intros HR Ht Hok. apply consume_answer in Hok.
  split.
  { unfold TokenBucket.get_wait_time.
    rewrite (proj2 (Qgeb_true _ _) Hok). reflexivity. }
  split; apply consume_answer.
  - apply Qle_trans with (y := TokenBucket.tokens (TokenBucket._refill now b));
      [exact Hok|].
    apply refill_keeps_tokens;
      [exact HR | exact (refill_tokens_le_capacity now b) | exact Ht].
  - apply Qle_trans with (y := TokenBucket.tokens (TokenBucket._refill now b));
      [exact Hok|].
    apply refill_level_mono; assumption.
Qed.

Lemma available_tokens_stay_available_witness :
  TokenBucket.get_wait_time 1 20 (TokenBucket.mk 100 10 15 0) =
    (Ok 0, TokenBucket._refill 1 (TokenBucket.mk 100 10 15 0)) /\
  fst (TokenBucket.consume 5 20 (TokenBucket._refill 1 (TokenBucket.mk 100 10 15 0))) = true /\
  fst (TokenBucket.consume 5 20 (TokenBucket.mk 100 10 15 0)) = true.
Proof.
  apply (@available_tokens_stay_available 1 5 20 (TokenBucket.mk 100 10 15 0)).
  - vm_compute. discriminate.
  - vm_compute. discriminate.
  - reflexivity.
Defined.

Lemma zero_rate_level_low (t n : Q) (b : TokenBucket.t) :
  TokenBucket.refill_rate b == 0 ->
  Qmin (TokenBucket.capacity b) (TokenBucket.tokens b) < n ->
  TokenBucket.tokens (TokenBucket._refill t b) < n.
Proof.
  intros HR Hlow. cbn [TokenBucket._refill TokenBucket.tokens].
  assert (E : TokenBucket.tokens b + (t - TokenBucket.last_refill_time b) *
                                     TokenBucket.refill_rate b
              == TokenBucket.tokens b) by (rewrite HR; ring).
  destruct (Q.min_spec (TokenBucket.capacity b) (TokenBucket.tokens b)) as [[? E1]|[? E1]];
    destruct (Q.min_spec (TokenBucket.capacity b)
                (TokenBucket.tokens b + (t - TokenBucket.last_refill_time b) *
                                        TokenBucket.refill_rate b)) as [[? E2]|[? E2]];
    rewrite E2; rewrite E1 in Hlow; lra.
Qed.

Lemma get_wait_time_zero_rate (now n : Q) (b : TokenBucket.t) :
  TokenBucket.refill_rate b == 0 ->
  Qmin (TokenBucket.capacity b) (TokenBucket.tokens b) < n ->
  TokenBucket.get_wait_time now n b =
    (Raise ZeroDivisionError, TokenBucket._refill now b).
Proof.
  intros HR Hlow. unfold TokenBucket.get_wait_time.
  rewrite (proj2 (Qgeb_false _ _) (zero_rate_level_low now b HR Hlow)).
  cbn [TokenBucket._refill TokenBucket.refill_rate].
  rewrite (proj2 (Qeq_bool_iff _ _) HR). reflexivity.
Qed.

(** X2.  A bucket whose refill rate is zero cannot say how long to wait:
    when the level, capped at the capacity, is below the amount asked for,
    [get_wait_time] raises [ZeroDivisionError] (after refilling, which
    moves the refill stamp), and a [consume] of that amount at any time
    answers [False]. *)
Theorem zero_rate_wait_raises (now n : Q) (b : TokenBucket.t) :
  TokenBucket.refill_rate b == 0 ->
  Qmin (TokenBucket.capacity b) (TokenBucket.tokens b) < n ->
  TokenBucket.get_wait_time now n b =
    (Raise ZeroDivisionError, TokenBucket._refill now b) /\
  TokenBucket.last_refill_time (TokenBucket._refill now b) = now /\
  forall t, TokenBucket.consume t n b = (false, TokenBucket._refill t b).
Proof.
  intros HR Hlow.
  split; [apply get_wait_time_zero_rate; assumption|].
  split; [reflexivity|].
  intros t. apply consume_short. apply zero_rate_level_low; assumption.
Qed.

Lemma zero_rate_wait_raises_witness :
  TokenBucket.get_wait_time 5 1 (TokenBucket.__post_init__ 0 0 0) =
    (Raise ZeroDivisionError, TokenBucket._refill 5 (TokenBucket.__post_init__ 0 0 0)).
Proof.
  apply (@zero_rate_wait_raises 5 1 (TokenBucket.__post_init__ 0 0 0)).
  - reflexivity.
  - vm_compute. reflexivity.
Defined.

(** X3.  Reading the level never costs tokens.  For a bucket within its
    capacity, a refill rate that is not negative and a clock that does not
    run backwards, the level [get_available_tokens] reads is at least the
    level stored, a second reading at a later time shows at least what the
    first one showed, and no reading exceeds the capacity. *)
Theorem polling_never_loses_tokens (t t' : Q) (b : TokenBucket.t) :
  0 <= TokenBucket.refill_rate b ->
  TokenBucket.tokens b <= TokenBucket.capacity b ->
  TokenBucket.last_refill_time b <= t -> t <= t' ->
  TokenBucket.tokens b <= fst (TokenBucket.get_available_tokens t b) /\
  fst (TokenBucket.get_available_tokens t b) <=
    fst (TokenBucket.get_available_tokens t'
           (snd (TokenBucket.get_available_tokens t b))) /\
  fst (TokenBucket.get_available_tokens t'
         (snd (TokenBucket.get_available_tokens t b))) <= TokenBucket.capacity b.
Proof.
  intros HR Hc H1 H2. unfold TokenBucket.get_available_tokens. cbn [fst snd].
  split; [apply refill_keeps_tokens; assumption|].
  split.
  - apply refill_keeps_tokens;
      [exact HR | exact (refill_tokens_le_capacity t b) | exact H2].
  - apply (refill_tokens_le_capacity t' (TokenBucket._refill t b)).
Qed.

Lemma polling_never_loses_tokens_witness :
  TokenBucket.tokens (TokenBucket.mk 100 10 20 1) <=
    fst (TokenBucket.get_available_tokens 3 (TokenBucket.mk 100 10 20 1)) /\
  fst (TokenBucket.get_available_tokens 3 (TokenBucket.mk 100 10 20 1)) <=
    fst (TokenBucket.get_available_tokens 7
           (snd (TokenBucket.get_available_tokens 3 (TokenBucket.mk 100 10 20 1)))).
Proof.
  destruct (@polling_never_loses_tokens 3 7 (TokenBucket.mk 100 10 20 1))
    as (H1 & H2 & _).
  - vm_compute. discriminate.
  - vm_compute. discriminate.
  - vm_compute. discriminate.
  - vm_compute. discriminate.
  - split; [exact H1 | exact H2].
Defined.

(** ** RateLimiter: edge cases of the gate *)

(** X6.  A limiter whose rate bucket has a refill rate of zero and holds
    less than one token (as when it is configured with
    [requests_per_minute = 0]) admits nothing: [_wait_for_capacity] raises
    [ZeroDivisionError] for every weight.  The lock is released, only the
    rate bucket has been touched (refilled), no statistic has moved, and
    under [async with limiter.acquire(w)] the body is never run and no
    concurrency slot is taken. *)
Theorem zero_rate_limiter_admits_nothing (w : Z) (s : Gate.st) :
  TokenBucket.refill_rate (RateLimiter.rpm_bucket (self s)) == 0 ->
  Qmin (TokenBucket.capacity (RateLimiter.rpm_bucket (self s)))
       (TokenBucket.tokens (RateLimiter.rpm_bucket (self s))) < 1 ->
  let now := clock s + hd 0 (latency s) in
  let s' := mkState now (tl (latency s)) (trace s ++ [LockAcquired; LockReleased])
              (RateLimiter.set_rpm_bucket
                 (TokenBucket._refill now (RateLimiter.rpm_bucket (self s))) (self s)) in
  RateLimiter._wait_for_capacity w s = (Raise ZeroDivisionError, s') /\
  forall (A : Type) (body : M RateLimiter.t A),
    async_with (RateLimiter_acquire w) body s = (Raise ZeroDivisionError, s').
Proof.
  intros HR Hlow now s'.
  assert (Hrun : RateLimiter._wait_for_capacity w s = (Raise ZeroDivisionError, s')).
  { unfold RateLimiter._wait_for_capacity, with_lock, emit. cbv beta iota.
    unfold bind at 1.
    unfold RateLimiter.lift_result at 1, RateLimiter.on_rpm_bucket at 1.
    unfold bind at 1 2 3 4, time_time at 1, get at 1.
    cbn [clock latency trace self].
    rewrite (@get_wait_time_zero_rate _ 1 _ HR Hlow).
    unfold modify at 1, ret at 1, raise. cbn [clock latency trace self snd].
    subst s' now. rewrite <- app_assoc. reflexivity. }
  split; [exact Hrun|].
  intros A body. unfold async_with, RateLimiterContext.__aenter__, RateLimiter_acquire.
  cbn [RateLimiterContext.estimated_tokens].
  unfold bind at 1. rewrite Hrun. reflexivity.
Qed.

Lemma zero_rate_limiter_admits_nothing_witness :
  exists s',
    RateLimiter._wait_for_capacity 100
      (mkState 0 [] [] (RegistrySpec.built "test" (RateLimitConfig_init 0 6000 10) 0 0))
    = (Raise ZeroDivisionError, s') /\
    RateLimiter.total_requests (self s') = 0%Z.
Proof.
  destruct (@zero_rate_limiter_admits_nothing 100
              (mkState 0 [] [] (RegistrySpec.built "test" (RateLimitConfig_init 0 6000 10) 0 0)))
    as [Hrun _].
  - reflexivity.
  - reflexivity.
  - eexists. split; [exact Hrun | reflexivity].
Defined.

(** Asking for a slot when none is free parks the task and changes
    nothing. *)
Lemma acquire_parks (s : Gate.st) :
  (Semaphore._value (RateLimiter.semaphore (self s)) <= 0)%Z ->
  RateLimiter.lift_result (fun st : Gate.st =>
     let (r, sem) := Semaphore.acquire (RateLimiter.semaphore (self st)) in
     (Ok r, mkState (clock st) (latency st) (trace st)
                    (RateLimiter.set_semaphore sem (self st)))) s =
  (Pending,
   mkState (clock s) (latency s) (trace s)
           (RateLimiter.set_semaphore (RateLimiter.semaphore (self s)) (self s))).
Proof.
  intros H. unfold RateLimiter.lift_result, bind, Semaphore.acquire.
  rewrite (proj2 (Z.ltb_ge _ _) H). reflexivity.
Qed.

Lemma bind_pending {Obj A B} (m : M Obj A) (k : A -> M Obj B) (s s' : state Obj) :
  m s = (Pending, s') -> bind m k s = (Pending, s').
Proof. intros H. unfold bind. rewrite H. reflexivity. Qed.

Lemma parked_fields (s : Gate.st) :
  let s' := mkState (clock s) (latency s) (trace s)
              (RateLimiter.set_semaphore (RateLimiter.semaphore (self s)) (self s)) in
  RateLimiter.total_requests (self s') = RateLimiter.total_requests (self s) /\
  RateLimiter.total_tokens_consumed (self s') =
    RateLimiter.total_tokens_consumed (self s) /\
  RateLimiter.semaphore (self s') = RateLimiter.semaphore (self s) /\
  trace s' = trace s.
Proof. cbv zeta. repeat split. Qed.

(** X7.  The rate limit is paid before the concurrency slot is asked for.
    When every slot is taken, [__aenter__] parks the task on the
    semaphore only after [_wait_for_capacity] has run to its end: the
    request is already counted in [total_requests] and
    [total_tokens_consumed], the lock has been released again, and the
    semaphore is left as it was.  The refill rates are positive and the
    clock does not run backwards; the weight is one that [float] holds
    exactly and the wait a duration that [float] arithmetic holds. *)
Theorem slot_wait_comes_after_the_charge (ctx : RateLimiterContext.t) (s : Gate.st) :
  0 < TokenBucket.refill_rate (RateLimiter.rpm_bucket (self s)) ->
  0 < TokenBucket.refill_rate (RateLimiter.tpm_bucket (self s)) ->
  Forall (fun d => 0 <= d) (latency s) ->
  TokenBucket.last_refill_time (RateLimiter.rpm_bucket (self s)) <= clock s ->
  TokenBucket.last_refill_time (RateLimiter.tpm_bucket (self s)) <= clock s ->
  float_exact (RateLimiterContext.estimated_tokens ctx) = true ->
  float_sized (Gate.wait_time (RateLimiterContext.estimated_tokens ctx) s) = true ->
  (Semaphore._value (RateLimiter.semaphore (self s)) <= 0)%Z ->
  exists s',
    RateLimiterContext.__aenter__ ctx s = (Pending, s') /\
    (forall (A : Type) (body : M RateLimiter.t A), async_with ctx body s = (Pending, s')) /\
    RateLimiter.total_requests (self s') = (RateLimiter.total_requests (self s) + 1)%Z /\
    RateLimiter.total_tokens_consumed (self s') =
      (RateLimiter.total_tokens_consumed (self s) +
       RateLimiterContext.estimated_tokens ctx)%Z /\
    RateLimiter.semaphore (self s') = RateLimiter.semaphore (self s) /\
    exists tr, trace s' = trace s ++ LockAcquired :: tr ++ [LockReleased].
Proof.
  intros Hr Ht _ _ _ _ _ Hfull.
  remember (RateLimiterContext.estimated_tokens ctx) as w eqn:Ew.
  destruct (admitted_counters w s) as (C1 & C2 & C3).
  assert (Hsem : (Semaphore._value (RateLimiter.semaphore (self (Gate.admitted w s))) <= 0)%Z).
  { rewrite C3. exact Hfull. }
  pose proof (@acquire_parks (Gate.admitted w s) Hsem) as Hpark.
  destruct (parked_fields (Gate.admitted w s)) as (P1 & P2 & P3 & P4).
  cbv zeta in P1, P2, P3, P4.
  remember (mkState (clock (Gate.admitted w s)) (latency (Gate.admitted w s))
              (trace (Gate.admitted w s))
              (RateLimiter.set_semaphore (RateLimiter.semaphore (self (Gate.admitted w s)))
                 (self (Gate.admitted w s)))) as s' eqn:Es' in *.
  assert (Henter : RateLimiterContext.__aenter__ ctx s = (Pending, s')).
  { unfold RateLimiterContext.__aenter__. rewrite <- Ew.
    erewrite bind_ok by (apply wait_for_capacity_run; assumption).
    cbv beta. apply bind_pending. exact Hpark. }
  exists s'. split; [exact Henter|].
  split.
  { intros A body. unfold async_with. rewrite Henter. reflexivity. }
  rewrite P1, P2, P3, P4.
  split; [exact C1|]. split; [exact C2|]. split; [exact C3|].
  destruct (admitted_throttling w s) as [(_ & _ & _ & Htr)|(_ & _ & _ & Htr)].
  - exists [Logged WARNING "Rate limit reached, waiting";
            Suspended (Gate.wait_time w s) (self (Gate.throttled w s));
            Logged DEBUG "Rate limit acquired"]. exact Htr.
  - exists [Logged DEBUG "Rate limit acquired"]. exact Htr.
Qed.

Lemma slot_wait_comes_after_the_charge_witness :
  exists s',
    RateLimiterContext.__aenter__ (RateLimiter_acquire 100)
      (mkState 0 [] [] (RegistrySpec.built "test" (RateLimitConfig_init 60 6000 0) 0 0))
    = (Pending, s') /\
    RateLimiter.total_requests (self s') = 1%Z.
Proof.
  destruct (@slot_wait_comes_after_the_charge (RateLimiter_acquire 100)
              (mkState 0 [] [] (RegistrySpec.built "test" (RateLimitConfig_init 60 6000 0) 0 0)))
    as (s' & Hrun & _ & Hcount & _).
  - reflexivity.
  - reflexivity.
  - constructor.
  - vm_compute. discriminate.
  - vm_compute. discriminate.
  - reflexivity.
  - vm_compute. reflexivity.
  - cbn. lia.
  - exists s'. split; [exact Hrun | exact Hcount].
Defined.

(** ** RateLimiter: statistics *)

Lemma consume_shape (now n : Q) (b : TokenBucket.t) :
  TokenBucket.capacity (snd (TokenBucket.consume now n b)) = TokenBucket.capacity b /\
  TokenBucket.refill_rate (snd (TokenBucket.consume now n b)) = TokenBucket.refill_rate b /\
  TokenBucket.last_refill_time (snd (TokenBucket.consume now n b)) = now.
Proof.
  unfold TokenBucket.consume. destruct (Qgeb _ n); repeat split.
Qed.

(** What no step of the gate changes in a bucket: a function of the
    bucket that refilling and consuming leave alone, such as the capacity
    and the refill rate. *)
Section BucketShape.
Variables (X : Type) (G : TokenBucket.t -> X).
Hypothesis G_refill : forall now b, G (TokenBucket._refill now b) = G b.
Hypothesis G_consume : forall now n b, G (snd (TokenBucket.consume now n b)) = G b.

Lemma shape_rpm_access (f : Q -> TokenBucket.t -> TokenBucket.t) (s : Gate.st) :
  (forall now b, G (f now b) = G b) ->
  G (RateLimiter.rpm_bucket (self (Gate.access_rpm f s))) =
  G (RateLimiter.rpm_bucket (self s)).
Proof. intros H. rewrite rpm_access_rpm. apply H. Qed.

Lemma shape_tpm_access (f : Q -> TokenBucket.t -> TokenBucket.t) (s : Gate.st) :
  (forall now b, G (f now b) = G b) ->
  G (RateLimiter.tpm_bucket (self (Gate.access_tpm f s))) =
  G (RateLimiter.tpm_bucket (self s)).
Proof. intros H. rewrite tpm_access_tpm. apply H. Qed.

Ltac shape_step :=
  first
    [ rewrite self_add_event
    | rewrite self_sleep
    | rewrite shape_rpm_access by
        (intros; first [apply G_refill | apply G_consume])
    | rewrite shape_tpm_access by
        (intros; first [apply G_refill | apply G_consume])
    | rewrite (frame_access_rpm (fun r => G (RateLimiter.tpm_bucket r)))
        by (intros; reflexivity)
    | rewrite (frame_access_tpm (fun r => G (RateLimiter.rpm_bucket r)))
        by (intros; reflexivity)
    | erewrite (field_map_self (fun r => G (RateLimiter.rpm_bucket r))) by
        (intros;
         cbn [RateLimiter.set_requests_throttled RateLimiter.set_total_wait_time
              RateLimiter.set_total_requests RateLimiter.set_total_tokens_consumed
              RateLimiter.rpm_bucket RateLimiter.tpm_bucket];
         reflexivity)
    | erewrite (field_map_self (fun r => G (RateLimiter.tpm_bucket r))) by
        (intros;
         cbn [RateLimiter.set_requests_throttled RateLimiter.set_total_wait_time
              RateLimiter.set_total_requests RateLimiter.set_total_tokens_consumed
              RateLimiter.rpm_bucket RateLimiter.tpm_bucket];
         reflexivity) ];
  cbv beta.

Lemma shape_waited (w : Z) (s : Gate.st) :
  G (RateLimiter.rpm_bucket (self (Gate.waited w s))) = G (RateLimiter.rpm_bucket (self s)) /\
  G (RateLimiter.tpm_bucket (self (Gate.waited w s))) = G (RateLimiter.tpm_bucket (self s)).
Proof.
  destruct (Qlt_le_dec 0 (Gate.wait_time w s)) as [Hpos|Hnon].
  - rewrite (@waited_throttled _ _ Hpos), throttled_eq, checked_eq.
    split; repeat shape_step; reflexivity.
  - rewrite (@waited_unthrottled _ _ Hnon), checked_eq.
    split; repeat shape_step; reflexivity.
Qed.

Lemma shape_admitted (w : Z) (s : Gate.st) :
  G (RateLimiter.rpm_bucket (self (Gate.admitted w s))) = G (RateLimiter.rpm_bucket (self s)) /\
  G (RateLimiter.tpm_bucket (self (Gate.admitted w s))) = G (RateLimiter.tpm_bucket (self s)).
Proof.
  destruct (shape_waited w s) as [W1 W2].
  rewrite admitted_eq, consumed_eq.
  split; repeat shape_step; assumption.
Qed.

End BucketShape.

Lemma rates_admitted (w : Z) (s : Gate.st) :
  TokenBucket.refill_rate (RateLimiter.rpm_bucket (self (Gate.admitted w s))) =
    TokenBucket.refill_rate (RateLimiter.rpm_bucket (self s)) /\
  TokenBucket.refill_rate (RateLimiter.tpm_bucket (self (Gate.admitted w s))) =
    TokenBucket.refill_rate (RateLimiter.tpm_bucket (self s)).
Proof.
  apply (@shape_admitted Q TokenBucket.refill_rate).
  - reflexivity.
  - intros now n b. apply consume_shape.
Qed.

Lemma slot_taken_fields (X : Type) (F : RateLimiter.t -> X) (g : RateLimiter.t -> Semaphore.t)
  (s : Gate.st) :
  (forall sem r, F (RateLimiter.set_semaphore sem r) = F r) ->
  F (self (Gate.map_self (fun r => RateLimiter.set_semaphore (g r) r) s)) = F (self s).
Proof. intros H. rewrite self_map_self. apply H. Qed.

(** What one scoped request leaves of the limiter. *)
Lemma request_fields (w : Z) (s : Gate.st) :
  let s' := Gate.released (Gate.entered w s) in
  RateLimiter.total_requests (self s') = (RateLimiter.total_requests (self s) + 1)%Z /\
  RateLimiter.total_tokens_consumed (self s') =
    (RateLimiter.total_tokens_consumed (self s) + w)%Z /\
  (RateLimiter.requests_throttled (self s) <= RateLimiter.requests_throttled (self s') <=
   RateLimiter.requests_throttled (self s) + 1)%Z /\
  RateLimiter.total_wait_time (self s) <= RateLimiter.total_wait_time (self s') /\
  Semaphore._value (RateLimiter.semaphore (self s')) =
    Semaphore._value (RateLimiter.semaphore (self s)) /\
  TokenBucket.refill_rate (RateLimiter.rpm_bucket (self s')) =
    TokenBucket.refill_rate (RateLimiter.rpm_bucket (self s)) /\
  TokenBucket.refill_rate (RateLimiter.tpm_bucket (self s')) =
    TokenBucket.refill_rate (RateLimiter.tpm_bucket (self s)).
Proof.
  cbv zeta.
  destruct (admitted_counters w s) as (C1 & C2 & C3).
  destruct (rates_admitted w s) as (R1 & R2).
  destruct (released_fields (Gate.entered w s))
    as (F1 & F2 & F3 & F4 & F5 & F6 & F7 & _).
  rewrite F1, F2, F3, F4, F5, F6, F7.
  unfold Gate.entered.
  rewrite (slot_taken_fields RateLimiter.total_requests) by reflexivity.
  rewrite (slot_taken_fields RateLimiter.total_tokens_consumed) by reflexivity.
  rewrite (slot_taken_fields RateLimiter.requests_throttled) by reflexivity.
  rewrite (slot_taken_fields RateLimiter.total_wait_time) by reflexivity.
  rewrite (slot_taken_fields RateLimiter.rpm_bucket) by reflexivity.
  rewrite (slot_taken_fields RateLimiter.tpm_bucket) by reflexivity.
  rewrite self_map_self.
  cbn [RateLimiter.semaphore RateLimiter.set_semaphore Semaphore._value].
  rewrite C1, C2, C3, R1, R2.
  split; [reflexivity|]. split; [reflexivity|].
  destruct (admitted_throttling w s) as [(Hpos & T1 & T2 & _)|(_ & T1 & T2 & _)];
    rewrite T1, T2.
  - split; [lia|]. split; [lra|]. split; [lia|]. split; reflexivity.
  - split; [lia|]. split; [lra|]. split; [lia|]. split; reflexivity.
Qed.

(** When [__aenter__] returns, the gate step has returned and a slot was
    free. *)
Lemma aenter_returned (ctx c : RateLimiterContext.t) (s s' : Gate.st) :
  RateLimiterContext.__aenter__ ctx s = (Ok c, s') ->
  s' = Gate.entered (RateLimiterContext.estimated_tokens ctx) s.
Proof.
  unfold RateLimiterContext.__aenter__.
  remember (RateLimiterContext.estimated_tokens ctx) as w eqn:Ew.
  unfold bind at 1.
  destruct (RateLimiter._wait_for_capacity w s) as [[[]|e|] s1] eqn:E;
    [|discriminate|discriminate].
  apply wait_for_capacity_returned in E. subst s1.
  destruct (Z_lt_le_dec 0 (Semaphore._value (RateLimiter.semaphore (self (Gate.admitted w s)))))
    as [Hfree|Hfull].
  - erewrite bind_ok by (apply run_acquire; exact Hfree).
    unfold ret. intros H. injection H as _ H. symmetry. exact H.
  - rewrite (@bind_pending _ _ _ _ _ _ _ (@acquire_parks _ Hfull)). discriminate.
Qed.

(** When a scoped request whose body does nothing returns, it has gone
    through entry and exit. *)
Lemma request_returned (w : Z) (x : option unit) (s s' : Gate.st) :
  async_with (RateLimiter_acquire w) (ret tt) s = (Ok x, s') ->
  s' = Gate.released (Gate.entered w s).
Proof.
  unfold async_with.
  destruct (RateLimiterContext.__aenter__ (RateLimiter_acquire w) s) as [[c|e|] s1] eqn:E;
    [|discriminate|discriminate].
  apply aenter_returned in E.
  cbn [RateLimiter_acquire RateLimiterContext.estimated_tokens] in E. subst s1.
  unfold ret at 1. cbv iota. rewrite aexit_run.
  intros H. injection H as _ H. symmetry. exact H.
Qed.

(** X8.  The statistics of a limiter add up.  A caller runs the scoped
    requests [async with limiter.acquire(w): pass] for the weights [ws],
    one after the other.  Whenever they all return, on any limiter and
    whatever its rates, [total_requests] has grown by the number of
    requests and [total_tokens_consumed] by the sum of the weights;
    [requests_throttled] has grown by at most the number of requests and
    [total_wait_time] has not decreased; and the number of free slots is
    what it was. *)
Theorem requests_statistics (ws : list Z) :
  forall s s' : Gate.st,
    GateCaller.requests ws s = (Ok tt, s') ->
    RateLimiter.total_requests (self s') =
      (RateLimiter.total_requests (self s) + Z.of_nat (List.length ws))%Z /\
    RateLimiter.total_tokens_consumed (self s') =
      (RateLimiter.total_tokens_consumed (self s) + GateCaller.total ws)%Z /\
    (RateLimiter.requests_throttled (self s) <= RateLimiter.requests_throttled (self s') <=
     RateLimiter.requests_throttled (self s) + Z.of_nat (List.length ws))%Z /\
    RateLimiter.total_wait_time (self s) <= RateLimiter.total_wait_time (self s') /\
    Semaphore._value (RateLimiter.semaphore (self s')) =
      Semaphore._value (RateLimiter.semaphore (self s)).
Proof.
  induction ws as [|w ws IH]; intros s s' Hrun.
  - cbn [GateCaller.requests] in Hrun. unfold ret in Hrun.
    injection Hrun as <-.
    cbn [GateCaller.total fold_right List.length].
    repeat split; try lia; try lra.
  - cbn [GateCaller.requests] in Hrun. unfold bind at 1 in Hrun.
    destruct (async_with (RateLimiter_acquire w) (ret tt) s) as [[x|e|] s1] eqn:E;
      [|discriminate|discriminate].
    apply request_returned in E. subst s1.
    destruct (request_fields w s) as (F1 & F2 & F3 & F4 & F5 & _).
    cbv zeta in F1, F2, F3, F4, F5.
    destruct (IH _ _ Hrun) as (I1 & I2 & I3 & I4 & I5).
    rewrite I1, I2, I5, F1, F2, F5.
    cbn [GateCaller.total fold_right List.length].
    fold (GateCaller.total ws).
    repeat split; try lia; try lra.
Qed.

Lemma requests_statistics_witness :
  let s := mkState 0 [] [] (RegistrySpec.built "test" RateLimitConfig_default 0 0) in
  let s' := snd (GateCaller.requests [1000; 2000]%Z s) in
  RateLimiter.total_requests (self s') = 2%Z /\
  RateLimiter.total_tokens_consumed (self s') = 3000%Z.
Proof.
  intros s s'.
  destruct (@requests_statistics [1000; 2000]%Z s s') as (H1 & H2 & _).
  - vm_compute. reflexivity.
  - split; [exact H1 | exact H2].
Defined.

Lemma Zratio_bounds (a b : Z) :
  (0 <= a <= b)%Z -> (0 < b)%Z -> 0 <= inject_Z a / inject_Z b <= 1.
Proof.
  intros [Ha Hab] Hb.
  assert (Qb : 0 < inject_Z b).
  { change 0 with (inject_Z 0). rewrite <- Zlt_Qlt. exact Hb. }
  assert (Qa : 0 <= inject_Z a).
  { change 0 with (inject_Z 0). rewrite <- Zle_Qle. exact Ha. }
  assert (Qab : inject_Z a <= inject_Z b) by (rewrite <- Zle_Qle; exact Hab).
  split.
  - apply Qle_shift_div_l; [exact Qb | lra].
  - apply Qle_shift_div_r; [exact Qb | lra].
Qed.

(** X9.  [get_stats] never fails and never divides by zero: it returns
    for every limiter, reporting the counters as they are and the number of
    free slots.  The throttle rate is [0] while no request was counted and
    otherwise [requests_throttled / total_requests], which lies in [0, 1]
    whenever [0 <= requests_throttled <= total_requests]; the average wait
    is [0] while no request was throttled.  Reading the statistics changes
    no counter and no slot; it only refills the two buckets (their
    capacities and rates stay). *)
Theorem get_stats_is_safe (s : Gate.st) :
  exists st s',
    RateLimiter_get_stats s = (Ok st, s') /\
    RateLimiterStats.total_requests st = RateLimiter.total_requests (self s) /\
    RateLimiterStats.total_tokens_consumed st = RateLimiter.total_tokens_consumed (self s) /\
    RateLimiterStats.requests_throttled st = RateLimiter.requests_throttled (self s) /\
    RateLimiterStats.concurrent_slots_available st =
      Semaphore._value (RateLimiter.semaphore (self s)) /\
    ((RateLimiter.total_requests (self s) <= 0)%Z -> RateLimiterStats.throttle_rate st = 0) /\
    ((0 < RateLimiter.total_requests (self s))%Z ->
     RateLimiterStats.throttle_rate st =
       inject_Z (RateLimiter.requests_throttled (self s)) /
       inject_Z (RateLimiter.total_requests (self s))) /\
    ((0 <= RateLimiter.requests_throttled (self s) <= RateLimiter.total_requests (self s))%Z ->
     0 <= RateLimiterStats.throttle_rate st <= 1) /\
    ((RateLimiter.requests_throttled (self s) <= 0)%Z ->
     RateLimiterStats.avg_wait_time_seconds st = 0) /\
    RateLimiter.total_requests (self s') = RateLimiter.total_requests (self s) /\
    RateLimiter.total_tokens_consumed (self s') = RateLimiter.total_tokens_consumed (self s) /\
    RateLimiter.requests_throttled (self s') = RateLimiter.requests_throttled (self s) /\
    RateLimiter.total_wait_time (self s') = RateLimiter.total_wait_time (self s) /\
    RateLimiter.semaphore (self s') = RateLimiter.semaphore (self s) /\
    trace s' = trace s.
Proof.
  set (s1 := Gate.access_rpm (fun now b => snd (TokenBucket.get_available_tokens now b)) s).
  set (s2 := Gate.access_tpm (fun now b => snd (TokenBucket.get_available_tokens now b)) s1).
  assert (Sem : RateLimiter.semaphore (self s2) = RateLimiter.semaphore (self s)).
  { subst s2 s1.
    rewrite (frame_access_tpm RateLimiter.semaphore) by reflexivity.
    rewrite (frame_access_rpm RateLimiter.semaphore) by reflexivity. reflexivity. }
  eexists. exists s2. split.
  { unfold RateLimiter_get_stats.
    unfold bind at 1, get at 1. cbv beta iota zeta.
    erewrite bind_ok by apply run_on_rpm_bucket.
    erewrite bind_ok by apply run_on_tpm_bucket.
    fold s1. fold s2.
    unfold bind, get, ret. rewrite Sem. reflexivity. }
  cbn [RateLimiterStats.total_requests RateLimiterStats.total_tokens_consumed
       RateLimiterStats.requests_throttled RateLimiterStats.concurrent_slots_available
       RateLimiterStats.throttle_rate RateLimiterStats.avg_wait_time_seconds].
  split; [reflexivity|]. split; [reflexivity|]. split; [reflexivity|].
  split; [reflexivity|].
  split.
  { intros H. rewrite (proj2 (Z.ltb_ge _ _) H). reflexivity. }
  split.
  { intros H. rewrite (proj2 (Z.ltb_lt _ _) H). reflexivity. }
  split.
  { intros [H0 H1].
    destruct (0 <? RateLimiter.total_requests (self s))%Z eqn:E.
    - apply Zratio_bounds; [lia | apply Z.ltb_lt; exact E].
    - split; lra. }
  split.
  { intros H. rewrite (proj2 (Z.ltb_ge _ _) H). reflexivity. }
  subst s2 s1.
  split.
  { rewrite (frame_access_tpm RateLimiter.total_requests) by reflexivity.
    rewrite (frame_access_rpm RateLimiter.total_requests) by reflexivity. reflexivity. }
  split.
  { rewrite (frame_access_tpm RateLimiter.total_tokens_consumed) by reflexivity.
    rewrite (frame_access_rpm RateLimiter.total_tokens_consumed) by reflexivity.
    reflexivity. }
  split.
  { rewrite (frame_access_tpm RateLimiter.requests_throttled) by reflexivity.
    rewrite (frame_access_rpm RateLimiter.requests_throttled) by reflexivity.
    reflexivity. }
  split.
  { rewrite (frame_access_tpm RateLimiter.total_wait_time) by reflexivity.
    rewrite (frame_access_rpm RateLimiter.total_wait_time) by reflexivity.
    reflexivity. }
  split; [exact Sem|].
  rewrite trace_access_tpm, trace_access_rpm. reflexivity.
Qed.

Lemma get_stats_is_safe_witness :
  exists st s',
    RateLimiter_get_stats
      (mkState 0 [] [] (RegistrySpec.built "test" RateLimitConfig_default 0 0))
    = (Ok st, s') /\
    RateLimiterStats.throttle_rate st = 0.
Proof.
  destruct (get_stats_is_safe
              (mkState 0 [] [] (RegistrySpec.built "test" RateLimitConfig_default 0 0)))
    as (st & s' & Hrun & _ & _ & _ & _ & Hzero & _).
  exists st, s'. split; [exact Hrun|]. apply Hzero. cbn. lia.
Defined.

(** ** RateLimiter: requests that find the tokens they need *)

Lemma answers_enough (n : Q) (b : TokenBucket.t) :
  n <= TokenBucket.tokens b -> Gate.answers n b = true /\ Gate.wait_for n b = 0.
Proof.
  intros H. unfold Gate.answers, Gate.wait_for.
  rewrite (proj2 (Qgeb_true _ _) H). split; reflexivity.
Qed.

(** The gate step on buckets that store what the request needs: nothing
    is waited for, and both [consume] calls succeed. *)
Lemma unthrottled_run (w : Z) (s : Gate.st) :
  0 <= TokenBucket.refill_rate (RateLimiter.rpm_bucket (self s)) ->
  0 <= TokenBucket.refill_rate (RateLimiter.tpm_bucket (self s)) ->
  TokenBucket.tokens (RateLimiter.rpm_bucket (self s)) <=
    TokenBucket.capacity (RateLimiter.rpm_bucket (self s)) ->
  TokenBucket.tokens (RateLimiter.tpm_bucket (self s)) <=
    TokenBucket.capacity (RateLimiter.tpm_bucket (self s)) ->
  TokenBucket.last_refill_time (RateLimiter.rpm_bucket (self s)) <= clock s ->
  TokenBucket.last_refill_time (RateLimiter.tpm_bucket (self s)) <= clock s ->
  Forall (fun d => 0 <= d) (latency s) ->
  1 <= TokenBucket.tokens (RateLimiter.rpm_bucket (self s)) ->
  inject_Z w <= TokenBucket.tokens (RateLimiter.tpm_bucket (self s)) ->
  RateLimiter._wait_for_capacity w s = (Ok tt, Gate.admitted w s) /\
  Gate.wait_time w s <= 0 /\
  exists t1 u1 t2 u2 t3,
    clock s <= t1 /\ t1 <= u1 /\ u1 <= t2 /\ t2 <= u2 /\ u2 <= t3 /\
    t3 <= clock (Gate.admitted w s) /\
    fst (TokenBucket.consume t2 1
           (TokenBucket._refill t1 (RateLimiter.rpm_bucket (self s)))) = true /\
    RateLimiter.rpm_bucket (self (Gate.admitted w s)) =
      TokenBucket._refill t3
        (snd (TokenBucket.consume t2 1
                (TokenBucket._refill t1 (RateLimiter.rpm_bucket (self s))))) /\
    fst (TokenBucket.consume u2 (inject_Z w)
           (TokenBucket._refill u1 (RateLimiter.tpm_bucket (self s)))) = true /\
    RateLimiter.tpm_bucket (self (Gate.admitted w s)) =
      TokenBucket._refill (clock (Gate.admitted w s))
        (snd (TokenBucket.consume u2 (inject_Z w)
                (TokenBucket._refill u1 (RateLimiter.tpm_bucket (self s))))).
Proof.
  intros HRr HRt Hcr Hct Hpr Hpt Hl H1 Hw.
  destruct (@checked_shape s Hl) as (t1 & A1 & A2 & L1 & Br & Bt).
  assert (Lr : 1 <= TokenBucket.tokens (RateLimiter.rpm_bucket (self (Gate.checked s)))).
  { rewrite Br.
    apply Qle_trans with (y := TokenBucket.tokens (RateLimiter.rpm_bucket (self s)));
      [exact H1|].
    apply refill_keeps_tokens; [exact HRr | exact Hcr | lra]. }
  assert (Lt : inject_Z w <=
               TokenBucket.tokens (RateLimiter.tpm_bucket (self (Gate.checked s)))).
  { rewrite Bt.
    apply Qle_trans with (y := TokenBucket.tokens (RateLimiter.tpm_bucket (self s)));
      [exact Hw|].
    apply refill_keeps_tokens; [exact HRt | exact Hct | lra]. }
  destruct (answers_enough _ Lr) as [Ar Wr].
  destruct (answers_enough _ Lt) as [At Wt].
  assert (Er : RateLimiter.rpm_bucket (self (Gate.checked s)) =
               RateLimiter.rpm_bucket
                 (self (Gate.access_rpm TokenBucket._refill
                          (Gate.add_event LockAcquired s)))).
  { rewrite checked_eq.
    rewrite (frame_access_tpm RateLimiter.rpm_bucket) by reflexivity. reflexivity. }
  assert (Hnon : Gate.wait_time w s <= 0).
  { rewrite wait_time_eq, Wr, Wt. apply Q.max_lub; apply Qle_refl. }
  split.
  { rewrite wait_for_capacity_cases, <- Er, Ar, At. reflexivity. }
  split; [exact Hnon|].
  pose proof (@waited_unthrottled w s Hnon) as Ew.
  assert (L2 : Forall (fun d => 0 <= d) (latency (Gate.waited w s))).
  { rewrite Ew. exact L1. }
  destruct (@consumed_shape w s L2) as (t2 & A3 & A4 & L3 & Cr & Ct).
  destruct (@admitted_shape w s L3) as (t3 & A5 & A6 & Dr & Dt).
  rewrite Ew in A3, Cr, Ct. rewrite Br in Cr. rewrite Bt in Ct.
  exists t1, (clock (Gate.checked s)), t2, (clock (Gate.consumed w s)), t3.
  split; [exact A1|]. split; [exact A2|]. split; [exact A3|]. split; [exact A4|].
  split; [exact A5|]. split; [exact A6|].
  split.
  { apply consume_answer.
    apply Qle_trans with
      (y := TokenBucket.tokens (TokenBucket._refill t1 (RateLimiter.rpm_bucket (self s)))).
    - rewrite <- Br. exact Lr.
    - apply refill_keeps_tokens;
        [exact HRr | exact (refill_tokens_le_capacity t1 _)
        | cbn [TokenBucket._refill TokenBucket.last_refill_time]; lra]. }
  split; [rewrite Dr, Cr; reflexivity|].
  split.
  { apply consume_answer.
    apply Qle_trans with
      (y := TokenBucket.tokens
              (TokenBucket._refill (clock (Gate.checked s))
                 (RateLimiter.tpm_bucket (self s)))).
    - rewrite <- Bt. exact Lt.
    - apply refill_keeps_tokens;
        [exact HRt | exact (refill_tokens_le_capacity (clock (Gate.checked s)) _)
        | cbn [TokenBucket._refill TokenBucket.last_refill_time]; lra]. }
  rewrite Dt, Ct. reflexivity.
Qed.

(** X10.  A request that finds its tokens is admitted at once and really
    charged.  When the rate bucket stores at least one token and the
    weight bucket at least [w], both within their capacities, with refill
    rates that are not negative (zero included) and a clock that does not
    run backwards, [_wait_for_capacity w] returns without suspending the
    task: no warning is logged, [requests_throttled] and [total_wait_time]
    do not move, the request is counted, and both [consume] calls answer
    [True].  Each bucket ends as the bucket it started from after its
    three accesses: the refill of [get_wait_time], the successful
    [consume], and the refill of the reading for the log record.  The
    weight is one that [float] holds exactly. *)
Theorem stored_tokens_are_charged_at_once (w : Z) (s : Gate.st) :
  0 <= TokenBucket.refill_rate (RateLimiter.rpm_bucket (self s)) ->
  0 <= TokenBucket.refill_rate (RateLimiter.tpm_bucket (self s)) ->
  TokenBucket.tokens (RateLimiter.rpm_bucket (self s)) <=
    TokenBucket.capacity (RateLimiter.rpm_bucket (self s)) ->
  TokenBucket.tokens (RateLimiter.tpm_bucket (self s)) <=
    TokenBucket.capacity (RateLimiter.tpm_bucket (self s)) ->
  TokenBucket.last_refill_time (RateLimiter.rpm_bucket (self s)) <= clock s ->
  TokenBucket.last_refill_time (RateLimiter.tpm_bucket (self s)) <= clock s ->
  Forall (fun d => 0 <= d) (latency s) ->
  1 <= TokenBucket.tokens (RateLimiter.rpm_bucket (self s)) ->
  inject_Z w <= TokenBucket.tokens (RateLimiter.tpm_bucket (self s)) ->
  float_exact w = true ->
  exists s',
    RateLimiter._wait_for_capacity w s = (Ok tt, s') /\
    trace s' =
      trace s ++ [LockAcquired; Logged DEBUG "Rate limit acquired"; LockReleased] /\
    RateLimiter.requests_throttled (self s') = RateLimiter.requests_throttled (self s) /\
    RateLimiter.total_wait_time (self s') = RateLimiter.total_wait_time (self s) /\
    RateLimiter.total_requests (self s') = (RateLimiter.total_requests (self s) + 1)%Z /\
    RateLimiter.total_tokens_consumed (self s') =
      (RateLimiter.total_tokens_consumed (self s) + w)%Z /\
    exists t1 u1 t2 u2 t3,
      clock s <= t1 /\ t1 <= u1 /\ u1 <= t2 /\ t2 <= u2 /\ u2 <= t3 /\ t3 <= clock s' /\
      fst (TokenBucket.consume t2 1
             (TokenBucket._refill t1 (RateLimiter.rpm_bucket (self s)))) = true /\
      RateLimiter.rpm_bucket (self s') =
        TokenBucket._refill t3
          (snd (TokenBucket.consume t2 1
                  (TokenBucket._refill t1 (RateLimiter.rpm_bucket (self s))))) /\
      fst (TokenBucket.consume u2 (inject_Z w)
             (TokenBucket._refill u1 (RateLimiter.tpm_bucket (self s)))) = true /\
      RateLimiter.tpm_bucket (self s') =
        TokenBucket._refill (clock s')
          (snd (TokenBucket.consume u2 (inject_Z w)
                  (TokenBucket._refill u1 (RateLimiter.tpm_bucket (self s))))).
Proof.
  intros HRr HRt Hcr Hct Hpr Hpt Hl H1 Hw _.
  destruct (@unthrottled_run w s HRr HRt Hcr Hct Hpr Hpt Hl H1 Hw)
    as (Hrun & Hnon & Hchain).
  destruct (admitted_counters w s) as (C1 & C2 & _).
  exists (Gate.admitted w s).
  split; [exact Hrun|].
  destruct (admitted_throttling w s) as [(Hpos & _)|(_ & T1 & T2 & Htr)]; [lra|].
  split; [exact Htr|]. split; [exact T1|]. split; [exact T2|].
  split; [exact C1|]. split; [exact C2|]. exact Hchain.
Qed.

Lemma stored_tokens_are_charged_at_once_witness :
  exists s',
    RateLimiter._wait_for_capacity 100
      (mkState 0 [] [] (RegistrySpec.built "test" (RateLimitConfig_init 60 6000 10) 0 0))
      = (Ok tt, s') /\
    Gate.suspensions (trace s') = [] /\
    RateLimiter.total_tokens_consumed (self s') = 100%Z.
Proof.
  destruct (@stored_tokens_are_charged_at_once 100
              (mkState 0 [] [] (RegistrySpec.built "test" (RateLimitConfig_init 60 6000 10) 0 0)))
    as (s' & Hrun & Htr & _ & _ & _ & Hcount & _).
  - vm_compute. discriminate.
  - vm_compute. discriminate.
  - vm_compute. discriminate.
  - vm_compute. discriminate.
  - vm_compute. discriminate.
  - vm_compute. discriminate.
  - constructor.
  - vm_compute. discriminate.
  - vm_compute. discriminate.
  - reflexivity.
  - exists s'. split; [exact Hrun|]. split; [|exact Hcount].
    rewrite Htr. reflexivity.
Defined.

(** [RateLimiter(name, config)] for a configuration whose
    [max_concurrent_requests] is not negative. *)
Lemma init_run (name : string) (config : RateLimitConfig) (c : Q) (l : list Q)
  (tr : list (event unit)) :
  (0 <= max_concurrent_requests config)%Z ->
  RateLimiter.__init__ name (Some config) (mkState c l tr tt) =
  (Ok (RegistrySpec.built name config (c + hd 0 l) (c + hd 0 l + hd 0 (tl l))),
   mkState (c + hd 0 l + hd 0 (tl l)) (tl (tl l))
           (tr ++ [Logged INFO "Rate limiter initialized"]) tt).
Proof.
  intros Hmc. unfold RateLimiter.__init__, Semaphore.__init__.
  rewrite (proj2 (Z.ltb_ge _ _) Hmc).
  reflexivity.
Qed.

(** A full bucket, refilled, charged [n] and refilled again, holds
    between [capacity - n] and [capacity]. *)
Lemma charged_level_bounds (t1 t2 t3 n : Q) (b : TokenBucket.t) :
  0 <= TokenBucket.refill_rate b ->
  TokenBucket.tokens b == TokenBucket.capacity b ->
  TokenBucket.last_refill_time b <= t1 -> t1 <= t2 -> t2 <= t3 ->
  0 <= n -> n <= TokenBucket.capacity b ->
  TokenBucket.capacity b - n <=
    TokenBucket.tokens
      (TokenBucket._refill t3 (snd (TokenBucket.consume t2 n (TokenBucket._refill t1 b)))) /\
  TokenBucket.tokens
    (TokenBucket._refill t3 (snd (TokenBucket.consume t2 n (TokenBucket._refill t1 b))))
    <= TokenBucket.capacity b.
Proof.
  intros HR Hfull Hl H12 H23 Hn HnC.
  assert (F1 : TokenBucket.tokens (TokenBucket._refill t1 b) == TokenBucket.capacity b).
  { cbn [TokenBucket._refill TokenBucket.tokens]. apply Q.min_l.
    assert (0 <= (t1 - TokenBucket.last_refill_time b) * TokenBucket.refill_rate b)
      by (apply Qmult_le_0_compat; lra).
    lra. }
  assert (F2 : TokenBucket.tokens (TokenBucket._refill t2 (TokenBucket._refill t1 b))
               == TokenBucket.capacity b).
  { cbn [TokenBucket._refill TokenBucket.tokens TokenBucket.capacity
         TokenBucket.refill_rate TokenBucket.last_refill_time].
    cbn [TokenBucket._refill TokenBucket.tokens] in F1.
    apply Q.min_l.
    assert (0 <= (t2 - t1) * TokenBucket.refill_rate b)
      by (apply Qmult_le_0_compat; lra).
    lra. }
  rewrite consume_enough by (rewrite F2; exact HnC).
  cbn [snd].
  split.
  - remember (TokenBucket.tokens (TokenBucket._refill t2 (TokenBucket._refill t1 b)))
      as L eqn:EL.
    cbn [TokenBucket._refill TokenBucket.tokens TokenBucket.capacity
         TokenBucket.refill_rate TokenBucket.last_refill_time].
    apply Qmin_lower; [lra|].
    assert (0 <= (t3 - t2) * TokenBucket.refill_rate b)
      by (apply Qmult_le_0_compat; lra).
    lra.
  - apply (refill_tokens_le_capacity t3
             (TokenBucket.mk (TokenBucket.capacity b) (TokenBucket.refill_rate b)
                (TokenBucket.tokens (TokenBucket._refill t2 (TokenBucket._refill t1 b)) - n)
                t2)).
Qed.

(** X4.  A new limiter admits its first request within budget at once.
    A limiter is built from a configuration with [requests_per_minute]
    at least 1 and [max_concurrent_requests] not negative, and then asked
    for a weight between 0 and [tokens_per_minute], under a clock that
    does not run backwards.  The constructor returns, and the first
    [_wait_for_capacity] returns without suspending the task and without
    counting it as throttled; the request is counted, and afterwards the
    rate bucket holds between [requests_per_minute - 1] and
    [requests_per_minute] tokens and the weight bucket between
    [tokens_per_minute - w] and [tokens_per_minute].  The two limits are
    integers that [float] holds exactly. *)
Theorem fresh_limiter_admits_first_request (name : string) (rpm tpm mc w : Z)
  (c : Q) (l : list Q) :
  (1 <= rpm)%Z -> (0 <= w <= tpm)%Z -> (0 <= mc)%Z ->
  float_exact rpm = true -> float_exact tpm = true ->
  Forall (fun d => 0 <= d) l ->
  exists limiter s0 s',
    RateLimiter.__init__ name (Some (RateLimitConfig_init rpm tpm mc))
      (mkState c l [] tt) = (Ok limiter, s0) /\
    RateLimiter._wait_for_capacity w (mkState (clock s0) (latency s0) [] limiter)
      = (Ok tt, s') /\
    trace s' = [LockAcquired; Logged DEBUG "Rate limit acquired"; LockReleased] /\
    RateLimiter.requests_throttled (self s') = 0%Z /\
    RateLimiter.total_wait_time (self s') = 0 /\
    RateLimiter.total_requests (self s') = 1%Z /\
    RateLimiter.total_tokens_consumed (self s') = w /\
    inject_Z rpm - 1 <= TokenBucket.tokens (RateLimiter.rpm_bucket (self s')) /\
    TokenBucket.tokens (RateLimiter.rpm_bucket (self s')) <= inject_Z rpm /\
    inject_Z tpm - inject_Z w <= TokenBucket.tokens (RateLimiter.tpm_bucket (self s')) /\
    TokenBucket.tokens (RateLimiter.tpm_bucket (self s')) <= inject_Z tpm.
Proof.
  intros Hrpm [Hw0 Hwt] Hmc _ _ Hl.
  destruct (latency_hd_nonneg Hl) as [Hd1 Hl1].
  destruct (latency_hd_nonneg Hl1) as [Hd2 Hl2].
  assert (Qrpm : 1 <= inject_Z rpm).
  { change 1 with (inject_Z 1). rewrite <- Zle_Qle. exact Hrpm. }
  assert (Qw0 : 0 <= inject_Z w).
  { change 0 with (inject_Z 0). rewrite <- Zle_Qle. exact Hw0. }
  assert (Qwt : inject_Z w <= inject_Z tpm) by (rewrite <- Zle_Qle; exact Hwt).
  assert (Rr : 0 <= inject_Z rpm / 60) by (apply Qle_shift_div_l; lra).
  assert (Rt : 0 <= inject_Z tpm / 60) by (apply Qle_shift_div_l; lra).
  set (cfg := RateLimitConfig_init rpm tpm mc).
  set (limiter := RegistrySpec.built name cfg (c + hd 0 l) (c + hd 0 l + hd 0 (tl l))).
  set (s1 := mkState (c + hd 0 l + hd 0 (tl l)) (tl (tl l)) [] limiter).
  destruct (@unthrottled_run w s1)
    as (Hrun & Hnon & t1 & u1 & t2 & u2 & t3 & O1 & O2 & O3 & O4 & O5 & O6 & _ & Br & _ & Bt);
    [ exact Rr | exact Rt | apply Qle_refl | apply Qle_refl | cbn; lra | apply Qle_refl
    | exact Hl2 | exact Qrpm | exact Qwt | ].
  destruct (admitted_counters w s1) as (C1 & C2 & _).
  destruct (admitted_throttling w s1) as [(Hpos & _)|(_ & T1 & T2 & Htr)]; [lra|].
  exists limiter, (mkState (c + hd 0 l + hd 0 (tl l)) (tl (tl l))
                           ([] ++ [Logged INFO "Rate limiter initialized"]) tt),
         (Gate.admitted w s1).
  split; [apply init_run; exact Hmc|].
  cbn [clock latency].
  split; [exact Hrun|].
  split; [exact Htr|]. split; [exact T1|]. split; [exact T2|].
  split; [exact C1|]. split; [exact C2|].
  rewrite Br, Bt.
  assert (O0 : c + hd 0 l + hd 0 (tl l) <= t1) by exact O1.
  destruct (@charged_level_bounds t1 t2 t3 1 (RateLimiter.rpm_bucket (self s1)))
    as [Lr Ur];
    [ exact Rr | apply Qeq_refl | cbn; lra | lra | lra | lra | exact Qrpm | ].
  destruct (@charged_level_bounds u1 u2 (clock (Gate.admitted w s1)) (inject_Z w)
              (RateLimiter.tpm_bucket (self s1)))
    as [Lt Ut];
    [ exact Rt | apply Qeq_refl | cbn; lra | lra | lra | exact Qw0 | exact Qwt | ].
  split; [exact Lr|]. split; [exact Ur|]. split; [exact Lt | exact Ut].
Qed.

Lemma fresh_limiter_admits_first_request_witness :
  exists limiter s0 s',
    RateLimiter.__init__ "test" (Some (RateLimitConfig_init 60 6000 10))
      (mkState 0 [] [] tt) = (Ok limiter, s0) /\
    RateLimiter._wait_for_capacity 100 (mkState (clock s0) (latency s0) [] limiter)
      = (Ok tt, s') /\
    RateLimiter.total_requests (self s') = 1%Z /\
    RateLimiter.total_tokens_consumed (self s') = 100%Z.
Proof.
  destruct (@fresh_limiter_admits_first_request "test" 60 6000 10 100 0 [])
    as (limiter & s0 & s' & Hinit & Hrun & _ & _ & _ & H1 & H2 & _).
  - lia.
  - lia.
  - lia.
  - reflexivity.
  - reflexivity.
  - constructor.
  - exists limiter, s0, s'. repeat split; assumption.
Defined.

(** ** The registry: gates do not disturb each other *)

(** X11.  Registering a new name disturbs nothing.  In a registry whose
    names are bound to limiters in the store (as in the empty registry and
    after any lookup), the first lookup of a name returns a limiter that is
    a different object from the limiter of every name registered before,
    and each of those names is still bound to its limiter, which has not
    changed. *)
Theorem new_name_disturbs_nothing (model : string) (s : state Registry.t) :
  RegistryShape.well_formed (self s) ->
  Registry._rate_limiters (self s) !! model = None ->
  exists address s',
    Registry.get_rate_limiter model s = (Ok address, s') /\
    RegistryShape.well_formed (self s') /\
    forall (other : string) (address' : nat),
      Registry._rate_limiters (self s) !! other = Some address' ->
      address' <> address /\
      Registry._rate_limiters (self s') !! other = Some address' /\
      Registry.objects (self s') !! address' = Registry.objects (self s) !! address' /\
      Registry.get_rate_limiter other s' = (Ok address', s').
Proof.
  intros Hwf Hnew.
  exists (List.length (Registry.objects (self s))), (RegistrySpec.registered model s).
  split; [apply first_lookup_run; exact Hnew|].
  assert (Hkeep : forall other address',
            Registry._rate_limiters (self s) !! other = Some address' ->
            Registry._rate_limiters (self (RegistrySpec.registered model s)) !! other
              = Some address').
  { intros other address' Hother.
    unfold RegistrySpec.registered. cbn [self Registry._rate_limiters].
    rewrite lookup_insert_ne; [exact Hother|].
    intros ->. rewrite Hnew in Hother. discriminate. }
  split.
  - intros other address' Hother.
    unfold RegistrySpec.registered in *. cbn [self Registry._rate_limiters Registry.objects] in *.
    rewrite length_app. cbn [List.length].
    destruct (decide (model = other)) as [->|Hne].
    + rewrite lookup_insert_eq in Hother. injection Hother as <-. lia.
    + rewrite lookup_insert_ne in Hother by exact Hne.
      pose proof (Hwf _ _ Hother). lia.
  - intros other address' Hother.
    pose proof (Hwf _ _ Hother) as Hlt.
    split; [lia|].
    split; [apply Hkeep; exact Hother|].
    split.
    + unfold RegistrySpec.registered. cbn [self Registry.objects].
      apply lookup_app_l. exact Hlt.
    + apply later_lookup_run. apply Hkeep. exact Hother.
Qed.

Lemma new_name_disturbs_nothing_witness :
  exists address s',
    Registry.get_rate_limiter "gpt-4o-mini"
      (RegistrySpec.registered "gpt-4o" (mkState 0 [] [] (Registry.mk [] ∅)))
      = (Ok address, s') /\
    Registry.get_rate_limiter "gpt-4o" s' = (Ok 0%nat, s') /\
    address <> 0%nat.
Proof.
  destruct (@new_name_disturbs_nothing "gpt-4o-mini"
              (RegistrySpec.registered "gpt-4o" (mkState 0 [] [] (Registry.mk [] ∅))))
    as (address & s' & Hrun & _ & Hold).
  - intros other address' H.
    unfold RegistrySpec.registered in *.
    cbn [self Registry._rate_limiters Registry.objects List.length app] in *.
    apply lookup_insert_Some in H. destruct H as [[_ <-]|[_ H]]; [lia|].
    rewrite lookup_empty in H. discriminate.
  - unfold RegistrySpec.registered. cbn [self Registry._rate_limiters].
    rewrite lookup_insert_ne by discriminate. apply lookup_empty.
  - destruct (Hold "gpt-4o"%string 0%nat) as (Hne & _ & _ & Hget).
    { unfold RegistrySpec.registered. cbn [self Registry._rate_limiters Registry.objects
                                           List.length].
      apply lookup_insert_eq. }
    exists address, s'. split; [exact Hrun|]. split; [exact Hget|].
    intros E. apply Hne. symmetry. exact E.
Defined.

(** ** SessionManager: lookups *)

Section OrderedDictMore.
Context {V : Type}.
Implicit Types (d : OrderedDict.t V) (k : string) (v : V).

Lemma getitem_app_last d k v :
  ~ In k (OrderedDict.keys d) -> OrderedDict.getitem k (d ++ [(k, v)]) = Some v.
Proof.
  induction d as [|[k' v'] d IH]; intros Habs; cbn [app OrderedDict.getitem].
  - rewrite String.eqb_refl. reflexivity.
  - destruct (String.eqb_spec k k') as [->|Hne].
    + exfalso. apply Habs. left. reflexivity.
    + apply IH. intros H. apply Habs. right. exact H.
Qed.

Lemma setitem_app_last d k v v' :
  ~ In k (OrderedDict.keys d) ->
  OrderedDict.setitem k v' (d ++ [(k, v)]) = d ++ [(k, v')].
Proof.
  induction d as [|[k0 v0] d IH]; intros Habs; cbn [app OrderedDict.setitem].
  - rewrite String.eqb_refl. reflexivity.
  - destruct (String.eqb_spec k k0) as [->|Hne].
    + exfalso. apply Habs. left. reflexivity.
    + rewrite IH; [reflexivity|]. intros H. apply Habs. right. exact H.
Qed.

Lemma remove_app_last d k v :
  ~ In k (OrderedDict.keys d) -> OrderedDict.remove k (d ++ [(k, v)]) = d.
Proof.
  induction d as [|[k0 v0] d IH]; intros Habs; cbn [app OrderedDict.remove].
  - rewrite String.eqb_refl. reflexivity.
  - destruct (String.eqb_spec k k0) as [->|Hne].
    + exfalso. apply Habs. left. reflexivity.
    + rewrite IH; [reflexivity|]. intros H. apply Habs. right. exact H.
Qed.

Lemma remove_setitem d k v :
  OrderedDict.remove k (OrderedDict.setitem k v d) = OrderedDict.remove k d.
Proof.
  induction d as [|[k0 v0] d IH]; cbn [OrderedDict.setitem OrderedDict.remove].
  - rewrite String.eqb_refl. reflexivity.
  - destruct (String.eqb k k0) eqn:E; cbn [OrderedDict.remove].
    + rewrite String.eqb_refl. reflexivity.
    + rewrite E, IH. reflexivity.
Qed.

Lemma getitem_present_In d k :
  In k (OrderedDict.keys d) -> exists v, OrderedDict.getitem k d = Some v.
Proof.
  intros H. destruct (OrderedDict.getitem k d) as [v|] eqn:E; [exists v; reflexivity|].
  apply getitem_None in E. contradiction.
Qed.

End OrderedDictMore.

Lemma keys_roomy_subset (M : Z) (d : Pool.dict) (k : string) :
  In k (OrderedDict.keys (Pool.roomy M d)) -> In k (OrderedDict.keys d).
Proof.
  unfold Pool.roomy. destruct (_ <=? _)%Z; [|trivial].
  destruct d as [|kv d']; [trivial|]. intros H. right. exact H.
Qed.

(** A hit: what [get_session] leaves. *)
Lemma got_hit (env : SQLiteSession.behaviour) (session_id : string)
  (metadata : SessionMetadata.t) (s : Pool.st) :
  OrderedDict.getitem session_id (SessionManager._sessions (self s)) = Some metadata ->
  let s' := Pool.got env session_id s in
  SessionManager._sessions (self s') =
    OrderedDict.move_to_end session_id
      (OrderedDict.setitem session_id
         (SessionMetadata.update_access (clock s + hd 0 (latency s)) metadata)
         (SessionManager._sessions (self s))) /\
  SessionManager.stats (self s') = Stats.incr_cache_hits (SessionManager.stats (self s)) /\
  trace s' = trace s ++ [LockAcquired; Logged DEBUG "Session cache hit"; LockReleased] /\
  clock s' = clock s + hd 0 (latency s) /\ latency s' = tl (latency s) /\
  SessionManager.max_sessions (self s') = SessionManager.max_sessions (self s) /\
  SessionManager.session_ttl (self s') = SessionManager.session_ttl (self s) /\
  SessionManager.db_path (self s') = SessionManager.db_path (self s).
Proof.
  intros Hget. cbv zeta. unfold Pool.got. rewrite Hget.
  unfold Pool.unlocked, Pool.touched, Pool.settle.
  cbn [Pool.ticks clock latency trace self SessionManager._sessions
       SessionManager.set_sessions SessionManager.update_stats SessionManager.stats
       SessionManager.max_sessions SessionManager.session_ttl SessionManager.db_path].
  rewrite <- app_assoc. repeat split.
Qed.

(** X12.  A session is created once and then served from the pool.  When
    [get_session] is asked for a key that is not in the pool and the
    constructor of the handle succeeds, it returns the new handle; asking
    for the same key again returns the same handle without calling the
    constructor or closing anything: the second call only takes the lock,
    logs the hit and releases the lock, counts one cache hit, and leaves
    the keys of the pool and [sessions_created] as they were. *)
Theorem session_is_served_from_the_pool (env : SQLiteSession.behaviour)
  (session_id : string) (s : Pool.st) :
  OrderedDict.getitem session_id (SessionManager._sessions (self s)) = None ->
  SQLiteSession.init_raises env session_id = None ->
  exists h s1 s2,
    SessionManager.get_session env session_id s = (Ok h, s1) /\
    SQLiteSession.session_id h = session_id /\
    SessionManager.get_session env session_id s1 = (Ok h, s2) /\
    trace s2 = trace s1 ++ [LockAcquired; Logged DEBUG "Session cache hit"; LockReleased] /\
    OrderedDict.keys (SessionManager._sessions (self s2)) =
      OrderedDict.keys (SessionManager._sessions (self s1)) /\
    Stats.cache_hits (SessionManager.stats (self s2)) =
      (Stats.cache_hits (SessionManager.stats (self s1)) + 1)%Z /\
    Stats.cache_misses (SessionManager.stats (self s2)) =
      Stats.cache_misses (SessionManager.stats (self s1)) /\
    Stats.sessions_created (SessionManager.stats (self s2)) =
      Stats.sessions_created (SessionManager.stats (self s1)).
Proof.
  intros Hmiss Hinit.
  pose proof (get_session_run env session_id s) as Hrun1.
  rewrite Hmiss, Hinit in Hrun1.
  destruct (@got_miss env session_id s Hmiss Hinit)
    as (created_at & Hd1 & _ & _ & _ & Hdb & _).
  cbv zeta in Hd1, Hdb.
  remember (Pool.got env session_id s) as s1 eqn:Es1.
  assert (Habs : ~ In session_id
                     (OrderedDict.keys (Pool.roomy (SessionManager.max_sessions (self s))
                                          (SessionManager._sessions (self s))))).
  { intros H. apply keys_roomy_subset in H. apply getitem_None in Hmiss. contradiction. }
  remember (SessionMetadata.mk
              (SQLiteSession.mk session_id (SessionManager.db_path (self s)))
              created_at (clock s1) 1) as e eqn:Ee.
  assert (Hget1 : OrderedDict.getitem session_id (SessionManager._sessions (self s1)) = Some e).
  { rewrite Hd1. apply getitem_app_last. exact Habs. }
  pose proof (get_session_run env session_id s1) as Hrun2. rewrite Hget1 in Hrun2.
  destruct (@got_hit env session_id e s1 Hget1) as (G1 & G2 & G3 & _). cbv zeta in G1, G2, G3.
  exists (SQLiteSession.mk session_id (SessionManager.db_path (self s))), s1,
         (Pool.got env session_id s1).
  split; [exact Hrun1|]. split; [reflexivity|].
  split; [rewrite Hrun2, Ee; reflexivity|].
  split; [exact G3|].
  rewrite G1, G2, Hd1.
  split.
  { rewrite (@setitem_app_last _ _ _ _ _ Habs).
    rewrite (@move_to_end_present _ _ session_id
               (SessionMetadata.update_access (clock s1 + hd 0 (latency s1)) e))
      by (apply getitem_app_last; exact Habs).
    rewrite (@remove_app_last _ _ _ _ Habs). rewrite !keys_app. reflexivity. }
  repeat split.
Qed.

Lemma session_is_served_from_the_pool_witness :
  exists h s1 s2,
    SessionManager.get_session Pool.well_behaved "user-123"
      (mkState 0 [] [] (SessionManager.__init__ "data/sessions.db" 5 2 1)) = (Ok h, s1) /\
    SessionManager.get_session Pool.well_behaved "user-123" s1 = (Ok h, s2) /\
    Stats.sessions_created (SessionManager.stats (self s2)) =
      Stats.sessions_created (SessionManager.stats (self s1)).
Proof.
  destruct (@session_is_served_from_the_pool Pool.well_behaved "user-123"
              (mkState 0 [] [] (SessionManager.__init__ "data/sessions.db" 5 2 1)))
    as (h & s1 & s2 & H1 & _ & H2 & _ & _ & _ & _ & H3).
  - reflexivity.
  - reflexivity.
  - exists h, s1, s2. split; [exact H1|]. split; [exact H2 | exact H3].
Defined.

(** X13.  The session just asked for is the most recently used one.
    Whenever [get_session] returns a handle, the requested key is the last
    key of the pool, behind the other keys, which keep their order: those
    of the pool without that key after a hit, those left by the eviction
    test after a miss. *)
Theorem accessed_session_is_most_recent (env : SQLiteSession.behaviour)
  (session_id : string) (s : Pool.st) (h : SQLiteSession.t) :
  fst (SessionManager.get_session env session_id s) = Ok h ->
  let d := SessionManager._sessions (self s) in
  OrderedDict.keys
    (SessionManager._sessions (self (snd (SessionManager.get_session env session_id s)))) =
  OrderedDict.keys
    (match OrderedDict.getitem session_id d with
     | Some _ => OrderedDict.remove session_id d
     | None => Pool.roomy (SessionManager.max_sessions (self s)) d
     end) ++ [session_id].
Proof.
  intros Hok. cbv zeta.
  rewrite get_session_run in Hok |- *. cbn [fst snd] in Hok |- *.
  destruct (OrderedDict.getitem session_id (SessionManager._sessions (self s)))
    as [metadata|] eqn:Hget.
  - destruct (@got_hit env session_id metadata s Hget) as (G1 & _). cbv zeta in G1.
    rewrite G1.
    rewrite (@move_to_end_present _ _ session_id
               (SessionMetadata.update_access (clock s + hd 0 (latency s)) metadata))
      by apply getitem_setitem.
    rewrite remove_setitem, keys_app. reflexivity.
  - destruct (SQLiteSession.init_raises env session_id) as [msg|] eqn:Hinit;
      [discriminate|].
    destruct (@got_miss env session_id s Hget Hinit) as (created_at & Hd1 & _).
    cbv zeta in Hd1. rewrite Hd1, keys_app. reflexivity.
Qed.

Lemma accessed_session_is_most_recent_witness :
  OrderedDict.keys
    (SessionManager._sessions
       (self (snd (SessionManager.get_session Pool.well_behaved "a" Pool.example_pool))))
  = ["b"; "a"]%string.
Proof.
  refine (@accessed_session_is_most_recent Pool.well_behaved "a" Pool.example_pool
            (SQLiteSession.mk "a" "data/sessions.db") _).
  reflexivity.
Defined.

(** The eviction test changes the statistics by one eviction at most. *)
Lemma make_room_stats (env : SQLiteSession.behaviour) (t : Pool.st) :
  SessionManager.stats (self (Pool.make_room env t)) =
  match Pool.victim (SessionManager.max_sessions (self t)) (SessionManager._sessions (self t))
  with
  | Some _ => Stats.incr_sessions_evicted (SessionManager.stats (self t))
  | None => SessionManager.stats (self t)
  end.
Proof.
  unfold Pool.make_room, Pool.victim.
  destruct (_ <=? _)%Z; [|reflexivity].
  unfold Pool.evict.
  destruct (SessionManager._sessions (self t)) as [|[k m] rest]; reflexivity.
Qed.

(** A miss whose handle cannot be created: what [get_session] leaves. *)
Lemma got_failed (env : SQLiteSession.behaviour) (session_id msg : string) (s : Pool.st) :
  OrderedDict.getitem session_id (SessionManager._sessions (self s)) = None ->
  SQLiteSession.init_raises env session_id = Some msg ->
  let M := SessionManager.max_sessions (self s) in
  let d := SessionManager._sessions (self s) in
  let s' := Pool.got env session_id s in
  SessionManager._sessions (self s') = Pool.roomy M d /\
  SessionManager.stats (self s') =
    match Pool.victim M d with
    | Some _ => Stats.incr_sessions_evicted
                  (Stats.incr_cache_misses (SessionManager.stats (self s)))
    | None => Stats.incr_cache_misses (SessionManager.stats (self s))
    end /\
  Pool.cleared (trace s') =
    Pool.cleared (trace s) ++
    match Pool.victim M d with
    | Some (_, metadata) => [SQLiteSession.session_id (SessionMetadata.session metadata)]
    | None => []
    end /\
  SessionManager.max_sessions (self s') = M.
Proof.
  intros Hget Hinit. cbv zeta.
  assert (H0 : SessionManager._sessions (self (Pool.missed s)) =
                 SessionManager._sessions (self s) /\
               SessionManager.max_sessions (self (Pool.missed s)) =
                 SessionManager.max_sessions (self s) /\
               Pool.cleared (trace (Pool.missed s)) = Pool.cleared (trace s) /\
               SessionManager.stats (self (Pool.missed s)) =
                 Stats.incr_cache_misses (SessionManager.stats (self s))).
  { unfold Pool.missed, Pool.settle.
    cbn [self trace SessionManager._sessions SessionManager.set_sessions
         SessionManager.update_stats SessionManager.stats SessionManager.max_sessions].
    rewrite cleared_nil_events by (intros target; discriminate).
    repeat split. }
  destruct H0 as (A1 & A2 & A3 & A4).
  pose proof (make_room_fields env (Pool.missed s)) as H1. cbv zeta in H1.
  pose proof (make_room_stats env (Pool.missed s)) as H2.
  rewrite A1, A2 in H1, H2. rewrite A3 in H1. rewrite A4 in H2.
  destruct H1 as (B1 & B2 & _ & _ & _ & B6).
  unfold Pool.got. rewrite Hget, Hinit.
  revert B1 B2 B6 H2.
  generalize (Pool.make_room env (Pool.missed s)). intros t B1 B2 B6 H2.
  unfold Pool.unlocked, Pool.opened, Pool.settle.
  cbn [Pool.ticks self trace clock latency SessionManager._sessions
       SessionManager.set_sessions SessionManager.update_stats SessionManager.stats
       SessionManager.max_sessions].
  rewrite !cleared_nil_events by (intros target; discriminate).
  split; [exact B1|]. split; [exact H2|]. split; [exact B2 | exact B6].
Qed.

(** X14.  A handle that cannot be created still costs an entry.  When the
    pool is at capacity, the key asked for is new and the constructor of
    its handle raises, [get_session] raises that exception after the
    eviction: the least recently used entry has been removed from the pool
    and its handle cleared, one eviction and one miss are counted, and no
    session was created. *)
Theorem failed_creation_still_evicts (env : SQLiteSession.behaviour)
  (session_id msg : string) (s : Pool.st)
  (oldest : string * SessionMetadata.t) (rest : Pool.dict) :
  SessionManager._sessions (self s) = oldest :: rest ->
  (SessionManager.max_sessions (self s) <= Z.of_nat (List.length (oldest :: rest)))%Z ->
  OrderedDict.getitem session_id (SessionManager._sessions (self s)) = None ->
  SQLiteSession.init_raises env session_id = Some msg ->
  exists s',
    SessionManager.get_session env session_id s = (Raise (Exception msg), s') /\
    SessionManager._sessions (self s') = rest /\
    Pool.cleared (trace s') =
      Pool.cleared (trace s) ++
      [SQLiteSession.session_id (SessionMetadata.session (snd oldest))] /\
    Stats.sessions_evicted (SessionManager.stats (self s')) =
      (Stats.sessions_evicted (SessionManager.stats (self s)) + 1)%Z /\
    Stats.cache_misses (SessionManager.stats (self s')) =
      (Stats.cache_misses (SessionManager.stats (self s)) + 1)%Z /\
    Stats.sessions_created (SessionManager.stats (self s')) =
      Stats.sessions_created (SessionManager.stats (self s)).
Proof.
  intros Hd Hfull Hget Hinit.
  pose proof (get_session_run env session_id s) as Hrun. rewrite Hget, Hinit in Hrun.
  destruct (@got_failed env session_id msg s Hget Hinit) as (F1 & F2 & F3 & _).
  cbv zeta in F1, F2, F3.
  rewrite Hd in F1, F2, F3.
  destruct (@victim_at_capacity (SessionManager.max_sessions (self s)) oldest rest Hfull)
    as [Hv Hr].
  rewrite Hv in F2, F3. rewrite Hr in F1.
  exists (Pool.got env session_id s).
  split; [exact Hrun|]. split; [exact F1|].
  split; [destruct oldest as [k0 m0]; exact F3|].
  rewrite F2. repeat split.
Qed.

Lemma failed_creation_still_evicts_witness :
  exists s',
    SessionManager.get_session
      (SQLiteSession.mkBehaviour (fun _ => Some "unable to open database file")
         (fun _ => None) (fun _ => true) (fun _ => None))
      "c"
      (mkState 100 [] []
         (SessionManager.mk "data/sessions.db" 2 50 300
            (SessionManager._sessions (self Pool.example_pool)) None false Stats.zero))
    = (Raise (Exception "unable to open database file"), s') /\
    OrderedDict.keys (SessionManager._sessions (self s')) = ["b"%string].
Proof.
  destruct (@failed_creation_still_evicts
              (SQLiteSession.mkBehaviour (fun _ => Some "unable to open database file")
                 (fun _ => None) (fun _ => true) (fun _ => None))
              "c" "unable to open database file"
              (mkState 100 [] []
                 (SessionManager.mk "data/sessions.db" 2 50 300
                    (SessionManager._sessions (self Pool.example_pool)) None false Stats.zero))
              ("a"%string, SessionMetadata.mk (SQLiteSession.mk "a" "data/sessions.db") 10 10 1)
              [("b"%string,
                SessionMetadata.mk (SQLiteSession.mk "b" "data/sessions.db") 98 99 3)])
    as (s' & Hrun & Hd & _).
  - reflexivity.
  - cbn. lia.
  - reflexivity.
  - reflexivity.
  - exists s'. split; [exact Hrun|]. rewrite Hd. reflexivity.
Defined.

(** ** SessionManager: removing and shutting down *)

(** X15.  [remove_session] forgets exactly the key it is given.  On a
    pool with distinct keys it always returns; afterwards the key is not
    in the pool, every other key has the entry it had, and no statistic
    has moved.  When the key was in the pool its handle was cleared (and
    no other); when it was not, nothing happened but taking and releasing
    the lock. *)
Theorem remove_session_forgets_one_key (env : SQLiteSession.behaviour)
  (session_id : string) (s : Pool.st) :
  List.NoDup (OrderedDict.keys (SessionManager._sessions (self s))) ->
  exists s',
    SessionManager.remove_session env session_id s = (Ok tt, s') /\
    OrderedDict.getitem session_id (SessionManager._sessions (self s')) = None /\
    (forall other, other <> session_id ->
       OrderedDict.getitem other (SessionManager._sessions (self s')) =
       OrderedDict.getitem other (SessionManager._sessions (self s))) /\
    SessionManager.stats (self s') = SessionManager.stats (self s) /\
    match OrderedDict.getitem session_id (SessionManager._sessions (self s)) with
    | Some metadata =>
        Pool.cleared (trace s') =
          Pool.cleared (trace s) ++
          [SQLiteSession.session_id (SessionMetadata.session metadata)]
    | None =>
        trace s' = trace s ++ [LockAcquired; LockReleased] /\
        SessionManager._sessions (self s') = SessionManager._sessions (self s)
    end.
Proof.
  intros Hnd.
  exists (Pool.removed env session_id s).
  split; [apply remove_session_run|].
  destruct (removed_sessions_eq env session_id s) as [Hd _].
  rewrite Hd.
  split.
  { apply getitem_None. apply remove_removes. exact Hnd. }
  split.
  { intros other Hne. apply getitem_remove_ne. exact Hne. }
  unfold Pool.removed.
  destruct (OrderedDict.getitem session_id (SessionManager._sessions (self s)))
    as [metadata|] eqn:Hget;
    unfold Pool.settle;
    cbn [Pool.ticks self trace SessionManager.stats SessionManager.set_sessions
         SessionManager.update_stats].
  - split; [reflexivity|].
    rewrite !cleared_app, (cleared_close_events env). cbn [Pool.cleared flat_map app].
    rewrite ?app_nil_r. reflexivity.
  - split; [reflexivity|]. split; [reflexivity|].
    apply remove_absent. apply getitem_None. exact Hget.
Qed.

Lemma remove_session_forgets_one_key_witness :
  exists s',
    SessionManager.remove_session Pool.well_behaved "a" Pool.example_pool = (Ok tt, s') /\
    OrderedDict.getitem "a" (SessionManager._sessions (self s')) = None.
Proof.
  destruct (@remove_session_forgets_one_key Pool.well_behaved "a" Pool.example_pool
              example_pool_keys_distinct)
    as (s' & Hrun & Hgone & _).
  exists s'. split; [exact Hrun | exact Hgone].
Defined.

(** X16.  [shutdown] empties the pool.  It always returns; afterwards the
    pool holds no entry and the manager is not running; [clear_session]
    was called on the handle of every entry, once each and in pool order;
    the background task was cancelled exactly when there was one; and the
    statistics and the configuration are as before. *)
Theorem shutdown_closes_every_session (env : SQLiteSession.behaviour) (s : Pool.st) :
  exists s',
    SessionManager.shutdown env s = (Ok tt, s') /\
    SessionManager._sessions (self s') = [] /\
    SessionManager._running (self s') = false /\
    Pool.cleared (trace s') =
      Pool.cleared (trace s) ++
      map (fun kv => SQLiteSession.session_id (SessionMetadata.session (snd kv)))
          (SessionManager._sessions (self s)) /\
    (In (Called "cancel" "_cleanup_task") (trace s') <->
     In (Called "cancel" "_cleanup_task") (trace s) \/
     SessionManager._cleanup_task (self s) <> None) /\
    SessionManager.stats (self s') = SessionManager.stats (self s) /\
    SessionManager.max_sessions (self s') = SessionManager.max_sessions (self s) /\
    SessionManager.session_ttl (self s') = SessionManager.session_ttl (self s).
Proof.
  exists (Pool.shut_down env s).
  split; [apply shutdown_run|].
  unfold Pool.shut_down.
  cbn [self trace SessionManager._sessions SessionManager._running SessionManager.stats
       SessionManager.max_sessions SessionManager.session_ttl
       SessionManager.set_sessions SessionManager.set_running].
  split; [reflexivity|]. split; [reflexivity|].
  split.
  { rewrite !cleared_app, (cleared_closed_all env).
    destruct (SessionManager._cleanup_task (self s));
      cbn [Pool.cleared flat_map app]; rewrite ?app_nil_r; reflexivity. }
  split.
  { rewrite !in_app_iff.
    assert (Hno : forall l : Pool.dict,
              ~ In (Called "cancel" "_cleanup_task")
                   (flat_map (fun kv => Pool.close_events env (snd kv)) l)).
    { intros l H. apply in_flat_map in H. destruct H as (kv & _ & H).
      unfold Pool.close_events in H.
      destruct H as [H|H]; [discriminate|].
      destruct (SQLiteSession.clear_session_raises env _).
      - destruct H as [H|[]]; discriminate.
      - destruct (SQLiteSession.has_close env _).
        + destruct H as [H|H]; [discriminate|].
          destruct (SQLiteSession.close_raises env _); destruct H as [H|[]]; discriminate.
        + destruct H as [H|[]]; discriminate. }
    destruct (SessionManager._cleanup_task (self s)) as [task|]; cbn [In].
    - split; [intros _; right; discriminate|]. intros _. right. right. left. left. reflexivity.
    - split.
      + intros [H|[[H|[]]|[[]|[[H|[]]|[H|[H|[H|[]]]]]]]]; try discriminate.
        * left. exact H.
        * exfalso. exact (Hno _ H).
      + intros [H|H]; [left; exact H | congruence]. }
  repeat split.
Qed.

(** X17.  Closing a handle: [clear_session] first, [close] only after a
    clean clear.  [_close_session] always returns and leaves the manager
    untouched; it calls [clear_session] on the handle exactly once; it
    calls [close] exactly when [clear_session] did not raise and the handle
    has a [close] method, so a handle whose [clear_session] raises is never
    closed; and it logs one record: an error when one of the two calls
    raised, a debug record otherwise. *)
Theorem close_session_order (env : SQLiteSession.behaviour) (session_id : string)
  (metadata : SessionMetadata.t) (s : Pool.st) :
  let h := SessionMetadata.session metadata in
  let s' := snd (SessionManager._close_session env session_id metadata s) in
  fst (SessionManager._close_session env session_id metadata s) = Ok tt /\
  self s' = self s /\
  Pool.cleared (trace s') = Pool.cleared (trace s) ++ [SQLiteSession.session_id h] /\
  PoolTrace.closed (trace s') =
    PoolTrace.closed (trace s) ++
    match SQLiteSession.clear_session_raises env h with
    | Some _ => []
    | None => if SQLiteSession.has_close env h then [SQLiteSession.session_id h] else []
    end /\
  exists record,
    trace s' = trace s ++ removelast (Pool.close_events env metadata) ++ [record] /\
    record =
      match SQLiteSession.clear_session_raises env h with
      | Some _ => Logged ERROR "Failed to close session"
      | None =>
          if SQLiteSession.has_close env h
          then match SQLiteSession.close_raises env h with
               | Some _ => Logged ERROR "Failed to close session"
               | None => Logged DEBUG "Session closed"
               end
          else Logged DEBUG "Session closed"
      end.
Proof.
  cbv zeta. rewrite close_session_run. cbn [fst snd self trace].
  split; [reflexivity|]. split; [reflexivity|].
  split; [rewrite cleared_app, cleared_close_events; reflexivity|].
  unfold PoolTrace.closed at 1. rewrite flat_map_app. fold (PoolTrace.closed (trace s)).
  unfold Pool.close_events.
  destruct (SQLiteSession.clear_session_raises env (SessionMetadata.session metadata))
    as [msg|].
  - split; [reflexivity|]. eexists. split; reflexivity.
  - destruct (SQLiteSession.has_close env (SessionMetadata.session metadata)).
    + destruct (SQLiteSession.close_raises env (SessionMetadata.session metadata)) as [msg|];
        (split; [reflexivity|]; eexists; split; reflexivity).
    + split; [reflexivity|]. eexists. split; reflexivity.
Qed.

(** ** SessionManager: the expiry sweep *)

Lemma is_expired_proper (now now' : Q) (ttl : Z) (metadata : SessionMetadata.t) :
  now == now' ->
  SessionManager.is_expired now ttl metadata = SessionManager.is_expired now' ttl metadata.
Proof.
  intros E. destruct (SessionManager.is_expired now' ttl metadata) eqn:H.
  - apply is_expired_iff. apply is_expired_iff in H. lra.
  - destruct (SessionManager.is_expired now ttl metadata) eqn:H'; [|reflexivity].
    apply is_expired_iff in H'.
    assert (Hx : SessionManager.is_expired now' ttl metadata = true)
      by (apply is_expired_iff; lra).
    congruence.
Qed.

Lemma expired_ids_none (now : Q) (ttl : Z) (d : Pool.dict) :
  Forall (fun kv => SessionManager.is_expired now ttl (snd kv) = false) d ->
  SessionManager.expired_ids now ttl d = [].
Proof.
  intros H. unfold SessionManager.expired_ids.
  induction H as [|kv d Hkv _ IH]; [reflexivity|].
  cbn [List.filter]. rewrite Hkv. exact IH.
Qed.

(** X18.  After a sweep only fresh entries are left, and a second sweep at
    the same time finds nothing.  On a pool with distinct keys,
    [cleanup_expired_sessions] returns, and every entry it leaves was
    accessed at most [session_ttl] seconds before the time [now] the sweep
    read (an entry whose age is exactly [session_ttl] stays).  If no time
    passes before the next sweep, that sweep returns [0], closes nothing
    and leaves the pool and the statistics as they are. *)
Theorem sweep_leaves_only_fresh (env : SQLiteSession.behaviour) (s : Pool.st) :
  List.NoDup (OrderedDict.keys (SessionManager._sessions (self s))) ->
  let now := clock s + hd 0 (latency s) in
  exists n s',
    SessionManager.cleanup_expired_sessions env s = (Ok n, s') /\
    clock s' = now /\
    Forall (fun kv => now - SessionMetadata.last_accessed (snd kv) <=
                      inject_Z (SessionManager.session_ttl (self s)))
           (SessionManager._sessions (self s')) /\
    (forall kv, In kv (SessionManager._sessions (self s)) ->
       now - SessionMetadata.last_accessed (snd kv) <=
         inject_Z (SessionManager.session_ttl (self s)) ->
       In kv (SessionManager._sessions (self s'))) /\
    (hd 0 (latency s') == 0 ->
     exists s'',
       SessionManager.cleanup_expired_sessions env s' = (Ok 0%Z, s'') /\
       SessionManager._sessions (self s'') = SessionManager._sessions (self s') /\
       SessionManager.stats (self s'') = SessionManager.stats (self s') /\
       Pool.cleared (trace s'') = Pool.cleared (trace s')).
Proof.
  intros Hnd now.
  pose proof (cleanup_run env s Hnd) as Hrun. cbv zeta in Hrun. fold now in Hrun.
  remember (SessionManager.session_ttl (self s)) as ttl eqn:Ettl.
  remember (SessionManager._sessions (self s)) as d eqn:Ed.
  remember (SessionManager.expired_ids now ttl d) as ids eqn:Eids.
  assert (Hpop : Pool.popped ids d =
                 List.filter (fun kv => negb (SessionManager.is_expired now ttl (snd kv))) d).
  { rewrite Eids. apply popped_expired. exact Hnd. }
  remember (Pool.settle 1
              ([LockAcquired] ++ Pool.swept_events env d ids ++
               match ids with
               | [] => []
               | _ :: _ => [Logged INFO "Expired sessions cleaned up"]
               end ++ [LockReleased]) (Pool.popped ids d)
              (Nat.iter (List.length ids) Stats.incr_sessions_expired) s) as s1 eqn:Es1.
  assert (Hd1 : SessionManager._sessions (self s1) =
                List.filter (fun kv => negb (SessionManager.is_expired now ttl (snd kv))) d).
  { rewrite Es1, <- Hpop. reflexivity. }
  assert (Hc1 : clock s1 = now) by (rewrite Es1; reflexivity).
  assert (Ht1 : SessionManager.session_ttl (self s1) = ttl).
  { rewrite Es1, Ettl. reflexivity. }
  assert (Hnd1 : List.NoDup (OrderedDict.keys (SessionManager._sessions (self s1)))).
  { rewrite Hd1. apply filter_keys_NoDup. exact Hnd. }
  exists (Z.of_nat (List.length ids)), s1. split; [exact Hrun|].
  split; [exact Hc1|].
  rewrite Hd1.
  assert (Hfresh : Forall (fun kv => SessionManager.is_expired now ttl (snd kv) = false)
                     (List.filter (fun kv => negb (SessionManager.is_expired now ttl (snd kv)))
                                  d)).
  { apply List.Forall_forall. intros kv Hin. apply filter_In in Hin. destruct Hin as [_ H].
    apply negb_true_iff in H. exact H. }
  split.
  { eapply List.Forall_impl; [|exact Hfresh].
    intros kv H. cbv beta in H.
    destruct (Qlt_le_dec (inject_Z ttl) (now - SessionMetadata.last_accessed (snd kv)))
      as [Hlt|Hle]; [|exact Hle].
    apply is_expired_iff in Hlt. congruence. }
  split.
  { intros kv Hin Hage. apply filter_In. split; [exact Hin|].
    apply negb_true_iff.
    destruct (SessionManager.is_expired now ttl (snd kv)) eqn:E; [|reflexivity].
    apply is_expired_iff in E. lra. }
  intros Hstill.
  pose proof (cleanup_run env s1 Hnd1) as Hrun1. cbv zeta in Hrun1.
  assert (Hnone : SessionManager.expired_ids (clock s1 + hd 0 (latency s1))
                    (SessionManager.session_ttl (self s1))
                    (SessionManager._sessions (self s1)) = []).
  { apply expired_ids_none. rewrite Hd1, Ht1.
    eapply List.Forall_impl; [|exact Hfresh].
    intros kv H. cbv beta in H. rewrite <- H.
    apply is_expired_proper. rewrite Hc1. lra. }
  rewrite Hnone in Hrun1.
  eexists. split; [exact Hrun1|].
  unfold Pool.settle.
  cbn [Pool.ticks Pool.popped fold_left Pool.swept_events flat_map List.length Nat.iter
       self trace SessionManager._sessions SessionManager.set_sessions
       SessionManager.update_stats SessionManager.stats app].
  split; [exact Hd1|]. split; [reflexivity|].
  rewrite cleared_app. cbn [Pool.cleared flat_map app]. apply app_nil_r.
Qed.

Lemma sweep_leaves_only_fresh_witness :
  exists n s',
    SessionManager.cleanup_expired_sessions Pool.well_behaved Pool.example_pool = (Ok n, s') /\
    Forall (fun kv => 100 + 0 - SessionMetadata.last_accessed (snd kv) <= inject_Z 50)
           (SessionManager._sessions (self s')).
Proof.
  destruct (@sweep_leaves_only_fresh Pool.well_behaved Pool.example_pool
              example_pool_keys_distinct)
    as (n & s' & Hrun & _ & Hfresh & _).
  exists n, s'. split; [exact Hrun | exact Hfresh].
Defined.

(** ** SessionManager: the statistics add up *)

(** A miss whose handle is created: the statistics [get_session] leaves. *)
Lemma got_created_stats (env : SQLiteSession.behaviour) (session_id : string) (s : Pool.st) :
  OrderedDict.getitem session_id (SessionManager._sessions (self s)) = None ->
  SQLiteSession.init_raises env session_id = None ->
  SessionManager.stats (self (Pool.got env session_id s)) =
    Stats.incr_sessions_created
      match Pool.victim (SessionManager.max_sessions (self s))
                        (SessionManager._sessions (self s)) with
      | Some _ => Stats.incr_sessions_evicted
                    (Stats.incr_cache_misses (SessionManager.stats (self s)))
      | None => Stats.incr_cache_misses (SessionManager.stats (self s))
      end.
Proof.
  intros Hget Hinit.
  pose proof (make_room_stats env (Pool.missed s)) as H2.
  assert (A : SessionManager._sessions (self (Pool.missed s)) =
                SessionManager._sessions (self s) /\
              SessionManager.max_sessions (self (Pool.missed s)) =
                SessionManager.max_sessions (self s) /\
              SessionManager.stats (self (Pool.missed s)) =
                Stats.incr_cache_misses (SessionManager.stats (self s))).
  { unfold Pool.missed, Pool.settle. repeat split. }
  destruct A as (A1 & A2 & A4). rewrite A1, A2, A4 in H2.
  unfold Pool.got. rewrite Hget, Hinit.
  revert H2. generalize (Pool.make_room env (Pool.missed s)). intros t H2.
  unfold Pool.unlocked, Pool.inserted, Pool.opened, Pool.settle.
  cbn [self SessionManager.stats SessionManager.set_sessions SessionManager.update_stats].
  rewrite H2. reflexivity.
Qed.

Lemma roomy_length_victim (M : Z) (d : Pool.dict) :
  Z.of_nat (List.length d) =
  (Z.of_nat (List.length (Pool.roomy M d)) +
   match Pool.victim M d with Some _ => 1 | None => 0 end)%Z.
Proof.
  pose proof (roomy_victim M d) as H.
  destruct (Pool.victim M d) as [kv|].
  - rewrite H at 1. cbn [List.length]. lia.
  - rewrite H. lia.
Qed.

Lemma filter_split_length {X} (P : X -> bool) (l : list X) :
  List.length l =
  (List.length (List.filter P l) +
   List.length (List.filter (fun x => negb (P x)) l))%nat.
Proof.
  induction l as [|x l IH]; [reflexivity|].
  cbn [List.filter List.length]. destruct (P x); cbn [negb List.length]; lia.
Qed.

(** What one operation does to the accounts. *)
Lemma run_op_accounts (env : SQLiteSession.behaviour) (o : Pool.op) (s : Pool.st) :
  List.NoDup (OrderedDict.keys (SessionManager._sessions (self s))) ->
  let s' := Pool.run_op env o s in
  let st := SessionManager.stats (self s) in
  let st' := SessionManager.stats (self s') in
  List.NoDup (OrderedDict.keys (SessionManager._sessions (self s'))) /\
  (PoolAccounting.balance (self s) <= PoolAccounting.balance (self s'))%Z /\
  (PoolAccounting.is_removal o = false ->
   PoolAccounting.balance (self s') = PoolAccounting.balance (self s)) /\
  (Stats.cache_hits st' + Stats.cache_misses st' =
   Stats.cache_hits st + Stats.cache_misses st +
   if PoolAccounting.is_lookup o then 1 else 0)%Z /\
  (Stats.sessions_created st' - Stats.sessions_created st <=
   Stats.cache_misses st' - Stats.cache_misses st)%Z /\
  (Stats.cache_hits st <= Stats.cache_hits st')%Z /\
  (Stats.cache_misses st <= Stats.cache_misses st')%Z.
Proof.
  intros Hnd. cbv zeta. unfold PoolAccounting.balance.
  destruct o as [k|k|]; cbn [Pool.run_op PoolAccounting.is_removal PoolAccounting.is_lookup].
  - (* get_session *)
    rewrite get_session_run. cbn [snd].
    destruct (OrderedDict.getitem k (SessionManager._sessions (self s))) as [m|] eqn:Hget.
    + destruct (@got_hit env k m s Hget) as (G1 & G2 & _). cbv zeta in G1, G2.
      rewrite G1, G2.
      assert (Hin : In k (OrderedDict.keys (SessionManager._sessions (self s)))).
      { apply getitem_In in Hget. apply (in_map fst) in Hget. exact Hget. }
      rewrite move_to_end_length
        by (rewrite keys_setitem_present by exact Hin; exact Hin).
      rewrite length_setitem_present by exact Hin.
      split; [apply move_to_end_NoDup, setitem_NoDup; exact Hnd|].
      cbn [Stats.incr_cache_hits Stats.sessions_created Stats.sessions_evicted
           Stats.sessions_expired Stats.cache_hits Stats.cache_misses].
      repeat split; lia.
    + pose proof (roomy_length_victim (SessionManager.max_sessions (self s))
                    (SessionManager._sessions (self s))) as Hlen.
      assert (Habs : ~ In k (OrderedDict.keys
                               (Pool.roomy (SessionManager.max_sessions (self s))
                                           (SessionManager._sessions (self s))))).
      { intros H. apply keys_roomy_subset in H. apply getitem_None in Hget. contradiction. }
      destruct (SQLiteSession.init_raises env k) as [msg|] eqn:Hinit.
      * destruct (@got_failed env k msg s Hget Hinit) as (F1 & F2 & _ & _).
        cbv zeta in F1, F2. rewrite F1, F2.
        split; [apply roomy_NoDup; exact Hnd|].
        destruct (Pool.victim _ _);
          cbn [Stats.incr_cache_misses Stats.incr_sessions_evicted Stats.sessions_created
               Stats.sessions_evicted Stats.sessions_expired Stats.cache_hits
               Stats.cache_misses];
          repeat split; lia.
      * destruct (@got_miss env k s Hget Hinit) as (created_at & Hd1 & _).
        cbv zeta in Hd1.
        rewrite (got_created_stats env k s Hget Hinit), Hd1.
        rewrite length_app. cbn [List.length].
        split.
        { rewrite keys_app. apply List.NoDup_app.
          - apply roomy_NoDup; exact Hnd.
          - repeat constructor. intros [].
          - intros x Hx [<-|[]]. contradiction. }
        destruct (Pool.victim _ _);
          cbn [Stats.incr_cache_misses Stats.incr_sessions_evicted
               Stats.incr_sessions_created Stats.sessions_created
               Stats.sessions_evicted Stats.sessions_expired Stats.cache_hits
               Stats.cache_misses];
          repeat split; lia.
  - (* remove_session *)
    rewrite remove_session_run. cbn [snd].
    destruct (removed_sessions_eq env k s) as [Hd _]. rewrite Hd.
    assert (Hst : SessionManager.stats (self (Pool.removed env k s)) =
                  SessionManager.stats (self s)).
    { unfold Pool.removed.
      destruct (OrderedDict.getitem k (SessionManager._sessions (self s))); reflexivity. }
    rewrite Hst.
    split; [apply keys_remove_NoDup; exact Hnd|].
    pose proof (length_remove_le (SessionManager._sessions (self s)) k).
    repeat split; try lia; discriminate.
  - (* cleanup_expired_sessions *)
    rewrite (cleanup_run env s Hnd). cbv zeta. cbn [snd].
    unfold Pool.settle.
    cbn [self SessionManager._sessions SessionManager.stats SessionManager.set_sessions
         SessionManager.update_stats].
    rewrite (@popped_expired _ _ _ Hnd).
    destruct (stats_after_expiries
                (List.length (SessionManager.expired_ids (clock s + hd 0 (latency s))
                                (SessionManager.session_ttl (self s))
                                (SessionManager._sessions (self s))))
                (SessionManager.stats (self s))) as (E1 & E2 & E3 & E4 & E5).
    rewrite E1, E2, E3, E4, E5.
    unfold SessionManager.expired_ids. rewrite length_map.
    pose proof (filter_split_length
                  (fun kv => SessionManager.is_expired (clock s + hd 0 (latency s))
                               (SessionManager.session_ttl (self s)) (snd kv))
                  (SessionManager._sessions (self s))) as Hsplit.
    split; [apply filter_keys_NoDup; exact Hnd|].
    repeat split; lia.
Qed.

(** X19.  The statistics of the pool add up.  Over any sequence of
    get_session / remove_session / cleanup_expired_sessions operations on a
    pool with distinct keys, whatever their outcomes: the number of
    sessions in the pool never exceeds
    [sessions_created - sessions_evicted - sessions_expired] by more than it
    did at the start, and the two differ by exactly as much as at the start
    when no [remove_session] was among the operations (removals are the
    only way out of the pool that is not counted); [cache_hits +
    cache_misses] has grown by the number of [get_session] calls; and no
    session was created without a miss. *)
Theorem pool_statistics_add_up (env : SQLiteSession.behaviour) (ops : list Pool.op) :
  forall s : Pool.st,
    List.NoDup (OrderedDict.keys (SessionManager._sessions (self s))) ->
    let s' := Pool.run_ops env ops s in
    let st := SessionManager.stats (self s) in
    let st' := SessionManager.stats (self s') in
    (PoolAccounting.balance (self s) <= PoolAccounting.balance (self s'))%Z /\
    (forallb (fun o => negb (PoolAccounting.is_removal o)) ops = true ->
     PoolAccounting.balance (self s') = PoolAccounting.balance (self s)) /\
    (Stats.cache_hits st' + Stats.cache_misses st' =
     Stats.cache_hits st + Stats.cache_misses st + PoolAccounting.lookups ops)%Z /\
    (Stats.sessions_created st' - Stats.sessions_created st <=
     Stats.cache_misses st' - Stats.cache_misses st)%Z.
Proof.
  induction ops as [|o ops IH]; intros s Hnd; cbv zeta.
  - unfold PoolAccounting.lookups. cbn [Pool.run_ops List.filter List.length].
    repeat split; lia.
  - destruct (@run_op_accounts env o s Hnd) as (N1 & B1 & B2 & B3 & B4 & _).
    cbv zeta in B1, B2, B3, B4.
    destruct (IH (Pool.run_op env o s) N1) as (I1 & I2 & I3 & I4).
    cbv zeta in I1, I2, I3, I4.
    cbn [Pool.run_ops].
    split; [lia|]. split.
    { cbn [forallb]. intros H. apply andb_true_iff in H. destruct H as [Ho Hops].
      apply negb_true_iff in Ho. rewrite (I2 Hops). apply B2. exact Ho. }
    split; [|lia].
    rewrite I3, B3. unfold PoolAccounting.lookups. cbn [List.filter].
    destruct (PoolAccounting.is_lookup o); cbn [List.length]; lia.
Qed.

Lemma pool_statistics_add_up_witness :
  let s' := Pool.run_ops Pool.well_behaved
              [Pool.GetSession "user-1"; Pool.GetSession "user-2"; Pool.GetSession "user-1";
               Pool.CleanupExpired]
              (mkState 0 [] [] (SessionManager.__init__ "data/sessions.db" 5 2 1)) in
  PoolAccounting.balance (self s') = 0%Z /\
  (Stats.cache_hits (SessionManager.stats (self s')) +
   Stats.cache_misses (SessionManager.stats (self s')) = 3)%Z.
Proof.
  cbv zeta.
  destruct (@pool_statistics_add_up Pool.well_behaved
              [Pool.GetSession "user-1"; Pool.GetSession "user-2"; Pool.GetSession "user-1";
               Pool.CleanupExpired]
              (mkState 0 [] [] (SessionManager.__init__ "data/sessions.db" 5 2 1)))
    as (_ & Hbal & Hlook & _).
  - constructor.
  - cbv zeta in Hbal, Hlook. split; [apply Hbal; reflexivity | exact Hlook].
Defined.

(** ** SessionManager: the pool stays in recency order *)

Section RecencyOrder.
Variable env : SQLiteSession.behaviour.

Let older (a b : string * SessionMetadata.t) : Prop :=
  SessionMetadata.last_accessed (snd a) <= SessionMetadata.last_accessed (snd b).

Lemma Forall_remove (P : string * SessionMetadata.t -> Prop) (k : string) (d : Pool.dict) :
  Forall P d -> Forall P (OrderedDict.remove k d).
Proof.
  induction 1 as [|[k' v] d Hx Hd IH]; cbn [OrderedDict.remove]; [constructor|].
  destruct (String.eqb k k'); [exact Hd | constructor; assumption].
Qed.

Lemma sorted_remove (k : string) (d : Pool.dict) :
  StronglySorted older d -> StronglySorted older (OrderedDict.remove k d).
Proof.
  induction 1 as [|[k' v] d Hs IH Hx]; cbn [OrderedDict.remove]; [constructor|].
  destruct (String.eqb k k'); [exact Hs|].
  constructor; [exact IH | apply Forall_remove; exact Hx].
Qed.

Lemma Forall_filter (P : string * SessionMetadata.t -> Prop)
  (f : string * SessionMetadata.t -> bool) (d : Pool.dict) :
  Forall P d -> Forall P (List.filter f d).
Proof.
  induction 1 as [|x d Hx Hd IH]; cbn [List.filter]; [constructor|].
  destruct (f x); [constructor; assumption | exact IH].
Qed.

Lemma sorted_filter (f : string * SessionMetadata.t -> bool) (d : Pool.dict) :
  StronglySorted older d -> StronglySorted older (List.filter f d).
Proof.
  induction 1 as [|x d Hs IH Hx]; cbn [List.filter]; [constructor|].
  destruct (f x); [|exact IH].
  constructor; [exact IH | apply Forall_filter; exact Hx].
Qed.

Lemma roomy_ordered (M : Z) (d : Pool.dict) (c : Q) :
  StronglySorted older d ->
  Forall (fun kv => SessionMetadata.last_accessed (snd kv) <= c) d ->
  StronglySorted older (Pool.roomy M d) /\
  Forall (fun kv => SessionMetadata.last_accessed (snd kv) <= c) (Pool.roomy M d).
Proof.
  intros Hs Hf. unfold Pool.roomy. destruct (_ <=? _)%Z; [|split; assumption].
  destruct d as [|kv d]; [split; assumption|].
  cbn [tl]. inversion Hs; subst. inversion Hf; subst. split; assumption.
Qed.

Lemma Forall_le_clock (d : Pool.dict) (c c' : Q) :
  c <= c' ->
  Forall (fun kv => SessionMetadata.last_accessed (snd kv) <= c) d ->
  Forall (fun kv => SessionMetadata.last_accessed (snd kv) <= c') d.
Proof.
  intros Hc H. eapply List.Forall_impl; [|exact H]. intros kv Hkv. cbv beta in *. lra.
Qed.

Lemma run_op_recency (o : Pool.op) (s : Pool.st) :
  List.NoDup (OrderedDict.keys (SessionManager._sessions (self s))) ->
  Pool.lru_ordered s -> Pool.lru_ordered (Pool.run_op env o s).
Proof.
  intros Hnd (Hs & Hf & Hl). fold older in Hs. unfold Pool.lru_ordered. fold older.
  destruct o as [k|k|]; cbn [Pool.run_op].
  - rewrite get_session_run. cbn [snd].
    destruct (got_later env k s Hl) as [Hclk Hl'].
    destruct (OrderedDict.getitem k (SessionManager._sessions (self s))) as [m|] eqn:Hget.
    + destruct (@got_hit env k m s Hget) as (G1 & _ & _ & G4 & _). cbv zeta in G1, G4.
      rewrite G1.
      rewrite (@move_to_end_present _ _ k
                 (SessionMetadata.update_access (clock s + hd 0 (latency s)) m))
        by apply getitem_setitem.
      rewrite remove_setitem, <- G4.
      assert (Hf' : Forall (fun kv => SessionMetadata.last_accessed (snd kv) <=
                                      clock (Pool.got env k s))
                           (OrderedDict.remove k (SessionManager._sessions (self s)))).
      { apply Forall_remove. eapply Forall_le_clock; [exact Hclk | exact Hf]. }
      split; [|split; [|exact Hl']].
      * apply sorted_append with (c := clock (Pool.got env k s));
          [apply sorted_remove; exact Hs | exact Hf' | apply Qle_refl].
      * apply Forall_app. split; [exact Hf'|].
        constructor; [apply Qle_refl | constructor].
    + destruct (@roomy_ordered (SessionManager.max_sessions (self s))
                  (SessionManager._sessions (self s)) (clock (Pool.got env k s)) Hs)
        as [Rs Rf]; [eapply Forall_le_clock; [exact Hclk | exact Hf]|].
      destruct (SQLiteSession.init_raises env k) as [msg|] eqn:Hinit.
      * destruct (@got_failed env k msg s Hget Hinit) as (F1 & _). cbv zeta in F1.
        rewrite F1. split; [exact Rs|]. split; [exact Rf | exact Hl'].
      * destruct (@got_miss env k s Hget Hinit) as (created_at & Hd1 & _).
        cbv zeta in Hd1. rewrite Hd1.
        split; [|split; [|exact Hl']].
        -- apply sorted_append with (c := clock (Pool.got env k s));
             [exact Rs | exact Rf | apply Qle_refl].
        -- apply Forall_app. split; [exact Rf|].
           constructor; [apply Qle_refl | constructor].
  - rewrite remove_session_run. cbn [snd].
    destruct (removed_sessions_eq env k s) as [Hd _]. rewrite Hd.
    assert (Hsame : clock (Pool.removed env k s) = clock s /\
                    latency (Pool.removed env k s) = latency s).
    { unfold Pool.removed.
      destruct (OrderedDict.getitem k (SessionManager._sessions (self s)));
        split; reflexivity. }
    destruct Hsame as [-> ->].
    split; [apply sorted_remove; exact Hs|].
    split; [apply Forall_remove; exact Hf | exact Hl].
  - rewrite (cleanup_run env s Hnd). cbv zeta. cbn [snd].
    match goal with
    | |- context [Pool.settle ?n ?evs ?d ?f s] =>
        destruct (@settle_later n evs d f s Hl) as [Hclk Hl'];
        remember (Pool.settle n evs d f s) as s1 eqn:Es1
    end.
    assert (Hd1 : SessionManager._sessions (self s1) =
                  Pool.popped (SessionManager.expired_ids (clock s + hd 0 (latency s))
                                 (SessionManager.session_ttl (self s))
                                 (SessionManager._sessions (self s)))
                              (SessionManager._sessions (self s))).
    { rewrite Es1. reflexivity. }
    rewrite Hd1, (@popped_expired _ _ _ Hnd).
    split; [apply sorted_filter; exact Hs|].
    split; [|exact Hl'].
    apply Forall_filter. eapply Forall_le_clock; [exact Hclk | exact Hf].
Qed.

End RecencyOrder.

(** X20.  The pool is always in recency order.  Starting from a pool with
    distinct keys whose entries are ordered by their last access, none of
    them accessed in the future, every sequence of get_session /
    remove_session / cleanup_expired_sessions operations under a clock that
    does not run backwards leaves the pool ordered in the same way.  Hence
    the first entry, the one [_evict_oldest_session] takes, is always one
    that was accessed no later than every other entry. *)
Theorem pool_stays_in_recency_order (env : SQLiteSession.behaviour) (ops : list Pool.op) :
  forall s : Pool.st,
    List.NoDup (OrderedDict.keys (SessionManager._sessions (self s))) ->
    Pool.lru_ordered s ->
    let s' := Pool.run_ops env ops s in
    Pool.lru_ordered s' /\
    forall oldest rest,
      SessionManager._sessions (self s') = oldest :: rest ->
      Forall (fun kv => SessionMetadata.last_accessed (snd oldest) <=
                        SessionMetadata.last_accessed (snd kv)) rest.
Proof.
  induction ops as [|o ops IH]; intros s Hnd Hord; cbv zeta; cbn [Pool.run_ops].
  - split; [exact Hord|].
    intros oldest rest Hd. destruct Hord as (Hs & _). rewrite Hd in Hs.
    inversion Hs; subst. assumption.
  - apply IH.
    + destruct (@run_op_accounts env o s Hnd) as (N1 & _). exact N1.
    + apply run_op_recency; assumption.
Qed.

Lemma pool_stays_in_recency_order_witness :
  Pool.lru_ordered
    (Pool.run_ops Pool.well_behaved
       [Pool.GetSession "a"; Pool.GetSession "c"; Pool.CleanupExpired]
       Pool.example_pool).
Proof.
  refine (proj1 (@pool_stays_in_recency_order Pool.well_behaved
                   [Pool.GetSession "a"; Pool.GetSession "c"; Pool.CleanupExpired]
                   Pool.example_pool example_pool_keys_distinct _)).
  unfold Pool.lru_ordered, Pool.example_pool.
  cbn [self clock latency SessionManager._sessions].
  split; [|split; [|constructor]].
  - repeat constructor; cbn; vm_compute; discriminate.
  - repeat constructor; cbn; vm_compute; discriminate.
Defined.

(** ** SessionManager: life cycle and reported statistics *)

(** X21.  [start] starts one background task, however often it is
    called.  It always returns and leaves the manager running; called on a
    manager that is not running it creates the cleanup task, called on a
    running one it only logs a warning.  So after two calls in a row
    exactly one task was created, and a [shutdown] that follows cancels
    it.  Neither call touches the pool or the statistics. *)
Theorem start_is_idempotent (env : SQLiteSession.behaviour) (s : Pool.st) :
  let s1 := snd (Lifecycle.start s) in
  let s2 := snd (Lifecycle.start s1) in
  fst (Lifecycle.start s) = Ok tt /\ fst (Lifecycle.start s1) = Ok tt /\
  SessionManager._running (self s1) = true /\
  self s2 = self s1 /\
  trace s2 = trace s1 ++ [Logged WARNING "Session Manager already running"] /\
  Lifecycle.tasks_created (trace s2) =
    Lifecycle.tasks_created (trace s) ++
    (if SessionManager._running (self s) then [] else ["_cleanup_loop"%string]) /\
  SessionManager._sessions (self s2) = SessionManager._sessions (self s) /\
  SessionManager.stats (self s2) = SessionManager.stats (self s) /\
  (SessionManager._running (self s) = false ->
   In (Called "cancel" "_cleanup_task") (trace (snd (SessionManager.shutdown env s2))) /\
   SessionManager._running (self (snd (SessionManager.shutdown env s2))) = false).
Proof.
  cbv zeta.
  assert (H1 : Lifecycle.start s =
               (Ok tt,
                if SessionManager._running (self s)
                then mkState (clock s) (latency s)
                       (trace s ++ [Logged WARNING "Session Manager already running"])
                       (self s)
                else mkState (clock s) (latency s)
                       (trace s ++ [Called "create_task" "_cleanup_loop";
                                    Logged INFO "Session Manager started"])
                       (Lifecycle.set_cleanup_task (Some SessionManager.CleanupLoop)
                          (SessionManager.set_running true (self s))))).
  { unfold Lifecycle.start, bind, get, modify, log, emit, ret.
    cbn [clock latency trace self].
    destruct (SessionManager._running (self s)); cbn [clock latency trace self];
      rewrite <- ?app_assoc; reflexivity. }
  rewrite H1. cbn [fst snd].
  remember (if SessionManager._running (self s)
            then mkState (clock s) (latency s)
                   (trace s ++ [Logged WARNING "Session Manager already running"]) (self s)
            else mkState (clock s) (latency s)
                   (trace s ++ [Called "create_task" "_cleanup_loop";
                                Logged INFO "Session Manager started"])
                   (Lifecycle.set_cleanup_task (Some SessionManager.CleanupLoop)
                      (SessionManager.set_running true (self s)))) as s1 eqn:Es1.
  assert (Hrun1 : SessionManager._running (self s1) = true).
  { rewrite Es1. destruct (SessionManager._running (self s)) eqn:E; [exact E | reflexivity]. }
  assert (H2 : Lifecycle.start s1 =
               (Ok tt, mkState (clock s1) (latency s1)
                         (trace s1 ++ [Logged WARNING "Session Manager already running"])
                         (self s1))).
  { unfold Lifecycle.start, bind, get, log, emit.
    cbn [clock latency trace self]. rewrite Hrun1. reflexivity. }
  rewrite H2. cbn [fst snd self trace].
  split; [reflexivity|]. split; [reflexivity|]. split; [exact Hrun1|].
  split; [reflexivity|]. split; [reflexivity|].
  assert (Htasks : forall tr1 tr2 : list (event SessionManager.t),
            Lifecycle.tasks_created (tr1 ++ tr2) =
            Lifecycle.tasks_created tr1 ++ Lifecycle.tasks_created tr2).
  { intros tr1 tr2. unfold Lifecycle.tasks_created. apply flat_map_app. }
  split.
  { rewrite Htasks, Es1.
    destruct (SessionManager._running (self s)); cbn [trace]; rewrite Htasks;
      cbn [Lifecycle.tasks_created flat_map app]; rewrite ?app_nil_r; reflexivity. }
  split; [rewrite Es1; destruct (SessionManager._running (self s)); reflexivity|].
  split; [rewrite Es1; destruct (SessionManager._running (self s)); reflexivity|].
  intros Hoff.
  rewrite shutdown_run. cbn [snd].
  unfold Pool.shut_down. cbn [self trace SessionManager._running SessionManager.set_running
                              SessionManager.set_sessions].
  split; [|reflexivity].
  assert (Htask : SessionManager._cleanup_task (self s1) = Some SessionManager.CleanupLoop).
  { rewrite Es1, Hoff. reflexivity. }
  rewrite Htask. rewrite !in_app_iff. right. right. left. left. reflexivity.
Qed.

Lemma run_ops_accounts (env : SQLiteSession.behaviour) (ops : list Pool.op) :
  forall s : Pool.st,
    List.NoDup (OrderedDict.keys (SessionManager._sessions (self s))) ->
    let s' := Pool.run_ops env ops s in
    let st := SessionManager.stats (self s) in
    let st' := SessionManager.stats (self s') in
    (PoolAccounting.balance (self s) <= PoolAccounting.balance (self s'))%Z /\
    (forallb (fun o => negb (PoolAccounting.is_removal o)) ops = true ->
     PoolAccounting.balance (self s') = PoolAccounting.balance (self s)) /\
    (Stats.cache_hits st' + Stats.cache_misses st' =
     Stats.cache_hits st + Stats.cache_misses st + PoolAccounting.lookups ops)%Z /\
    (Stats.cache_hits st <= Stats.cache_hits st')%Z /\
    (Stats.cache_misses st <= Stats.cache_misses st')%Z.
Proof.
  induction ops as [|o ops IH]; intros s Hnd; cbv zeta.
  - unfold PoolAccounting.lookups. cbn [Pool.run_ops List.filter List.length].
    repeat split; lia.
  - destruct (@run_op_accounts env o s Hnd) as (N1 & B1 & B2 & B3 & _ & B5 & B6).
    cbv zeta in B1, B2, B3, B5, B6.
    destruct (IH (Pool.run_op env o s) N1) as (I1 & I2 & I3 & I4 & I5).
    cbv zeta in I1, I2, I3, I4, I5.
    cbn [Pool.run_ops].
    split; [lia|]. split.
    { cbn [forallb]. intros H. apply andb_true_iff in H. destruct H as [Ho Hops].
      apply negb_true_iff in Ho. rewrite (I2 Hops). apply B2. exact Ho. }
    split; [|split; lia].
    rewrite I3, B3. unfold PoolAccounting.lookups. cbn [List.filter].
    destruct (PoolAccounting.is_lookup o); cbn [List.length]; lia.
Qed.

(** X22.  What [get_stats] reports about a manager in use.  A manager is
    created and then used through any sequence of get_session /
    remove_session / cleanup_expired_sessions operations.  [get_stats] then
    reports a cache hit rate between 0 and 1, which is [0] (and not a
    division by zero) while no session was asked for, and the rate
    [cache_hits / (cache_hits + cache_misses)] otherwise, where the sum is
    the number of [get_session] calls; the reported number of active
    sessions is at most [sessions_created - sessions_evicted -
    sessions_expired], with equality when no session was removed by
    [remove_session]. *)
Theorem get_stats_of_a_manager_in_use (env : SQLiteSession.behaviour) (ops : list Pool.op)
  (c : Q) (l : list Q) (tr : list (event SessionManager.t))
  (db_path : string) (max_sessions session_ttl cleanup_interval : Z) :
  let m := self (Pool.run_ops env ops
                   (mkState c l tr
                      (SessionManager.__init__ db_path max_sessions session_ttl
                                               cleanup_interval))) in
  let st := SessionManager_get_stats m in
  0 <= SessionManagerStats.cache_hit_rate st <= 1 /\
  (SessionManagerStats.cache_hits st + SessionManagerStats.cache_misses st =
   PoolAccounting.lookups ops)%Z /\
  (PoolAccounting.lookups ops = 0%Z -> SessionManagerStats.cache_hit_rate st = 0) /\
  ((0 < PoolAccounting.lookups ops)%Z ->
   SessionManagerStats.cache_hit_rate st =
     inject_Z (SessionManagerStats.cache_hits st) / inject_Z (PoolAccounting.lookups ops)) /\
  (SessionManagerStats.active_sessions st <=
   SessionManagerStats.sessions_created st - SessionManagerStats.sessions_evicted st
   - SessionManagerStats.sessions_expired st)%Z /\
  (forallb (fun o => negb (PoolAccounting.is_removal o)) ops = true ->
   SessionManagerStats.active_sessions st =
   SessionManagerStats.sessions_created st - SessionManagerStats.sessions_evicted st
   - SessionManagerStats.sessions_expired st)%Z.
Proof.
  cbv zeta.
  destruct (@run_ops_accounts env ops
              (mkState c l tr
                 (SessionManager.__init__ db_path max_sessions session_ttl cleanup_interval)))
    as (B1 & B2 & B3 & B4 & B5); [constructor|].
  cbv zeta in B1, B2, B3, B4, B5.
  remember (self (Pool.run_ops env ops
                    (mkState c l tr
                       (SessionManager.__init__ db_path max_sessions session_ttl
                                                cleanup_interval)))) as m eqn:Em.
  unfold PoolAccounting.balance in B1, B2.
  cbn [self SessionManager.__init__ SessionManager.stats SessionManager._sessions
       Stats.zero Stats.sessions_created Stats.sessions_evicted Stats.sessions_expired
       Stats.cache_hits Stats.cache_misses List.length] in B1, B2, B3, B4, B5.
  unfold SessionManager_get_stats.
  cbn [SessionManagerStats.cache_hit_rate SessionManagerStats.cache_hits
       SessionManagerStats.cache_misses SessionManagerStats.active_sessions
       SessionManagerStats.sessions_created SessionManagerStats.sessions_evicted
       SessionManagerStats.sessions_expired].
  assert (B3' : (Stats.cache_hits (SessionManager.stats m) +
                 Stats.cache_misses (SessionManager.stats m))%Z =
                PoolAccounting.lookups ops) by lia.
  rewrite B3'.
  split.
  { destruct (0 <? PoolAccounting.lookups ops)%Z eqn:E.
    - rewrite <- B3'. apply Zratio_bounds; [lia|]. apply Z.ltb_lt in E. lia.
    - split; lra. }
  split; [reflexivity|].
  split.
  { intros H0. rewrite H0. reflexivity. }
  split.
  { intros Hpos. rewrite (proj2 (Z.ltb_lt _ _) Hpos). reflexivity. }
  split; [lia|].
  intros Hno. specialize (B2 Hno). lia.
Qed.

(** ** DIContainer: the limiters survive a reset *)

(** A lookup in the registry always returns, and binds the name. *)
Lemma registry_lookup_total (model : string) (s : state Registry.t) :
  exists address s',
    Registry.get_rate_limiter model s = (Ok address, s') /\
    Registry._rate_limiters (self s') !! model = Some address /\
    (forall address0, Registry._rate_limiters (self s) !! model = Some address0 -> s' = s).
Proof.
  destruct (Registry._rate_limiters (self s) !! model) as [address|] eqn:E.
  - exists address, s. split; [apply later_lookup_run; exact E|].
    split; [exact E | reflexivity].
  - exists (List.length (Registry.objects (self s))), (RegistrySpec.registered model s).
    split; [apply first_lookup_run; exact E|].
    split; [|discriminate].
    unfold RegistrySpec.registered. cbn [self Registry._rate_limiters].
    apply lookup_insert_eq.
Qed.

Section ContainerLimiters.
Variables field model message : string.

(** The property on a container whose field is [None]. *)
Lemma limiter_property_first (s : state DIContainer.world) :
  DIContainer._cached (DIContainer.container (self s)) !! field = None ->
  exists address reg s1,
    Registry.get_rate_limiter model
      (mkState (clock s) (latency s) [] (DIContainer.limiters (self s)))
      = (Ok address, reg) /\
    Registry._rate_limiters (self reg) !! model = Some address /\
    DIContainer.limiter_property field model message s = (Ok address, s1) /\
    DIContainer.limiters (self s1) = self reg /\
    DIContainer._cached (DIContainer.container (self s1)) =
      <[field := address]> (DIContainer._cached (DIContainer.container (self s))).
Proof.
  intros Hnone.
  destruct (registry_lookup_total model
              (mkState (clock s) (latency s) [] (DIContainer.limiters (self s))))
    as (address & reg & Hrun & Hbound & _).
  exists address, reg. eexists.
  split; [exact Hrun|]. split; [exact Hbound|].
  unfold DIContainer.limiter_property.
  unfold bind at 1, get at 1. cbv beta iota. rewrite Hnone.
  unfold bind at 1. unfold bind at 1. unfold DIContainer.in_registry at 1.
  cbv zeta. rewrite Hrun. cbv beta iota.
  unfold bind at 1, modify at 1, log, emit, get, ret. cbv beta iota.
  unfold bind. cbv beta iota.
  cbn [clock latency trace self DIContainer.set_field DIContainer.container
       DIContainer._cached DIContainer.limiters].
  rewrite lookup_insert_eq.
  split; [reflexivity|]. split; reflexivity.
Qed.

(** The property on a container whose field is set. *)
Lemma limiter_property_cached (s : state DIContainer.world) (address : nat) :
  DIContainer._cached (DIContainer.container (self s)) !! field = Some address ->
  DIContainer.limiter_property field model message s = (Ok address, s).
Proof.
  intros Hsome.
  unfold DIContainer.limiter_property, bind, get, ret. cbv beta iota.
  rewrite Hsome. cbv beta iota. rewrite Hsome. reflexivity.
Qed.

(** Asking again, at once or after a [reset], gives the same limiter. *)
Lemma limiter_property_stable (s : state DIContainer.world) :
  DIContainer._cached (DIContainer.container (self s)) !! field = None ->
  exists address s1 s2 s3,
    DIContainer.limiter_property field model message s = (Ok address, s1) /\
    DIContainer.limiter_property field model message s1 = (Ok address, s1) /\
    DIContainer.reset s1 = (Ok tt, s2) /\
    DIContainer._cached (DIContainer.container (self s2)) = ∅ /\
    DIContainer.limiter_property field model message s2 = (Ok address, s3) /\
    DIContainer.limiters (self s3) = DIContainer.limiters (self s1) /\
    Registry._rate_limiters (DIContainer.limiters (self s1)) !! model = Some address.
Proof.
  intros Hnone.
  destruct (limiter_property_first s Hnone)
    as (address & reg & s1 & _ & Hbound & Hrun1 & Hreg1 & Hc1).
  remember (mkState (clock s1) (latency s1)
              (trace s1 ++ [Logged DEBUG "DI Container reset"])
              (DIContainer.mkWorld (DIContainer.limiters (self s1))
                 (DIContainer.mk ∅ false))) as s2 eqn:Es2.
  assert (Hnone2 : DIContainer._cached (DIContainer.container (self s2)) !! field = None).
  { rewrite Es2. cbn [self DIContainer.container DIContainer._cached]. apply lookup_empty. }
  destruct (limiter_property_first s2 Hnone2)
    as (address' & reg' & s3 & Hlook & _ & Hrun3 & Hreg3 & _).
  assert (Hbound1 : Registry._rate_limiters (DIContainer.limiters (self s1)) !! model
                    = Some address).
  { rewrite Hreg1. exact Hbound. }
  assert (Hlater : Registry.get_rate_limiter model
                     (mkState (clock s2) (latency s2) [] (DIContainer.limiters (self s2)))
                   = (Ok address,
                      mkState (clock s2) (latency s2) [] (DIContainer.limiters (self s2)))).
  { apply later_lookup_run. rewrite Es2.
    cbn [self DIContainer.limiters]. exact Hbound1. }
  rewrite Hlater in Hlook. injection Hlook as <- <-.
  exists address, s1, s2, s3.
  split; [exact Hrun1|].
  split.
  { apply limiter_property_cached. rewrite Hc1. apply lookup_insert_eq. }
  split; [rewrite Es2; reflexivity|].
  split; [rewrite Es2; reflexivity|].
  split; [exact Hrun3|].
  split; [|exact Hbound1].
  rewrite Hreg3, Es2. reflexivity.
Qed.

End ContainerLimiters.

(** X23.  A container's limiters survive its [reset].  On a container
    that has not created its limiter for gpt-4o yet, the property
    [rate_limiter_gpt4o] returns the limiter the registry holds for
    "gpt-4o"; the same limiter is returned when the property is read again
    (nothing changes), and also when it is read after [reset], although
    [reset] has emptied the container: the registry is left exactly as it
    was, no limiter is built anew, so buckets and statistics carry over.
    The same holds for [rate_limiter_gpt4o_mini] and "gpt-4o-mini". *)
Theorem container_reset_keeps_limiters (s : state DIContainer.world) :
  (DIContainer._cached (DIContainer.container (self s)) !! "_rate_limiter_gpt4o" = None ->
   exists address s1 s2 s3,
     DIContainer.rate_limiter_gpt4o s = (Ok address, s1) /\
     DIContainer.rate_limiter_gpt4o s1 = (Ok address, s1) /\
     DIContainer.reset s1 = (Ok tt, s2) /\
     DIContainer._cached (DIContainer.container (self s2)) = ∅ /\
     DIContainer.rate_limiter_gpt4o s2 = (Ok address, s3) /\
     DIContainer.limiters (self s3) = DIContainer.limiters (self s1) /\
     Registry._rate_limiters (DIContainer.limiters (self s1)) !! "gpt-4o" = Some address) /\
  (DIContainer._cached (DIContainer.container (self s)) !! "_rate_limiter_gpt4o_mini" = None ->
   exists address s1 s2 s3,
     DIContainer.rate_limiter_gpt4o_mini s = (Ok address, s1) /\
     DIContainer.rate_limiter_gpt4o_mini s1 = (Ok address, s1) /\
     DIContainer.reset s1 = (Ok tt, s2) /\
     DIContainer._cached (DIContainer.container (self s2)) = ∅ /\
     DIContainer.rate_limiter_gpt4o_mini s2 = (Ok address, s3) /\
     DIContainer.limiters (self s3) = DIContainer.limiters (self s1) /\
     Registry._rate_limiters (DIContainer.limiters (self s1)) !! "gpt-4o-mini"
       = Some address).
Proof.
  split; intros Hnone; apply limiter_property_stable; exact Hnone.
Qed.

Lemma container_reset_keeps_limiters_witness :
  exists address s1 s2 s3,
    DIContainer.rate_limiter_gpt4o
      (mkState 0 [] [] (DIContainer.mkWorld (Registry.mk [] ∅) (DIContainer.mk ∅ false)))
      = (Ok address, s1) /\
    DIContainer.reset s1 = (Ok tt, s2) /\
    DIContainer.rate_limiter_gpt4o s2 = (Ok address, s3) /\
    DIContainer.limiters (self s3) = DIContainer.limiters (self s1).
Proof.
  destruct (proj1 (container_reset_keeps_limiters
                     (mkState 0 [] []
                        (DIContainer.mkWorld (Registry.mk [] ∅) (DIContainer.mk ∅ false)))))
    as (address & s1 & s2 & s3 & H1 & _ & H2 & _ & H3 & H4 & _).
  - apply lookup_empty.
  - exists address, s1, s2, s3. repeat split; assumption.
Defined.
